(** * A durable HTTP download service (Go): shallow embedding and properties

    The file has three parts.

    The model follows the packages of the repository:
    - [GoInt], [GoStr], [GoJson], [GoPath]: the fragments of Go's [int],
      [strings], [fmt], [encoding/json], [path] and [path/filepath] that
      the program calls;
    - [Core]    : internal/core/types.go   (Task, FileItem, sanitizeFilename,
                  RecomputeStatus, NewTask), and [Ident] (NewID);
    - [Store]   : internal/store/wal.go    (AppendTask, RecoverTasks);
    - [Queue]   : internal/queue/dispatcher.go;
    - [Sys]     : the disk, the server and the clock, as the program meets them;
    - [Loader]  : internal/downloader/downloader.go (Fetch);
    - [AppM]    : internal/app/app.go      (recoverFromWAL, AddTask, workerLoop,
                  uniquePath, itoa, New), [AppApi] (Addr, SetDrain,
                  IsDrain, GetTask, ListTasks) and [Workers] (the critical
                  sections of workerLoop and AddTask under any schedule);
    - [HttpApi] : internal/http/api.go     (positiveInt, GET /tasks), and
                  [Router] (the other handlers of NewRouter).

    The vocabulary of the statements comes next: censuses, reachable tasks,
    the worlds and configurations of the end-to-end scenarios.

    The properties are last, a module of facts and a module of claims or
    properties for each subject.

    Go strings are byte sequences: they are modelled by [string], whose
    characters are 8-bit [ascii] values. Maps are stdpp's [gmap]. *)

From Stdlib Require Import ZArith Lia Bool List Ascii String DecimalString.
From stdpp Require Import base option list gmap strings.

Local Open Scope Z_scope.

(** stdpp keeps [String.append] folded under [simpl]; the proofs below
    compute with it. *)
#[local] Arguments String.append !_ _ /.

(* ------------------------------------------------------------------ *)
(** ** Go's [int] (64 bits, two's complement) *)

Module GoInt.

Definition min_int : Z := - 2 ^ 63.
Definition max_int : Z := 2 ^ 63 - 1.

(** Wrap-around of a mathematical integer into the range of [int]. *)
Definition wrap (z : Z) : Z := (z + 2 ^ 63) mod 2 ^ 64 - 2 ^ 63.

Definition add (a b : Z) : Z := wrap (a + b).
Definition neg (a : Z) : Z := wrap (- a).
Definition mul (a b : Z) : Z := wrap (a * b).

Definition in_range (z : Z) : Prop := min_int <= z <= max_int.

(** The builtin-shadowing helper [max] of app.go and downloader.go. *)
Definition max (a b : Z) : Z := if a >? b then a else b.

End GoInt.

(* ------------------------------------------------------------------ *)
(** ** Byte strings *)

Module GoStr.

Definition byte_of (n : nat) : ascii := ascii_of_nat n.

Definition c_quote : ascii := byte_of 34.
Definition c_lf : ascii := byte_of 10.
Definition c_cr : ascii := byte_of 13.
Definition c_backslash : ascii := byte_of 92.

Definition single (c : ascii) : string := String c EmptyString.

Definition bytes (s : string) : list ascii := list_ascii_of_string s.

Definition eqb_byte (a b : ascii) : bool := Ascii.eqb a b.

(** [strings.IndexByte]: position of the first [c] in [s]; Go's -1 is
    [None]. *)
Fixpoint IndexByte (s : string) (c : ascii) : option nat :=
  match s with
  | EmptyString => None
  | String a s' =>
      if eqb_byte a c then Some O
      else match IndexByte s' c with
           | Some i => Some (S i)
           | None => None
           end
  end.

(** The slice [s[:i]]. *)
Fixpoint take (i : nat) (s : string) : string :=
  match i, s with
  | O, _ => EmptyString
  | S i', String a s' => String a (take i' s')
  | S _, EmptyString => EmptyString
  end.

(** The slice [s[i:]]. *)
Fixpoint drop (i : nat) (s : string) : string :=
  match i, s with
  | O, _ => s
  | S i', String _ s' => drop i' s'
  | S _, EmptyString => EmptyString
  end.

Definition len (s : string) : nat := String.length s.

(** A [strings.Replacer] all of whose old strings are single bytes
    (Go's byteStringReplacer): every byte of the input is looked up in
    the table; the first pair for a byte wins. *)
Fixpoint replacement (table : list (ascii * string)) (c : ascii) : option string :=
  match table with
  | [] => None
  | (o, n) :: rest => if eqb_byte o c then Some n else replacement rest c
  end.

Definition replace_byte (table : list (ascii * string)) (c : ascii) : string :=
  match replacement table c with
  | Some n => n
  | None => single c
  end.

Fixpoint Replace (table : list (ascii * string)) (s : string) : string :=
  match s with
  | EmptyString => EmptyString
  | String c s' => String.append (replace_byte table c) (Replace table s')
  end.

Definition contains_byte (s : string) (c : ascii) : bool :=
  existsb (eqb_byte c) (bytes s).

(** The verb [%d] of [fmt]. *)
Definition fmt_d (z : Z) : string := NilZero.string_of_int (Z.to_int z).

End GoStr.

(* ------------------------------------------------------------------ *)
(** ** Strings through [encoding/json] *)

Module GoJson.

Definition between (lo hi : N) (c : ascii) : bool :=
  ((lo <=? N_of_ascii c) && (N_of_ascii c <=? hi))%N.

(** The tables [first] and [acceptRanges] of unicode/utf8: for a leading
    byte, the width of the encoding it begins and the range of the second
    byte; [None] for a byte that begins no encoding. *)
Definition lead (c : ascii) : option (nat * (N * N)) :=
  let b := N_of_ascii c in
  (if b <? 128 then Some (1%nat, (0, 0))
   else if b <? 194 then None
   else if b <? 224 then Some (2%nat, (128, 191))
   else if b =? 224 then Some (3%nat, (160, 191))
   else if b <? 237 then Some (3%nat, (128, 191))
   else if b =? 237 then Some (3%nat, (128, 159))
   else if b <? 240 then Some (3%nat, (128, 191))
   else if b =? 240 then Some (4%nat, (144, 191))
   else if b <? 244 then Some (4%nat, (128, 191))
   else if b =? 244 then Some (4%nat, (128, 143))
   else None)%N.

(** [utf8.DecodeRuneInString] on a non-empty string, as far as the
    encoder looks at it: the width of the encoding at the head of [s];
    [None] is the answer (RuneError, 1) for a byte that is not part of an
    encoding. *)
Definition rune_width (s : string) : option nat :=
  match s with
  | EmptyString => None
  | String c0 r =>
      match lead c0 with
      | None => None
      | Some (sz, (lo, hi)) =>
          if (sz =? 1)%nat then Some 1%nat
          else
            match r with
            | EmptyString => None
            | String c1 r1 =>
                if negb (between lo hi c1) then None
                else if (sz =? 2)%nat then Some 2%nat
                else
                  match r1 with
                  | EmptyString => None
                  | String c2 r2 =>
                      if negb (between 128 191 c2) then None
                      else if (sz =? 3)%nat then Some 3%nat
                      else
                        match r2 with
                        | EmptyString => None
                        | String c3 _ =>
                            if negb (between 128 191 c3) then None
                            else Some 4%nat
                        end
                  end
            end
      end
  end.

(** U+FFFD in UTF-8: EF BF BD. *)
Definition ufffd : string :=
  String (ascii_of_N 239) (String (ascii_of_N 191) (String (ascii_of_N 189) EmptyString)).

(** A string written by [json.Marshal] and read by [json.Unmarshal]. The
    encoder walks the string rune by rune and writes the escape of
    U+FFFD for every byte that is not part of an encoding; every other byte
    comes back as it was (the escapes of quotes, control characters,
    <, >, & and U+2028/9 are undone by the decoder). [skip] bytes of
    the rune under way are still to be copied. *)
Fixpoint coerce (skip : nat) (s : string) : string :=
  match s with
  | EmptyString => EmptyString
  | String c r =>
      match skip with
      | S k => String c (coerce k r)
      | O =>
          match rune_width s with
          | Some w => String c (coerce (w - 1) r)
          | None => String.append ufffd (coerce 0 r)
          end
      end
  end.

Definition round_trip (s : string) : string := coerce 0 s.

End GoJson.

(* ------------------------------------------------------------------ *)
(** ** Slash-separated paths ([path.Base], [filepath.Ext], [filepath.Clean],
       [filepath.Join], [filepath.Dir]; Unix separator) *)

Module GoPath.
Import GoStr.

Definition sep : ascii := "/"%char.
Definition dot : ascii := "."%char.

Definition is_sep (c : ascii) : bool := eqb_byte c sep.

(** Elements of a path between separators (empty elements are kept;
    [Clean] discards them). *)
Fixpoint split_go (cur : string) (s : string) : list string :=
  match s with
  | EmptyString => [cur]
  | String c s' =>
      if is_sep c then cur :: split_go EmptyString s'
      else split_go (String.append cur (single c)) s'
  end.

Definition split (s : string) : list string := split_go EmptyString s.

Fixpoint join_elems (l : list string) : string :=
  match l with
  | [] => EmptyString
  | [x] => x
  | x :: rest => String.append x (String sep (join_elems rest))
  end.

Definition rooted (p : string) : bool :=
  match p with
  | String c _ => is_sep c
  | EmptyString => false
  end.

(** One element processed by [Clean]. [out] is the output built so far,
    last element first. An empty element and "." are dropped; ".." removes
    the last real element, is dropped at the root, and is kept at the
    front of a relative path. *)
Definition clean_step (is_rooted : bool) (out : list string) (e : string) : list string :=
  if String.eqb e EmptyString then out
  else if String.eqb e "." then out
  else if String.eqb e ".." then
    match out with
    | top :: rest =>
        if String.eqb top ".." then e :: out else rest
    | [] => if is_rooted then [] else [e]
    end
  else e :: out.

Definition clean_elems (is_rooted : bool) (l : list string) : list string :=
  rev (fold_left (clean_step is_rooted) l []).

(** [filepath.Clean]. *)
Definition Clean (p : string) : string :=
  if String.eqb p EmptyString then "."
  else
    let r := rooted p in
    let body := join_elems (clean_elems r (split p)) in
    if r then String sep body
    else if String.eqb body EmptyString then "." else body.

(** [filepath.Join] of two elements: empty elements are ignored, the rest
    is joined by a separator and cleaned; all empty gives the empty
    string. *)
Definition Join (a b : string) : string :=
  if String.eqb a EmptyString then
    if String.eqb b EmptyString then EmptyString else Clean b
  else Clean (String.append a (String sep b)).

(** Index one past the last separator of [p] (0 when there is none). *)
Fixpoint after_last_sep (p : string) : nat :=
  match p with
  | EmptyString => O
  | String c p' =>
      let k := after_last_sep p' in
      match k with
      | O => if is_sep c then 1%nat else O
      | S _ => S k
      end
  end.

(** [filepath.Dir]: everything up to the last separator, cleaned. *)
Definition Dir (p : string) : string := Clean (take (after_last_sep p) p).

(** [filepath.Ext]: the suffix starting at the last dot of the last
    element; empty when that element has no dot. *)
Fixpoint Ext (p : string) : string :=
  match p with
  | EmptyString => EmptyString
  | String c p' =>
      let e := Ext p' in
      if String.eqb e EmptyString then
        if contains_byte p' sep then EmptyString
        else if eqb_byte c dot then p
        else EmptyString
      else e
  end.

(** Removal of trailing separators, as [path.Base] does first. *)
Fixpoint strip_trailing_sep (p : string) : string :=
  match p with
  | EmptyString => EmptyString
  | String c p' =>
      let r := strip_trailing_sep p' in
      if String.eqb r EmptyString then
        if is_sep c then EmptyString else single c
      else String c r
  end.

(** [path.Base]: the last element of the path; "." for the empty path and
    "/" for a path of separators only. *)
Definition Base (p : string) : string :=
  if String.eqb p EmptyString then "."
  else
    let q := strip_trailing_sep p in
    let r := drop (after_last_sep q) q in
    if String.eqb r EmptyString then "/" else r.

End GoPath.


(* ------------------------------------------------------------------ *)
(** ** Results of fallible calls: Go's [(value, error)] pairs *)

Inductive result (A : Type) : Type :=
| Ok (a : A)
| Err (msg : string).
Arguments Ok {A} a.
Arguments Err {A} msg.

(* ------------------------------------------------------------------ *)
(** ** internal/core/types.go *)

Module Core.
Import GoStr.

Inductive TaskStatus : Type :=
| TaskPending | TaskRunning | TaskComplete | TaskFailed | TaskPartial.

(** The four constants of the source; nothing in the program writes
    another value into a file. *)
Inductive FileState : Type :=
| FilePending | FileRunning | FileDone | FileFailed.

Definition FileState_eqb (a b : FileState) : bool :=
  match a, b with
  | FilePending, FilePending | FileRunning, FileRunning
  | FileDone, FileDone | FileFailed, FileFailed => true
  | _, _ => false
  end.

(** Timestamps ([*time.Time]) are [option Z]: [None] is the nil pointer. *)
Record FileItem : Type := mkFileItem {
  URL : string;
  Filename : string;
  State : FileState;
  Error : string;
  Attempts : Z;
  MaxAttempts : Z;
  BytesDownloaded : Z;
  SizeHint : Z;
  StartedAt : option Z;
  FinishedAt : option Z;
  Host : string
}.

Record Task : Type := mkTask {
  ID : string;
  Label : string;
  CreatedAt : Z;
  DestDir : string;
  Status : TaskStatus;
  Files : list FileItem;
  Total : Z;
  Done : Z;
  Failed : Z;
  Pending : Z;
  Running : Z;
  Retries : Z
}.

Definition set_Files (t : Task) (fs : list FileItem) : Task :=
  mkTask (ID t) (Label t) (CreatedAt t) (DestDir t) (Status t) fs
         (Total t) (Done t) (Failed t) (Pending t) (Running t) (Retries t).

Definition set_DestDir (t : Task) (d : string) : Task :=
  mkTask (ID t) (Label t) (CreatedAt t) d (Status t) (Files t)
         (Total t) (Done t) (Failed t) (Pending t) (Running t) (Retries t).

(** The table of the [strings.NewReplacer] call in [sanitizeFilename]. *)
Definition sanitize_table : list (ascii * string) :=
  [ (":"%char, "-"); ("/"%char, "-"); (c_backslash, "-");
    ("*"%char, EmptyString); ("?"%char, EmptyString); (c_quote, EmptyString);
    ("<"%char, EmptyString); (">"%char, EmptyString); ("|"%char, EmptyString);
    (c_lf, EmptyString); (c_cr, EmptyString) ].

Definition sanitizeFilename (s : string) : string :=
  let s := match IndexByte s "?"%char with
           | Some i => take i s
           | None => s
           end in
  if String.eqb s EmptyString || String.eqb s "." || String.eqb s "/"
  then "file"
  else Replace sanitize_table s.

(** The counters of the loop of [RecomputeStatus]. *)
Record census : Type := mkCensus {
  c_done : Z; c_failed : Z; c_pending : Z; c_running : Z; c_retries : Z
}.

Definition census0 : census := mkCensus 0 0 0 0 0.

Definition census_step (c : census) (f : FileItem) : census :=
  let r := GoInt.add (c_retries c) (Attempts f) in
  match State f with
  | FileDone => mkCensus (c_done c + 1) (c_failed c) (c_pending c) (c_running c) r
  | FileFailed => mkCensus (c_done c) (c_failed c + 1) (c_pending c) (c_running c) r
  | FilePending => mkCensus (c_done c) (c_failed c) (c_pending c + 1) (c_running c) r
  | FileRunning => mkCensus (c_done c) (c_failed c) (c_pending c) (c_running c + 1) r
  end.

Definition derive_status (total done failed pending running : Z) : TaskStatus :=
  if (total >? 0) && (done =? total) then TaskComplete
  else if (total >? 0) && (failed =? total) then TaskFailed
  else if running >? 0 then TaskRunning
  else if (done >? 0) && (failed >? 0) && (pending =? 0) && (running =? 0)
       then TaskPartial
  else TaskPending.

Definition RecomputeStatus (t : Task) : Task :=
  let total := Z.of_nat (length (Files t)) in
  let c := fold_left census_step (Files t) census0 in
  mkTask (ID t) (Label t) (CreatedAt t) (DestDir t)
         (derive_status total (c_done c) (c_failed c) (c_pending c) (c_running c))
         (Files t)
         total (c_done c) (c_failed c) (c_pending c) (c_running c) (c_retries c).

(** What [NewTask] reads of a parsed URL. *)
Record URLParts : Type := mkURL { Scheme : string; UHost : string; UPath : string }.

Section NewTask.
(** [url.Parse] of the standard library; [None] is a parse error. *)
Variable url_Parse : string -> option URLParts.

(** The message of [fmt.Errorf] for a link; the quoting of %q is left
    out. *)
Definition bad_link (link : string) : string :=
  String.append "некорректная ссылка: " link.

(** The body of the loop of [NewTask] for one link. *)
Definition newFile (link : string) (maxAttempts : Z) : result FileItem :=
  match url_Parse link with
  | None => Err (bad_link link)
  | Some u =>
      if String.eqb (Scheme u) EmptyString || String.eqb (UHost u) EmptyString
      then Err (bad_link link)
      else
        let base := GoPath.Base (UPath u) in
        let base := if String.eqb base "." || String.eqb base "/"
                       || String.eqb base EmptyString
                    then "file" else base in
        Ok (mkFileItem link (sanitizeFilename base) FilePending EmptyString
                       0 maxAttempts 0 0 None None (UHost u))
  end.

Fixpoint newFiles (links : list string) (maxAttempts : Z) : result (list FileItem) :=
  match links with
  | [] => Ok []
  | link :: rest =>
      match newFile link maxAttempts with
      | Err e => Err e
      | Ok f =>
          match newFiles rest maxAttempts with
          | Err e => Err e
          | Ok fs => Ok (f :: fs)
          end
      end
  end.

(** [NewTask]; the identifier produced by [NewID] and the clock reading
    are arguments. *)
Definition NewTask (id : string) (now : Z) (label destDir : string)
           (links : list string) (maxAttempts : Z) : result Task :=
  match links with
  | [] => Err "пустой список ссылок"
  | _ =>
      match newFiles links maxAttempts with
      | Err e => Err e
      | Ok files =>
          Ok (RecomputeStatus
                (mkTask id label now destDir TaskPending files 0 0 0 0 0 0))
      end
  end.
End NewTask.

End Core.


(* ------------------------------------------------------------------ *)
(** ** internal/store/wal.go *)

Module Store.
Import Core.

Record walRecord : Type := mkRecord {
  Type_ : string;
  RTask : option Task
}.

(** One line of tasks.wal as [RecoverTasks] meets it: the number of bytes
    before the newline, and what [json.Unmarshal] makes of them ([None]
    when the line does not parse). *)
Record walLine : Type := mkLine {
  line_len : Z;
  line_json : option walRecord
}.

(** What [json.Unmarshal] reads from the bytes [json.Marshal] wrote for a
    record: every string has gone through [GoJson.round_trip]; numbers,
    states and nil pointers come back as they were, and so do the times,
    which are instants here (the program stores readings of the clock,
    whose years [Marshal] accepts). *)
Definition json_file (f : FileItem) : FileItem :=
  mkFileItem (GoJson.round_trip (URL f)) (GoJson.round_trip (Filename f))
             (State f) (GoJson.round_trip (Error f)) (Attempts f)
             (MaxAttempts f) (BytesDownloaded f) (SizeHint f)
             (StartedAt f) (FinishedAt f) (GoJson.round_trip (Host f)).

Definition json_task (t : Task) : Task :=
  mkTask (GoJson.round_trip (ID t)) (GoJson.round_trip (Label t)) (CreatedAt t)
         (GoJson.round_trip (DestDir t)) (Status t) (map json_file (Files t))
         (Total t) (Done t) (Failed t) (Pending t) (Running t) (Retries t).

Definition json_record (r : walRecord) : walRecord :=
  mkRecord (GoJson.round_trip (Type_ r)) (option_map json_task (RTask r)).

(** The journal: the lines of the file behind [WAL.f] / [WAL.path]. *)
Record WAL : Type := mkWAL {
  lines : list walLine
}.

(** [OpenWAL] on a data directory without a journal. *)
Definition OpenWAL_fresh : WAL := mkWAL [].

(** The second argument of [sc.Buffer] in [RecoverTasks]. *)
Definition maxTokenSize : Z := 10 * 1024 * 1024.

Section Journal.
(** Length in bytes of [json.Marshal(walRecord{...})] for a task. *)
Variable jsonLen : Task -> Z.

(** [AppendTask]: one "upsert_task" line is written and flushed. The
    line holds the record as encoded by [json.Marshal]. *)
Definition AppendTask (w : WAL) (task : Task) : WAL :=
  let rec := mkRecord "upsert_task" (Some task) in
  mkWAL (lines w ++ [mkLine (jsonLen task) (Some (json_record rec))]).

Definition AppendTasks (w : WAL) (ts : list Task) : WAL :=
  fold_left AppendTask ts w.
End Journal.

(** The loop [for sc.Scan()] of [RecoverTasks] followed by the test of
    [sc.Err()]. The scanner stops with ErrTooLong at a line that does not
    fit, newline included, into a buffer of [maxTokenSize] bytes. *)
Fixpoint scan (ls : list walLine) (tasks : gmap string Task)
  : result (gmap string Task) :=
  match ls with
  | [] => Ok tasks
  | l :: rest =>
      if line_len l >=? maxTokenSize then Err "bufio.Scanner: token too long"
      else
        match line_json l with
        | None => scan rest tasks
        | Some rec =>
            if String.eqb (Type_ rec) "upsert_task" then
              match RTask rec with
              | Some t => scan rest (<[ID t := t]> tasks)
              | None => scan rest tasks
              end
            else scan rest tasks
        end
  end.

Definition RecoverTasks (w : WAL) : result (gmap string Task) :=
  scan (lines w) ∅.

End Store.

(* ------------------------------------------------------------------ *)
(** ** internal/queue/dispatcher.go *)

Module Queue.

Record Job : Type := mkJob {
  TaskID : string;
  FileIndex : Z;
  JHost : string
}.

(** The channels are FIFO buffers with their capacities; [stopped] is set
    once [stopCh] is closed, [out_closed] once the scheduler has closed
    [taskCh]. *)
Record Dispatcher : Type := mkDispatcher {
  jobInCh : list Job;
  inBuffer : nat;
  taskCh : list Job;
  workerBuffer : nat;
  backlog : list Job;
  drain : bool;
  closed : bool;
  out_closed : bool
}.

Definition NewDispatcher (inBuffer workerBuffer : nat) : Dispatcher :=
  mkDispatcher [] inBuffer [] workerBuffer [] false false false.

Definition with_in (d : Dispatcher) (q : list Job) : Dispatcher :=
  mkDispatcher q (inBuffer d) (taskCh d) (workerBuffer d) (backlog d)
               (drain d) (closed d) (out_closed d).

Definition with_out (d : Dispatcher) (q : list Job) : Dispatcher :=
  mkDispatcher (jobInCh d) (inBuffer d) q (workerBuffer d) (backlog d)
               (drain d) (closed d) (out_closed d).

Definition with_backlog (d : Dispatcher) (q : list Job) : Dispatcher :=
  mkDispatcher (jobInCh d) (inBuffer d) (taskCh d) (workerBuffer d) q
               (drain d) (closed d) (out_closed d).

Definition Close (d : Dispatcher) : Dispatcher :=
  if closed d then d
  else mkDispatcher (jobInCh d) (inBuffer d) (taskCh d) (workerBuffer d)
                    (backlog d) (drain d) true (out_closed d).

Definition Drain (d : Dispatcher) (on : bool) : Dispatcher :=
  mkDispatcher (jobInCh d) (inBuffer d) (taskCh d) (workerBuffer d)
               (backlog d) on (closed d) (out_closed d).

Definition IsDrain (d : Dispatcher) : bool := drain d.

(** The non-blocking send [select { case d.taskCh <- j: default: }]. *)
Definition try_send_out (d : Dispatcher) (j : Job) : option Dispatcher :=
  if (length (taskCh d) <? workerBuffer d)%nat
  then Some (with_out d (taskCh d ++ [j]))
  else None.

(** [tryFlushBacklog]: the head of the backlog goes out while the worker
    channel takes it. *)
Fixpoint flush_loop (bl : list Job) (d : Dispatcher) : Dispatcher :=
  match bl with
  | [] => with_backlog d []
  | j :: rest =>
      match try_send_out d j with
      | Some d' => flush_loop rest d'
      | None => with_backlog d bl
      end
  end.

Definition tryFlushBacklog (d : Dispatcher) : Dispatcher :=
  if IsDrain d then d else flush_loop (backlog d) d.

(** The branch [case j := <-d.jobInCh] of [schedulerLoop]. *)
Definition sched_job (d : Dispatcher) : Dispatcher :=
  match jobInCh d with
  | [] => d
  | j :: rest =>
      let d := with_in d rest in
      if IsDrain d then with_backlog d (backlog d ++ [j])
      else match try_send_out d j with
           | Some d' => d'
           | None => with_backlog d (backlog d ++ [j])
           end
  end.

(** The branch [case <-d.stopCh]: the worker channel is closed. *)
Definition sched_stop (d : Dispatcher) : Dispatcher :=
  mkDispatcher (jobInCh d) (inBuffer d) (taskCh d) (workerBuffer d)
               (backlog d) (drain d) (closed d) true.

(** The blocking send [d.InChan() <- j]. While the intake buffer is full
    the sender waits and the scheduler, which is always running, takes a
    job from the intake. *)
Definition send_in (d : Dispatcher) (j : Job) : Dispatcher :=
  let d := if (length (jobInCh d) <? inBuffer d)%nat then d else sched_job d in
  with_in d (jobInCh d ++ [j]).

(** Every job the dispatcher holds. *)
Definition held (d : Dispatcher) : list Job :=
  taskCh d ++ backlog d ++ jobInCh d.

End Queue.

(* ------------------------------------------------------------------ *)
(** ** The file system and the network, as the program observes them *)

Module Sys.

Inductive node : Type :=
| Dir
| File (size : Z).

Abbreviation FS := (gmap string node).

(** [os.Stat] answers ErrNotExist. The disk is keyed by the paths as the
    program writes them: two spellings of one path are two keys, and a
    path below a regular file counts as absent, where [os.Stat] answers
    ENOTDIR. The statements about the disk look at the destination and
    the staging path of a download, which the program writes in one way
    and below directories. *)
Definition notExist (fs : FS) (p : string) : bool :=
  match fs !! p with
  | None => true
  | Some _ => false
  end.

(** [os.MkdirAll]: an existing directory is left alone, an existing file
    is an error, otherwise the parents are made first. [fuel] bounds the
    walk to the root and is the length of the path. *)
Fixpoint mkdirAll (fuel : nat) (fs : FS) (p : string) : option FS :=
  match fs !! p with
  | Some Dir => Some fs
  | Some (File _) => None
  | None =>
      match fuel with
      | O => Some (<[p := Dir]> fs)
      | S k =>
          let parent := GoPath.Dir p in
          if String.eqb parent p then Some (<[p := Dir]> fs)
          else match mkdirAll k fs parent with
               | Some fs' => Some (<[p := Dir]> fs')
               | None => None
               end
      end
  end.

Definition MkdirAll (fs : FS) (p : string) : option FS :=
  mkdirAll (String.length p) fs p.

(** What [httpClient.Do] and the copy of the body give. *)
Inductive HttpOutcome : Type :=
| TransportError (msg : string)
| Response (status : Z) (written : Z) (copyErr : option string).

(** What one iteration of the loop of [Fetch] meets: the errors of the
    calls that can fail for reasons outside the program, the answer of
    the server, and whether the context is done before the backoff timer
    fires. *)
Record Attempt : Type := mkAttempt {
  at_request_err : option string;
  at_mkdir_err : option string;
  at_create_err : option string;
  at_http : HttpOutcome;
  at_close_err : option string;
  at_rename_err : option string;
  at_ctx_done : bool
}.

(** An attempt on which every local call succeeds. *)
Definition plain (h : HttpOutcome) : Attempt :=
  mkAttempt None None None h None None false.

(** The world: the answer to the [n]-th request overall, by URL, and the
    clock reading of the [n]-th call of [time.Now]. *)
Record World : Type := mkWorld {
  w_attempt : string -> nat -> Attempt;
  w_now : nat -> Z
}.

End Sys.

(* ------------------------------------------------------------------ *)
(** ** internal/downloader/downloader.go *)

Module Loader.
Import Sys.

Record Options : Type := mkOptions {
  ClientTimeout : Z;
  Retries : Z;
  HostConcurrency : Z
}.

(** What [Fetch] does to the outside, in order. *)
Inductive Event : Type :=
| EvMkdirAll (dir : string)
| EvCreate (path : string)
| EvDo (url : string)
| EvClose (path : string)
| EvRemove (path : string)
| EvRename (src dst : string)
| EvBackoff (d : Z).

(** The state [Fetch] threads: the disk, the number of requests issued so
    far, and the trace. *)
Record St : Type := mkSt {
  fs : FS;
  reqs : nat;
  trace : list Event
}.

Definition emit (s : St) (e : Event) : St :=
  mkSt (fs s) (reqs s) (trace s ++ [e]).

Definition set_fs (s : St) (f : FS) : St := mkSt f (reqs s) (trace s).

Definition os_Remove (s : St) (p : string) : St :=
  emit (set_fs s (delete p (fs s))) (EvRemove p).

Definition out_Close (s : St) (p : string) : St := emit s (EvClose p).

Definition ctx_err : string := "context deadline exceeded".

Definition backoff0 : Z := 500 * 1000000.

Section Fetch.
Variable url_Parse : string -> option Core.URLParts.
Variable world : World.
Variable opts : Options.
Variable rawURL destPath : string.

Definition tmpPath : string := String.append destPath ".part".

(** The loop of [Fetch]; [k] iterations remain. The [select] between
    the timer and [ctx.Done()] is [wait]: the loop goes on with the
    doubled backoff, or [Fetch] returns the error of the context. *)
Fixpoint fetch_loop (k : nat) (s : St) (lastErr : option string) (backoff : Z)
  : St * result Z :=
  match k with
  | O =>
      (s, Err (match lastErr with
               | Some e => e
               | None => "неизвестная ошибка при скачивании"
               end))
  | S k' =>
      let a := w_attempt world rawURL (reqs s) in
      let wait (s : St) (lastErr : option string) : St * result Z :=
        let s := emit s (EvBackoff backoff) in
        if at_ctx_done a then (s, Err ctx_err)
        else fetch_loop k' s lastErr (GoInt.mul backoff 2) in
      match at_request_err a with
      | Some e => (s, Err e)
      | None =>
          let s := emit s (EvMkdirAll (GoPath.Dir destPath)) in
          match at_mkdir_err a, MkdirAll (fs s) (GoPath.Dir destPath) with
          | Some e, _ => (s, Err e)
          | None, None => (s, Err "mkdir: not a directory")
          | None, Some fs1 =>
              let s := set_fs s fs1 in
              match at_create_err a with
              | Some e => (s, Err e)
              | None =>
                  let s := emit (set_fs s (<[tmpPath := File 0]> (fs s)))
                                (EvCreate tmpPath) in
                  let s := mkSt (fs s) (S (reqs s)) (trace s ++ [EvDo rawURL]) in
                  match at_http a with
                  | TransportError e =>
                      let s := out_Close s tmpPath in
                      wait s (Some e)
                  | Response status written copyErr =>
                      if (status <? 200) || (status >=? 300) then
                        let s := out_Close s tmpPath in
                        let s := os_Remove s tmpPath in
                        let e := String.append "http " (GoStr.fmt_d status) in
                        if (status >=? 500) && (status <? 600)
                        then wait s (Some e)
                        else (s, Err e)
                      else
                        let s := set_fs s (<[tmpPath := File written]> (fs s)) in
                        let s := out_Close s tmpPath in
                        match copyErr with
                        | Some e => wait (os_Remove s tmpPath) (Some e)
                        | None =>
                            match at_close_err a with
                            | Some e => wait (os_Remove s tmpPath) (Some e)
                            | None =>
                                match at_rename_err a with
                                | Some e => wait (os_Remove s tmpPath) (Some e)
                                | None =>
                                    let s := set_fs s (<[destPath := File written]>
                                                         (delete tmpPath (fs s))) in
                                    (emit s (EvRename tmpPath destPath), Ok written)
                                end
                            end
                        end
                  end
              end
          end
      end
  end.

(** [Fetch], one call at a time. [acquireHost] and the deferred release
    are left out: with one call under way the slot of the host is
    granted at once and is free again when the call returns. *)
Definition Fetch (s : St) : St * result Z :=
  match url_Parse rawURL with
  | None => (s, Err "parse error")
  | Some _ =>
      fetch_loop (Z.to_nat (GoInt.max 1 (Retries opts))) s None backoff0
  end.
End Fetch.

End Loader.

(* ------------------------------------------------------------------ *)
(** ** internal/app/app.go *)

Module AppM.
Import Core Store Queue Sys.

Record Config : Type := mkConfig {
  Port : string;
  DataDir : string;
  DownloadDir : string;
  Workers : Z;
  HostConcurrency : Z;
  ClientTimeout : Z;
  Retries : Z;
  ShutdownWait : Z
}.

(** [itoa]: the digits are written from the end of a buffer of 20 bytes;
    [i] is the index of the first byte in use. *)
Fixpoint itoa_loop (fuel : nat) (n : Z) (buf : list ascii) (i : nat)
  : list ascii * nat :=
  match fuel with
  | O => (buf, i)
  | S k =>
      if n >? 0 then
        let i := (i - 1)%nat in
        let buf := <[i := ascii_of_nat (Z.to_nat (48 + Z.rem n 10))]> buf in
        itoa_loop k (Z.quot n 10) buf i
      else (buf, i)
  end.

Definition itoa (n : Z) : string :=
  if n =? 0 then "0"
  else
    let buf := replicate 20 (ascii_of_nat 0) in
    let i := 20%nat in
    let neg := n <? 0 in
    let n := if neg then GoInt.neg n else n in
    let '(buf, i) := itoa_loop 20 n buf i in
    let '(buf, i) :=
      if neg then (<[(i - 1)%nat := "-"%char]> buf, (i - 1)%nat) else (buf, i) in
    string_of_list_ascii (drop i buf).

Section UniquePath.
(** [os.Stat] followed by [errors.Is(err, os.ErrNotExist)]. *)
Variable notExist : string -> bool.

Definition candidate (name ext : string) (i : Z) : string :=
  String.append name (String.append "-" (String.append (itoa i) ext)).

(** The loop [for i := 1; i < 10000; i++], [k] values of [i] left. *)
Fixpoint uniquePath_loop (k : nat) (i : Z) (name ext : string) : option string :=
  match k with
  | O => None
  | S k' =>
      let p := candidate name ext i in
      if notExist p then Some p
      else uniquePath_loop k' (i + 1) name ext
  end.

Definition uniquePath (base : string) : string :=
  if notExist base then base
  else
    let ext := GoPath.Ext base in
    let name := GoStr.take (String.length base - String.length ext) base in
    match uniquePath_loop (Z.to_nat 9999) 1 name ext with
    | Some p => p
    | None => String.append base "-dup"
    end.
End UniquePath.

(** What the application does to the outside, in order. *)
Inductive Event : Type :=
| EvEnqueue (j : Job)
| EvWorkerStart (idx : Z)
| EvJournal (t : Task)
| EvFetch (url dest : string).

Record App : Type := mkApp {
  Conf : Config;
  wal : WAL;
  tasks : gmap string Task;
  dispatcher : Dispatcher;
  loader : Loader.St;
  ticks : nat;
  log : list Event
}.

Definition set_tasks (a : App) (m : gmap string Task) : App :=
  mkApp (Conf a) (wal a) m (dispatcher a) (loader a) (ticks a) (log a).
Definition set_wal (a : App) (w : WAL) : App :=
  mkApp (Conf a) w (tasks a) (dispatcher a) (loader a) (ticks a) (log a).
Definition set_dispatcher (a : App) (d : Dispatcher) : App :=
  mkApp (Conf a) (wal a) (tasks a) d (loader a) (ticks a) (log a).
Definition set_loader (a : App) (l : Loader.St) : App :=
  mkApp (Conf a) (wal a) (tasks a) (dispatcher a) l (ticks a) (log a).
Definition set_ticks (a : App) (n : nat) : App :=
  mkApp (Conf a) (wal a) (tasks a) (dispatcher a) (loader a) n (log a).
Definition note (a : App) (e : Event) : App :=
  mkApp (Conf a) (wal a) (tasks a) (dispatcher a) (loader a) (ticks a) (log a ++ [e]).

(** *** The transitions of one file, each followed by [RecomputeStatus] *)

Definition set_file (t : Task) (i : nat) (f : FileItem) : Task :=
  set_Files t (<[i := f]> (Files t)).

Definition to_running (f : FileItem) (now : Z) : FileItem :=
  mkFileItem (URL f) (Filename f) FileRunning EmptyString (Attempts f)
             (MaxAttempts f) (BytesDownloaded f) (SizeHint f)
             (Some now) (FinishedAt f) (Host f).

Definition to_finished (f : FileItem) (res : result Z) (now : Z) : FileItem :=
  let n := GoInt.add (Attempts f) 1 in
  match res with
  | Err e =>
      mkFileItem (URL f) (Filename f) FileFailed e n (MaxAttempts f)
                 (BytesDownloaded f) (SizeHint f) (StartedAt f) (Some now) (Host f)
  | Ok written =>
      mkFileItem (URL f) (Filename f) FileDone EmptyString n (MaxAttempts f)
                 written (SizeHint f) (StartedAt f) (Some now) (Host f)
  end.

Definition to_pending (f : FileItem) : FileItem :=
  mkFileItem (URL f) (Filename f) FilePending EmptyString (Attempts f)
             (MaxAttempts f) (BytesDownloaded f) (SizeHint f) None None (Host f).

(** Start phase of [workerLoop] on file [i] of [t]. *)
Definition start_phase (t : Task) (i : nat) (f : FileItem) (now : Z) : Task :=
  RecomputeStatus (set_file t i (to_running f now)).

(** Completion phase. *)
Definition completion_phase (t : Task) (i : nat) (f : FileItem)
           (res : result Z) (now : Z) : Task :=
  RecomputeStatus (set_file t i (to_finished f res now)).

(** Reset before a retry. *)
Definition retry_phase (t : Task) (i : nat) (f : FileItem) : Task :=
  RecomputeStatus (set_file t i (to_pending f)).

(** The reset of [recoverFromWAL]. *)
Definition reset_running (f : FileItem) : FileItem :=
  match State f with
  | FileRunning => to_pending f
  | _ => f
  end.

Definition recover_task (t : Task) : Task :=
  RecomputeStatus (set_Files t (map reset_running (Files t))).

(** The jobs of the loop [for i, f := range t.Files] over the PENDING
    files, from index [i] on. *)
Fixpoint pending_jobs_from (id : string) (i : Z) (fs : list FileItem) : list Job :=
  match fs with
  | [] => []
  | f :: rest =>
      match State f with
      | FilePending => mkJob id i (Host f) :: pending_jobs_from id (i + 1) rest
      | _ => pending_jobs_from id (i + 1) rest
      end
  end.

Definition pending_jobs (t : Task) : list Job :=
  pending_jobs_from (ID t) 0 (Files t).

Definition enqueue (a : App) (j : Job) : App :=
  note (set_dispatcher a (send_in (dispatcher a) j)) (EvEnqueue j).

Definition enqueue_all (a : App) (js : list Job) : App :=
  fold_left enqueue js a.

Definition time_Now (world : World) (a : App) : Z * App :=
  (w_now world (ticks a), set_ticks a (S (ticks a))).


Section Run.
Variable jsonLen : Task -> Z.
Variable url_Parse : string -> option URLParts.
Variable world : World.
(** The order in which [range] visits the recovered map. *)
Variable range_order : gmap string Task -> list Task.

Definition journal (a : App) (t : Task) : App :=
  note (set_wal a (AppendTask jsonLen (wal a) t)) (EvJournal t).

Definition put_task (a : App) (key : string) (t : Task) : App :=
  set_tasks a (<[key := t]> (tasks a)).

(** [recoverFromWAL], the body of the loop for one task. *)
Definition recover_one (a : App) (t : Task) : App :=
  let t := recover_task t in
  let a := put_task a (ID t) t in
  enqueue_all a (pending_jobs t).

Definition recoverFromWAL (a : App) : result App :=
  match RecoverTasks (wal a) with
  | Err e => Err e
  | Ok m => Ok (fold_left recover_one (range_order m) a)
  end.

(** [AddTask]. *)
Definition AddTask (a : App) (t : Task) : App :=
  let a := put_task a (ID t) t in
  let a := journal a t in
  let t := if GoPath.rooted (DestDir t) then t
           else set_DestDir t (GoPath.Clean (DestDir t)) in
  let a := put_task a (ID t) t in
  enqueue_all a (pending_jobs t).

Definition loader_opts (c : Config) : Loader.Options :=
  Loader.mkOptions (ClientTimeout c) (Retries c) (HostConcurrency c).

(** The body of the loop of [workerLoop] for one job received from the
    worker channel. *)
Definition worker_job (a : App) (job : Job) : App :=
  match tasks a !! TaskID job with
  | None => a
  | Some t =>
      if (FileIndex job <? 0) || (FileIndex job >=? Z.of_nat (length (Files t)))
      then a
      else
        let i := Z.to_nat (FileIndex job) in
        match Files t !! i with
        | None => a
        | Some fi =>
            if negb (FileState_eqb (State fi) FilePending) then a
            else
              let '(now, a) := time_Now world a in
              let fi := to_running fi now in
              let t := RecomputeStatus (set_file t i fi) in
              let a := put_task a (TaskID job) t in
              let a := journal a t in
              let destDir :=
                if String.eqb (DestDir t) EmptyString
                then GoPath.Join (DownloadDir (Conf a)) (ID t)
                else DestDir t in
              let destPath :=
                uniquePath (notExist (Loader.fs (loader a)))
                           (GoPath.Join destDir (Filename fi)) in
              let a := note a (EvFetch (URL fi) destPath) in
              let '(l, res) :=
                Loader.Fetch url_Parse world (loader_opts (Conf a))
                             (URL fi) destPath (loader a) in
              let a := set_loader a l in
              let '(now2, a) := time_Now world a in
              let fi := to_finished fi res now2 in
              let t := RecomputeStatus (set_file t i fi) in
              let a := put_task a (TaskID job) t in
              let a := journal a t in
              match res with
              | Err _ =>
                  if Attempts fi <? MaxAttempts fi then
                    let fi := to_pending fi in
                    let t := RecomputeStatus (set_file t i fi) in
                    let a := put_task a (TaskID job) t in
                    let a := journal a t in
                    enqueue a (mkJob (TaskID job) (FileIndex job) (Host fi))
                  else a
              | Ok _ => a
              end
        end
  end.

(** The goroutines started by [New]: [max(1, conf.Workers)] workers. *)
Fixpoint start_workers (k : nat) (idx : Z) (a : App) : App :=
  match k with
  | O => a
  | S k' => start_workers k' (idx + 1) (note a (EvWorkerStart idx))
  end.

(** [New] on a disk [fs0] whose data directory holds the journal [w]. *)
Definition New (conf : Config) (fs0 : FS) (w : WAL) : result App :=
  match MkdirAll fs0 (DataDir conf) with
  | None => Err "mkdir data dir"
  | Some fs1 =>
      match MkdirAll fs1 (DownloadDir conf) with
      | None => Err "mkdir download dir"
      | Some fs2 =>
          let a := mkApp conf w ∅ (NewDispatcher (Z.to_nat 10000) (Z.to_nat 1024))
                         (Loader.mkSt fs2 O []) O [] in
          match recoverFromWAL a with
          | Err e => Err e
          | Ok a =>
              Ok (start_workers (Z.to_nat (GoInt.max 1 (Workers conf))) 0 a)
          end
      end
  end.

(** One step of the running system when one job is handled at a time
    (a single worker, or one job in flight): the worker takes the next
    job of the worker channel and handles it to the end; when that
    channel is empty the scheduler moves a job from the intake; when the
    intake is empty too the ticker flushes the backlog. [None]: nothing
    is left to do. Workers side by side are in [Workers] below. *)
Definition step (a : App) : option App :=
  let d := dispatcher a in
  match taskCh d with
  | job :: rest => Some (worker_job (set_dispatcher a (with_out d rest)) job)
  | [] =>
      match jobInCh d with
      | _ :: _ => Some (set_dispatcher a (sched_job d))
      | [] =>
          match backlog d with
          | _ :: _ =>
              if IsDrain d then None
              else Some (set_dispatcher a (tryFlushBacklog d))
          | [] => None
          end
      end
  end.

Fixpoint run (fuel : nat) (a : App) : App :=
  match fuel with
  | O => a
  | S k =>
      match step a with
      | Some a' => run k a'
      | None => a
      end
  end.

Definition quiescent (a : App) : Prop := step a = None.

End Run.

End AppM.

(* ------------------------------------------------------------------ *)
(** ** internal/http/api.go *)

Module HttpApi.
Import Core.

(** The query of a request, in the order of the URL. *)
Definition Query : Type := list (string * string).

(** [url.Values.Get]: the first value of the key, or the empty string. *)
Fixpoint Get (q : Query) (key : string) : string :=
  match q with
  | [] => EmptyString
  | (k, v) :: rest => if String.eqb k key then v else Get rest key
  end.

Definition digit (c : ascii) : option Z :=
  let n := Z.of_nat (nat_of_ascii c) in
  if (48 <=? n) && (n <=? 57) then Some (n - 48) else None.

Fixpoint digits (acc : Z) (s : string) : option Z :=
  match s with
  | EmptyString => Some acc
  | String c s' =>
      match digit c with
      | Some d => digits (acc * 10 + d) s'
      | None => None
      end
  end.

(** [strconv.Atoi]: an optional sign and at least one decimal digit, the
    value within [int]; [None] is its error. *)
Definition Atoi (s : string) : option Z :=
  let '(neg, ds) :=
    match s with
    | String "+" r => (false, r)
    | String "-" r => (true, r)
    | _ => (false, s)
    end in
  match ds with
  | EmptyString => None
  | _ =>
      match digits 0 ds with
      | None => None
      | Some v =>
          let n := if neg then - v else v in
          if (GoInt.min_int <=? n) && (n <=? GoInt.max_int) then Some n else None
      end
  end.

(** [positiveInt]: the value and the error. *)
Definition positiveInt (q : Query) (key : string) (def : Z) : Z * option string :=
  let s := Get q key in
  if negb (String.eqb s EmptyString) then
    match Atoi s with
    | None => (0, Some (String.append "bad int for " key))
    | Some n =>
        if n <? 0 then (0, Some (String.append "bad int for " key))
        else (n, None)
    end
  else (def, None).

(** The destination directory the handler of POST /tasks gives the task
    built by [NewTask], before it calls [AddTask]. *)
Definition place (downloadDir : string) (t : Task) : Task :=
  if String.eqb (DestDir t) EmptyString
  then set_DestDir t (GoPath.Join downloadDir (ID t))
  else set_DestDir t (GoPath.Join downloadDir (DestDir t)).

Record Reply : Type := mkReply {
  status : Z;
  body : list Task
}.

(** The branch [case http.MethodGet] of the handler of /tasks, on the
    result of [ListTasks]. The errors of [positiveInt] are dropped by the
    blank identifier. A slice expression with its bounds out of order
    panics, and [withRecover] turns the panic into a 500. *)
Definition get_tasks (q : Query) (tasks : list Task) : Reply :=
  let limit := fst (positiveInt q "limit" 100) in
  let offset := fst (positiveInt q "offset" 0) in
  let n := Z.of_nat (length tasks) in
  let offset := if offset >? n then n else offset in
  let end_ := GoInt.add offset limit in
  let end_ := if end_ >? n then n else end_ in
  if (0 <=? offset) && (offset <=? end_) && (end_ <=? n)
  then mkReply 200 (take (Z.to_nat (end_ - offset)) (drop (Z.to_nat offset) tasks))
  else mkReply 500 [].

End HttpApi.

(* ------------------------------------------------------------------ *)
(** ** internal/app/app.go: the address and the accessors *)

Module AppApi.
Import Core Store Queue Sys AppM.

(** [Config.Addr]. *)
Definition Addr (c : Config) : string :=
  match Port c with
  | EmptyString => ":8080"
  | String b _ =>
      if GoStr.eqb_byte b ":"%char then Port c else String.append ":" (Port c)
  end.

Definition SetDrain (a : App) (on : bool) : App :=
  set_dispatcher a (Drain (dispatcher a) on).

Definition IsDrain (a : App) : bool := Queue.IsDrain (dispatcher a).

(** [GetTask]: the task and the flag [ok] of the map lookup. *)
Definition GetTask (a : App) (id : string) : option Task := tasks a !! id.

Section ListTasks.
(** The order in which [range] visits the map of tasks. *)
Variable range_order : gmap string Task -> list Task.

Definition ListTasks (a : App) : list Task := range_order (tasks a).
End ListTasks.

End AppApi.

(* ------------------------------------------------------------------ *)
(** ** internal/http/api.go: the handlers of [NewRouter] *)

Module Router.
Import Core Store Queue Sys AppM AppApi HttpApi.

(** What a handler writes: the text of [http.Error] or of [w.Write], or
    the value [writeJSON] encodes. *)
Inductive Body : Type :=
| Text (s : string)
| DrainFlag (on : bool)
| NewTaskID (id : string)
| OneTask (t : Task).

Record Response : Type := mkResponse {
  code : Z;
  content : Body
}.

(** The body of POST /tasks as [json.Decode] fills it. *)
Record PostBody : Type := mkPostBody {
  Links : list string;
  PLabel : string;
  PDestDir : string
}.

(** [strings.TrimPrefix]. *)
Definition TrimPrefix (s prefix : string) : string :=
  if String.prefix prefix s then GoStr.drop (String.length prefix) s else s.

(** GET /healthz (any method). *)
Definition healthz : Response := mkResponse 200 (Text "ok").

(** /admin/drain and /admin/resume. *)
Definition admin_drain (a : App) (method : string) : App * Response :=
  if negb (String.eqb method "POST")
  then (a, mkResponse 405 (Text "POST only"))
  else (SetDrain a true, mkResponse 200 (DrainFlag true)).

Definition admin_resume (a : App) (method : string) : App * Response :=
  if negb (String.eqb method "POST")
  then (a, mkResponse 405 (Text "POST only"))
  else (SetDrain a false, mkResponse 200 (DrainFlag false)).

Section Handlers.
Variable jsonLen : Task -> Z.
Variable url_Parse : string -> option URLParts.

(** The branch [case http.MethodPost] of /tasks. [req] is the result of
    decoding the body; [id] and [now] are what [NewID] and the clock give
    [NewTask]. *)
Definition post_tasks (a : App) (id : string) (now : Z) (req : result PostBody)
  : App * Response :=
  match req with
  | Err e => (a, mkResponse 400 (Text (String.append "bad json: " e)))
  | Ok r =>
      if (length (Links r) =? 0)%nat
      then (a, mkResponse 400 (Text "links must be non-empty"))
      else
        match NewTask url_Parse id now (PLabel r) (PDestDir r) (Links r)
                      (Retries (Conf a)) with
        | Err e => (a, mkResponse 400 (Text (String.append "invalid task: " e)))
        | Ok task =>
            let task := place (DownloadDir (Conf a)) task in
            (AddTask jsonLen a task, mkResponse 200 (NewTaskID (ID task)))
        end
  end.

(** The handler of /tasks/{id}. *)
Definition task_by_id (a : App) (method path : string) : Response :=
  if negb (String.eqb method "GET")
  then mkResponse 405 (Text "method not allowed")
  else
    let id := TrimPrefix path "/tasks/" in
    if String.eqb id EmptyString || GoStr.contains_byte id "/"%char
    then mkResponse 400 (Text "bad id")
    else match GetTask a id with
         | None => mkResponse 404 (Text "not found")
         | Some t => mkResponse 200 (OneTask t)
         end.
End Handlers.

End Router.

(* ------------------------------------------------------------------ *)
(** ** internal/core/types.go: [NewID] *)

Module Ident.
Import GoStr.

(** The table of encoding/hex. *)
Definition hextable : list ascii := bytes "0123456789abcdef".

Definition hexdigit (n : nat) : ascii := nth n hextable "0"%char.

(** The digits of the high and of the low half of a byte. *)
Definition hi (b : ascii) : ascii := hexdigit (nat_of_ascii b / 16).
Definition lo (b : ascii) : ascii := hexdigit (nat_of_ascii b mod 16).

(** [hex.EncodeToString]: two digits for each byte, the high half
    first. *)
Fixpoint EncodeToString (bs : list ascii) : string :=
  match bs with
  | [] => EmptyString
  | b :: rest => String (hi b) (String (lo b) (EncodeToString rest))
  end.

(** [strings.ToLower] on bytes: the letters A to Z are mapped to a to
    z. *)
Definition lower (c : ascii) : ascii :=
  let n := nat_of_ascii c in
  if ((65 <=? n) && (n <=? 90))%nat then ascii_of_nat (n + 32) else c.

Fixpoint ToLower (s : string) : string :=
  match s with
  | EmptyString => EmptyString
  | String c s' => String (lower c) (ToLower s')
  end.

(** [NewID]: [stamp] is the clock reading formatted as
    "20060102-150405", [b] the three bytes of [rand.Read]. *)
Definition NewID (stamp : string) (b0 b1 b2 : ascii) : string :=
  String.append stamp
    (String.append "-" (ToLower (EncodeToString [b0; b1; b2]))).

End Ident.

(* ------------------------------------------------------------------ *)
(** ** internal/app/app.go: the goroutines side by side *)

Module Workers.
Import Core Queue AppM HttpApi Router.

(** Where a worker goroutine stands in the body of the loop of
    [workerLoop]. Between two critical sections of [a.mu] it holds its
    job and the pointers [t] and [fi] it read in the first one. *)
Inductive Phase : Type :=
| Waiting                              (* at [range a.dispatcher.OutChan()] *)
| Fetching (job : Job)                 (* first section left: journal, [uniquePath], [Fetch] *)
| Recorded (job : Job) (failed : bool) (* second section left: journal, then the test for a retry *)
| Resetting (job : Job)                (* the test was positive: at the third [a.mu.Lock()] *)
| Sending (job : Job).                 (* third section left: journal, then [InChan() <- job] *)

(** The map [a.tasks] with the tasks it points to, and the
    [max(1, Workers)] goroutines started by [New]. The journal, the disk
    and the dispatcher are not part of this state: no critical section
    reads them. Which job a worker receives, what [Fetch] returns and
    what the clock shows are arguments of the actions below. *)
Record Pool : Type := mkPool {
  mem : gmap string Task;
  phases : list Phase
}.

(** The pointers [t] and [fi] of a job, by the tests of the first
    critical section. Later sections use the same pointers; the map
    holds them under the id of the job, since no entry is ever removed
    or replaced ([Post] below). *)
Definition file_of (m : gmap string Task) (job : Job) : option (Task * FileItem) :=
  match m !! TaskID job with
  | None => None
  | Some t =>
      if (FileIndex job <? 0) || (FileIndex job >=? Z.of_nat (length (Files t)))
      then None
      else match Files t !! Z.to_nat (FileIndex job) with
           | Some fi => Some (t, fi)
           | None => None
           end
  end.

(** The first critical section; [None]: the job is dropped
    ([continue]). *)
Definition lock_start (m : gmap string Task) (job : Job) (now : Z)
  : option (gmap string Task) :=
  match file_of m job with
  | None => None
  | Some (t, fi) =>
      if negb (FileState_eqb (State fi) FilePending) then None
      else Some (<[TaskID job := start_phase t (Z.to_nat (FileIndex job)) fi now]> m)
  end.

(** The second critical section, on the result of [Fetch]. *)
Definition lock_finish (m : gmap string Task) (job : Job) (res : result Z) (now : Z)
  : gmap string Task :=
  match file_of m job with
  | Some (t, fi) =>
      <[TaskID job := completion_phase t (Z.to_nat (FileIndex job)) fi res now]> m
  | None => m
  end.

Definition failed (res : result Z) : bool :=
  match res with
  | Err _ => true
  | Ok _ => false
  end.

(** The test [err != nil && fi.Attempts < fi.MaxAttempts], made outside
    the critical sections. *)
Definition wants_retry (m : gmap string Task) (job : Job) (failed : bool) : bool :=
  failed &&
  match file_of m job with
  | Some (_, fi) => Attempts fi <? MaxAttempts fi
  | None => false
  end.

(** The third critical section. *)
Definition lock_reset (m : gmap string Task) (job : Job) : gmap string Task :=
  match file_of m job with
  | Some (t, fi) => <[TaskID job := retry_phase t (Z.to_nat (FileIndex job)) fi]> m
  | None => m
  end.

(** What one goroutine does to the shared memory without being
    interrupted: a critical section of worker [i], one of its
    unsynchronised steps, or a step of a handler of POST /tasks. *)
Inductive Action : Type :=
| Take (i : nat) (job : Job) (now : Z)
| Fetched (i : nat) (res : result Z) (now : Z)
| Test (i : nat)
| Reset (i : nat)
| Send (i : nat)
| Post (id : string) (now : Z) (r : PostBody)
| Tidy (id : string).

Section Exec.
Variable url_Parse : string -> option URLParts.
Variable conf : Config.

(** The effect of an action; [None] when the goroutine is not at that
    point. [Post] is the handler of POST /tasks up to the critical
    section of [AddTask] ([a.tasks[t.ID] = t]), with the identifier
    [NewID] made, which is taken not to be in use; [Tidy] is the
    assignment [t.DestDir = filepath.Clean(t.DestDir)] that [AddTask]
    makes later, outside the lock; it is allowed at any time and for any
    task, which adds schedules the program does not have. *)
Definition exec (act : Action) (p : Pool) : option Pool :=
  match act with
  | Take i job now =>
      match phases p !! i with
      | Some Waiting =>
          match lock_start (mem p) job now with
          | Some m => Some (mkPool m (<[i := Fetching job]> (phases p)))
          | None => Some p
          end
      | _ => None
      end
  | Fetched i res now =>
      match phases p !! i with
      | Some (Fetching job) =>
          Some (mkPool (lock_finish (mem p) job res now)
                       (<[i := Recorded job (failed res)]> (phases p)))
      | _ => None
      end
  | Test i =>
      match phases p !! i with
      | Some (Recorded job failed) =>
          Some (mkPool (mem p)
                       (<[i := if wants_retry (mem p) job failed
                               then Resetting job else Waiting]> (phases p)))
      | _ => None
      end
  | Reset i =>
      match phases p !! i with
      | Some (Resetting job) =>
          Some (mkPool (lock_reset (mem p) job) (<[i := Sending job]> (phases p)))
      | _ => None
      end
  | Send i =>
      match phases p !! i with
      | Some (Sending job) => Some (mkPool (mem p) (<[i := Waiting]> (phases p)))
      | _ => None
      end
  | Post id now r =>
      if (length (Links r) =? 0)%nat then None
      else
        match NewTask url_Parse id now (PLabel r) (PDestDir r) (Links r)
                      (Retries conf) with
        | Err _ => None
        | Ok task =>
            let task := place (DownloadDir conf) task in
            match mem p !! ID task with
            | None => Some (mkPool (<[ID task := task]> (mem p)) (phases p))
            | Some _ => None
            end
        end
  | Tidy id =>
      match mem p !! id with
      | Some t =>
          if GoPath.rooted (DestDir t) then Some p
          else Some (mkPool (<[id := set_DestDir t (GoPath.Clean (DestDir t))]> (mem p))
                            (phases p))
      | None => None
      end
  end.

(** The memory and the workers when [New] has returned. *)
Definition start (a : App) : Pool :=
  mkPool (tasks a)
         (replicate (Z.to_nat (GoInt.max 1 (Workers (Conf a)))) Waiting).

(** A schedule: the actions of all goroutines in the order in which
    they take effect. *)
Fixpoint execs (acts : list Action) (p : Pool) : option Pool :=
  match acts with
  | [] => Some p
  | act :: rest =>
      match exec act p with
      | Some p' => execs rest p'
      | None => None
      end
  end.
End Exec.

End Workers.

(* ================================================================== *)
(** * The vocabulary of the statements *)

(* ------------------------------------------------------------------ *)
(** ** Filename sanitization *)

Module SanitizeTerms.
Import GoStr Core.

(** The bytes the replacer rewrites or deletes. *)
Definition forbidden : list ascii :=
  [ ":"%char; "/"%char; c_backslash; "*"%char; "?"%char; c_quote;
    "<"%char; ">"%char; "|"%char; c_lf; c_cr ].

Definition is_forbidden (c : ascii) : bool := existsb (eqb_byte c) forbidden.

Definition clean_string (s : string) : bool :=
  forallb (fun c => negb (is_forbidden c)) (bytes s).

End SanitizeTerms.

(* ------------------------------------------------------------------ *)
(** ** Unique destination paths *)

Module UniquePathTerms.
Import GoStr AppM.

Definition itoa_agrees (n : nat) : bool :=
  String.eqb (itoa (Z.of_nat n)) (fmt_d (Z.of_nat n)).

(** The part of [base] before its extension. *)
Definition stem (base : string) : string :=
  take (String.length base - String.length (GoPath.Ext base)) base.

(** The path "name-i.ext" with [i] as a decimal numeral. *)
Definition numbered (base : string) (i : Z) : string :=
  String.append (stem base)
    (String.append "-" (String.append (fmt_d i) (GoPath.Ext base))).

(** A disk on which d/a.bin and d/a-1.bin exist. *)
Definition two_taken (p : string) : bool :=
  negb (String.eqb p "d/a.bin" || String.eqb p "d/a-1.bin").

End UniquePathTerms.

(* ------------------------------------------------------------------ *)
(** ** The journal *)

Module StoreTerms.
Import Core Store.

(** The snapshot written last for [id] in a sequence of snapshots. *)
Definition last_for (id : string) (ts : list Task) : option Task :=
  last (filter (fun t => ID t = id) ts).

Definition upsert (m : gmap string Task) (t : Task) : gmap string Task :=
  <[ID t := t]> m.

Section Appended.
Variable jsonLen : Task -> Z.

(** The line [AppendTask] writes for a task. *)
Definition line_of (t : Task) : walLine :=
  mkLine (jsonLen t) (Some (json_record (mkRecord "upsert_task" (Some t)))).
End Appended.

(** [utf8.ValidString]: the string is a sequence of UTF-8 encodings;
    [skip] bytes of the encoding under way are still to come. *)
Fixpoint valid_from (skip : nat) (s : string) : bool :=
  match s with
  | EmptyString => true
  | String c r =>
      match skip with
      | S k => valid_from k r
      | O =>
          match GoJson.rune_width s with
          | Some w => valid_from (w - 1) r
          | None => false
          end
      end
  end.

Definition ValidString (s : string) : bool := valid_from 0 s.

(** Every string of the file, of the task, is valid UTF-8. *)
Definition utf8_file (f : FileItem) : Prop :=
  ValidString (URL f) = true /\ ValidString (Filename f) = true /\
  ValidString (Error f) = true /\ ValidString (Host f) = true.

Definition utf8_task (t : Task) : Prop :=
  ValidString (ID t) = true /\ ValidString (Label t) = true /\
  ValidString (DestDir t) = true /\ Forall utf8_file (Files t).

(** The keys of a recovered map are the identifiers of its tasks. *)
Definition keyed (m : gmap string Task) : Prop :=
  forall id t, m !! id = Some t -> ID t = id.

Definition snap (id label : string) : Task :=
  mkTask id label 0 "d" TaskPending [] 0 0 0 0 0 0.

(** The task of one file named by the bytes FF 2E 62 69 6E, as the link
    http://h/%ff.bin gives it, and the same task with EF BF BD in place
    of FF. *)
Definition odd_file (name : string) : FileItem :=
  mkFileItem "http://h/%ff.bin" name FilePending EmptyString 0 3 0 0 None None "h".

Definition odd_name : Task :=
  mkTask "a" "1" 0 "d" TaskPending
         [odd_file (String (ascii_of_N 255) ".bin")] 1 0 0 1 0 0.

Definition odd_name_read : Task :=
  mkTask "a" "1" 0 "d" TaskPending
         [odd_file (String.append GoJson.ufffd ".bin")] 1 0 0 1 0 0.

End StoreTerms.

(* ------------------------------------------------------------------ *)
(** ** Aggregates and derived status *)

Module StatusTerms.
Import Core AppM.

#[export] Instance FileState_eq_dec : EqDecision FileState.
Proof. solve_decision. Defined.

(** The number of files of a task in a state. *)
Definition count_state (st : FileState) (fs : list FileItem) : Z :=
  Z.of_nat (length (filter (fun f => State f = st) fs)).

Definition all_in (st : FileState) (t : Task) : Prop :=
  Forall (fun f => State f = st) (Files t).

Definition some_in (st : FileState) (t : Task) : Prop :=
  Exists (fun f => State f = st) (Files t).

(** Invariant 1: the aggregates are the census of the files. *)
Definition census_ok (t : Task) : Prop :=
  Total t = Z.of_nat (length (Files t)) /\
  Done t = count_state FileDone (Files t) /\
  Failed t = count_state FileFailed (Files t) /\
  Pending t = count_state FilePending (Files t) /\
  Running t = count_state FileRunning (Files t) /\
  Done t + Failed t + Pending t + Running t = Total t.

Definition partial_condition (t : Task) : Prop :=
  Done t > 0 /\ Failed t > 0 /\ Pending t = 0 /\ Running t = 0.

(** Invariant 2: the status is derived by the rule. *)
Definition status_ok (t : Task) : Prop :=
  (all_in FileDone t -> Status t = TaskComplete) /\
  (all_in FileFailed t -> Status t = TaskFailed) /\
  (some_in FileRunning t -> Status t = TaskRunning) /\
  (partial_condition t -> Status t = TaskPartial) /\
  (~ all_in FileDone t -> ~ all_in FileFailed t -> ~ some_in FileRunning t ->
   ~ partial_condition t -> Status t = TaskPending).

Section Reach.
Variable url_Parse : string -> option URLParts.

(** The tasks the coordinator can hold: built by [NewTask] and changed
    by the phases of the worker and by recovery. *)
Inductive reachable : Task -> Prop :=
| reach_new id now label destDir links maxAttempts t :
    NewTask url_Parse id now label destDir links maxAttempts = Ok t ->
    reachable t
| reach_start t i f now :
    reachable t -> reachable (start_phase t i f now)
| reach_complete t i f res now :
    reachable t -> reachable (completion_phase t i f res now)
| reach_retry t i f :
    reachable t -> reachable (retry_phase t i f)
| reach_recover t :
    reachable t -> reachable (recover_task t).
End Reach.

(** A parser for the witness: every link is "http://h/a.bin". *)
Definition parse_stub (link : string) : option URLParts :=
  Some (mkURL "http" "h" "/a.bin").

Definition task0 : Task :=
  RecomputeStatus
    (mkTask "id" "x" 0 "t1" TaskPending
       [mkFileItem "http://h/a.bin" "a.bin" FilePending EmptyString 0 3 0 0
                   None None "h"] 0 0 0 0 0 0).

Definition file0 : FileItem :=
  mkFileItem "http://h/a.bin" "a.bin" FilePending EmptyString 0 3 0 0 None None "h".

End StatusTerms.

(* ------------------------------------------------------------------ *)
(** ** Worlds, configurations and runs of the scenarios *)

Module Scenario.
Import Core Store Queue Sys AppM.

Definition conf3 : Config :=
  mkConfig "8080" "./data" "./downloads" 4 2 60000000000 3 20000000000.

Definition parse_fake (link : string) : option URLParts :=
  Some (mkURL "http" "fake" "/a.bin").

Definition jsonLen0 (t : Task) : Z := 300.

Definition in_order (m : gmap string Task) : list Task := (map_to_list m).*2.

(** A server that answers 404 to every request. *)
Definition not_found : World :=
  mkWorld (fun _ _ => plain (Response 404 0 None)) (fun n => Z.of_nat n).


(** A server that cannot be reached. *)
Definition unreachable : World :=
  mkWorld (fun _ _ => plain (TransportError "connection refused")) (fun n => Z.of_nat n).

(** A server that answers 500 to every request. *)
Definition failing : World :=
  mkWorld (fun _ _ => plain (Response 500 0 None)) (fun n => Z.of_nat n).

(** The application after POST /tasks with one link. *)
Definition submitted (world : World) (conf : Config) : result App :=
  match New in_order conf ∅ OpenWAL_fresh with
  | Err e => Err e
  | Ok a =>
      match NewTask parse_fake "20250929-101530-abcdef" 0 "x" "t1"
                    ["http://fake/a.bin"] (Retries conf) with
      | Err e => Err e
      | Ok t => Ok (AddTask jsonLen0 a (HttpApi.place (DownloadDir conf) t))
      end
  end.

Definition finished (world : World) (conf : Config) (fuel : nat) : result App :=
  match submitted world conf with
  | Err e => Err e
  | Ok a => Ok (run jsonLen0 parse_fake world fuel a)
  end.

End Scenario.

(* ------------------------------------------------------------------ *)
(** ** Calls of the fetcher *)

Module LoaderTerms.
Import Core Sys Loader Scenario.

Definition st0 : St := mkSt ∅ O [].

Definition once : Options := mkOptions 60000000000 1 2.
Definition thrice : Options := mkOptions 60000000000 3 2.

Definition run1 := Fetch parse_fake unreachable once "http://fake/a.bin" "downloads/t1/a.bin" st0.
Definition run3 := Fetch parse_fake unreachable thrice "http://fake/a.bin" "downloads/t1/a.bin" st0.

Definition run500 :=
  Fetch parse_fake failing once "http://fake/a.bin" "downloads/t1/a.bin" st0.

Definition is_remove (e : Event) : bool :=
  match e with
  | EvRemove _ => true
  | _ => false
  end.

End LoaderTerms.

(* ------------------------------------------------------------------ *)
(** ** The states of the worker on one job *)

Module WorkerTerms.
Import Core Store Queue Sys AppM.

Section Worker.
Variable jsonLen : Task -> Z.
Variable world : World.

(** The destination [workerLoop] hands to [Fetch] for file [fi] of [t]. *)
Definition dest_of (a : App) (t : Task) (fi : FileItem) : string :=
  let destDir :=
    if String.eqb (DestDir t) EmptyString
    then GoPath.Join (DownloadDir (Conf a)) (ID t)
    else DestDir t in
  uniquePath (notExist (Loader.fs (loader a))) (GoPath.Join destDir (Filename fi)).

(** The state after the start phase and its journal entry. *)
Definition started (a : App) (job : Job) (t : Task) (fi : FileItem) : App :=
  let i := Z.to_nat (FileIndex job) in
  let t1 := start_phase t i fi (w_now world (ticks a)) in
  journal jsonLen (put_task (set_ticks a (S (ticks a))) (TaskID job) t1) t1.

(** The state after the completion phase and its journal entry. *)
Definition completed (a : App) (job : Job) (t : Task) (fi : FileItem)
           (l : Loader.St) (res : result Z) : App :=
  let i := Z.to_nat (FileIndex job) in
  let now := w_now world (ticks a) in
  let fi1 := to_running fi now in
  let t1 := start_phase t i fi now in
  let a2 := note (started a job t fi) (EvFetch (URL fi) (dest_of a t1 fi)) in
  let t2 := completion_phase t1 i fi1 res (w_now world (S (ticks a))) in
  journal jsonLen
    (put_task (set_ticks (set_loader a2 l) (S (S (ticks a)))) (TaskID job) t2) t2.

(** The state after the reset for a retry, its journal entry and the
    re-enqueue. *)
Definition retried (a : App) (job : Job) (t : Task) (fi : FileItem)
           (l : Loader.St) (res : result Z) : App :=
  let i := Z.to_nat (FileIndex job) in
  let now := w_now world (ticks a) in
  let fi1 := to_running fi now in
  let t1 := start_phase t i fi now in
  let fi2 := to_finished fi1 res (w_now world (S (ticks a))) in
  let t2 := completion_phase t1 i fi1 res (w_now world (S (ticks a))) in
  let t3 := retry_phase t2 i fi2 in
  let a3 := completed a job t fi l res in
  enqueue (journal jsonLen (put_task a3 (TaskID job) t3) t3)
          (mkJob (TaskID job) (FileIndex job) (Host fi)).
End Worker.

End WorkerTerms.

(* ------------------------------------------------------------------ *)
(** ** A task of one file *)

Module OneFile.
Import Core Store Queue Sys AppM Scenario.

Definition conf_with (m : Z) : Config :=
  mkConfig "8080" "./data" "./downloads" 4 2 60000000000 m 20000000000.

Definition id0 : string := "20250929-101530-abcdef".
Definition url0 : string := "http://fake/a.bin".
Definition dir0 : string := "downloads/t1".
Definition dest0 : string := "downloads/t1/a.bin".
Definition job0 : Job := mkJob id0 0 "fake".

(** The file of the task with [k] attempts made, out of [m]. *)
Definition file_in (st : FileState) (err : string) (k m : Z)
           (started finished : option Z) : FileItem :=
  mkFileItem url0 "a.bin" st err k m 0 0 started finished "fake".

Definition task_of (f : FileItem) : Task :=
  RecomputeStatus (mkTask id0 "x" 0 dir0 TaskPending [f] 0 0 0 0 0 0).

Definition disp (inq outq : list Job) : Dispatcher :=
  mkDispatcher inq (Z.to_nat 10000) outq (Z.to_nat 1024) [] false false false.

Definition is_enqueue (e : Event) : bool :=
  match e with EvEnqueue _ => true | _ => false end.
Definition is_fetch (e : Event) : bool :=
  match e with EvFetch _ _ => true | _ => false end.
Definition count (p : Event -> bool) (l : list Event) : nat :=
  length (List.filter p l).

(** The disk holds directories only. (The journal is kept apart, in
    [wal].) *)
Definition no_file (fs : FS) : Prop :=
  forall p n, fs !! p <> Some (File n).

(** The disk is ready for the download: it holds no file, nothing is at
    the destination, and the destination directory can be made. *)
Definition disk_ready (fs : FS) : Prop :=
  fs !! dest0 = None /\ no_file fs /\
  exists fs1, MkdirAll fs dir0 = Some fs1 /\ fs1 !! dir0 = Some Dir /\
              fs1 !! dest0 = None /\ no_file fs1.

Record waiting (m : Z) (n : nat) (d : Dispatcher) (a : App) : Prop := {
  w_conf : Conf a = conf_with m;
  w_task : tasks a !! id0 = Some (task_of (file_in FilePending EmptyString (Z.of_nat n) m None None));
  w_disp : dispatcher a = d;
  w_disk : disk_ready (Loader.fs (loader a));
  w_reqs : Loader.reqs (loader a) = n;
  w_enq : count is_enqueue (log a) = S n;
  w_fetch : count is_fetch (log a) = n
}.

Definition fs_init : FS :=
  <["./downloads" := Dir]> (<["./data" := Dir]> (<["." := Dir]> ∅)).

Definition fs_made : FS :=
  <[dir0 := Dir]> (<["downloads" := Dir]> fs_init).

(** The application once POST /tasks has returned. *)
Definition app0 (m : Z) : App :=
  let t := task_of (file_in FilePending EmptyString 0 m None None) in
  mkApp (conf_with m) (mkWAL [mkLine 300 (Some (mkRecord "upsert_task" (Some t)))])
        {[ id0 := t ]} (disp [job0] []) (Loader.mkSt fs_init O []) O
        [EvWorkerStart 0; EvWorkerStart 1; EvWorkerStart 2; EvWorkerStart 3;
         EvJournal t; EvEnqueue job0].

Definition tmp0 : string := "downloads/t1/a.bin.part".

Section Ended.
Variable m : Z.

(** The end of the scenario: nothing is queued, the file is FAILED with
    [n] attempts, the task is FAILED, [n] requests were made in [n]
    calls of [Fetch], the job was put on the intake [n] times, and no
    file is on the disk: nothing at the destination, nothing at the
    staging path, and no regular file anywhere else. *)
Record ended (n : nat) (c : App) : Prop := {
  e_quiet : quiescent jsonLen0 parse_fake not_found c;
  e_disk : Loader.fs (loader c) !! dest0 = None /\
           Loader.fs (loader c) !! tmp0 = None /\
           no_file (Loader.fs (loader c));
  e_task : exists t f,
      tasks c !! id0 = Some t /\ Files t = [f] /\
      State f = FileFailed /\ Error f = "http 404" /\
      Attempts f = Z.of_nat n /\ MaxAttempts f = m /\
      Status t = TaskFailed;
  e_reqs : Loader.reqs (loader c) = n;
  e_enq : count is_enqueue (log c) = n;
  e_fetch : count is_fetch (log c) = n
}.
End Ended.



End OneFile.

(* ------------------------------------------------------------------ *)
(** ** Recovery at startup *)

Module RecoveryTerms.
Import Core Store Queue Sys AppM StatusTerms.

Definition register (m : gmap string Task) (t : Task) : gmap string Task :=
  <[ID t := recover_task t]> m.

(** The jobs enqueued for the tasks of [l], in order. *)
Definition jobs_of (l : list Task) : list Job :=
  flat_map (fun t => pending_jobs (recover_task t)) l.

Definition worker_ids (k : nat) (i0 : Z) : list Z :=
  (fun n => i0 + Z.of_nat n) <$> seq 0 k.

(** What recovery does to one file: a RUNNING file becomes PENDING with
    its error and both timestamps cleared and everything else kept; any
    other file is left as it is. *)
Definition was_reset (f0 f : FileItem) : Prop :=
  match State f0 with
  | FileRunning =>
      State f = FilePending /\ Error f = EmptyString /\
      StartedAt f = None /\ FinishedAt f = None /\
      URL f = URL f0 /\ Filename f = Filename f0 /\ Host f = Host f0 /\
      Attempts f = Attempts f0 /\ MaxAttempts f = MaxAttempts f0 /\
      BytesDownloaded f = BytesDownloaded f0 /\ SizeHint f = SizeHint f0
  | _ => f = f0
  end.

(** What holds of every recovered task. *)
Definition recovered_from (t0 t : Task) : Prop :=
  ID t = ID t0 /\ Label t = Label t0 /\ CreatedAt t = CreatedAt t0 /\
  DestDir t = DestDir t0 /\
  Forall2 was_reset (Files t0) (Files t) /\
  census_ok t /\ (Files t0 <> [] -> status_ok t).

(** A journal of two tasks: T1 with its file DONE, T2 with one file
    RUNNING and one PENDING. *)
Definition T1 : Task :=
  RecomputeStatus
    (mkTask "T1" "x" 0 "downloads/t1" TaskPending
       [mkFileItem "http://fake/a.bin" "a.bin" FileDone EmptyString 1 3 7 0
                   (Some 1) (Some 2) "fake"] 0 0 0 0 0 0).

Definition T2 : Task :=
  RecomputeStatus
    (mkTask "T2" "y" 5 "downloads/t2" TaskPending
       [mkFileItem "http://fake/b.bin" "b.bin" FileRunning EmptyString 0 3 0 0
                   (Some 6) None "fake";
        mkFileItem "http://fake/c.bin" "c.bin" FilePending EmptyString 0 3 0 0
                   None None "fake"] 0 0 0 0 0 0).

Definition journal4 : WAL := AppendTasks Scenario.jsonLen0 OpenWAL_fresh [T1; T2].

Definition recovered4 : gmap string Task := <["T2" := T2]> (<["T1" := T1]> ∅).

Definition disk1 : gmap string node := <["./data" := Dir]> (<["." := Dir]> ∅).
Definition disk2 : gmap string node := <["./downloads" := Dir]> disk1.

End RecoveryTerms.

(* ------------------------------------------------------------------ *)
(** ** Task construction and the aggregates, in full *)

Module TaskTerms.
Import Core StatusTerms SanitizeTerms.

(** The sum of the attempts of the files, as a mathematical integer. *)
Definition attempts_total (fs : list FileItem) : Z :=
  foldr (fun f s => Attempts f + s) 0 fs.

Section Links.
Variable url_Parse : string -> option URLParts.

(** A link [NewTask] accepts: it parses, with a scheme and a host. *)
Definition valid_link (link : string) : Prop :=
  exists u, url_Parse link = Some u /\
            Scheme u <> EmptyString /\ UHost u <> EmptyString.

(** The file [NewTask] makes for a link. *)
Definition fresh_file (maxAttempts : Z) (link : string) (f : FileItem) : Prop :=
  URL f = link /\ State f = FilePending /\ Error f = EmptyString /\
  Attempts f = 0 /\ MaxAttempts f = maxAttempts /\ BytesDownloaded f = 0 /\
  StartedAt f = None /\ FinishedAt f = None /\
  clean_string (Filename f) = true /\
  exists u, url_Parse link = Some u /\ Host f = UHost u.
End Links.

(** A parser for the examples: "http://h/<name>" has host h and path
    /<name>; anything else does not parse. *)
Definition parse_h (link : string) : option URLParts :=
  if String.prefix "http://h/" link
  then Some (mkURL "http" "h" (GoStr.drop 8 link))
  else None.

End TaskTerms.

(* ------------------------------------------------------------------ *)
(** ** Journals with arbitrary lines *)

Module JournalTerms.
Import Core Store StoreTerms.

(** The snapshot a line contributes to recovery, if any. *)
Definition snapshot (l : walLine) : option Task :=
  match line_json l with
  | Some rec => if String.eqb (Type_ rec) "upsert_task" then RTask rec else None
  | None => None
  end.

Definition snapshots (ls : list walLine) : list Task := omap snapshot ls.

(** A line that does not parse, as a crash in the middle of a write
    leaves it. *)
Definition torn : walLine := mkLine 17 None.

(** A record of another type. *)
Definition foreign : walLine := mkLine 20 (Some (mkRecord "delete_task" None)).

Definition mixed_journal : WAL :=
  mkWAL [ line_of (fun _ => 300) (snap "a" "1"); torn;
          line_of (fun _ => 300) (snap "b" "2"); foreign;
          line_of (fun _ => 300) (snap "a" "3"); torn ].

(** A journal with one line of exactly the token limit. *)
Definition oversized : WAL :=
  mkWAL [ line_of (fun _ => 300) (snap "a" "1");
          line_of (fun _ => maxTokenSize) (snap "b" "2") ].

End JournalTerms.

(* ------------------------------------------------------------------ *)
(** ** The dispatcher *)

Module QueueTerms.
Import Queue.

(** How many jobs of the backlog the worker channel can take. *)
Definition room (d : Dispatcher) : nat :=
  Nat.min (length (backlog d)) (workerBuffer d - length (taskCh d)).

Definition j1 : Job := mkJob "T" 0 "h".
Definition j2 : Job := mkJob "T" 1 "h".
Definition j3 : Job := mkJob "T" 2 "h".

(** A dispatcher whose worker channel of capacity 2 holds one job, with
    two jobs in the backlog. *)
Definition crowded : Dispatcher :=
  mkDispatcher [] 4 [j1] 2 [j2; j3] false false false.

End QueueTerms.

(* ------------------------------------------------------------------ *)
(** ** Lengths of paths *)

Module PathTerms.


End PathTerms.

(* ------------------------------------------------------------------ *)
(** ** Waits and outcomes of the fetcher *)

Module FetchTerms.
Import Core Sys Loader.



(** An outcome after which [Fetch] waits and tries again: no response, a
    5xx status, or a 2xx response whose body could not be copied. *)
Definition retriable (h : HttpOutcome) : bool :=
  match h with
  | TransportError _ => true
  | Response status _ copyErr =>
      if (status <? 200) || (status >=? 300)
      then (status >=? 500) && (status <? 600)
      else match copyErr with Some _ => true | None => false end
  end.

(** A server that answers 503 until the context is cancelled during the
    first wait. *)
Definition cancelled : World :=
  mkWorld (fun _ _ => mkAttempt None None None (Response 503 0 None) None None true)
          (fun n => Z.of_nat n).

(** A server that answers 200 with 7 bytes. *)
Definition serving : World :=
  mkWorld (fun _ _ => plain (Response 200 7 None)) (fun n => Z.of_nat n).

End FetchTerms.

(* ------------------------------------------------------------------ *)
(** ** Jobs the worker acts on, and the bound on attempts *)

Module AttemptTerms.
Import Core Store Queue Sys AppM.

(** The task and the file a job designates, when [workerLoop] acts on
    it: the task is known, the index is within its files, and the file is
    PENDING. *)
Definition target (a : App) (job : Job) : option (Task * FileItem) :=
  match tasks a !! TaskID job with
  | None => None
  | Some t =>
      if (FileIndex job <? 0) || (FileIndex job >=? Z.of_nat (length (Files t)))
      then None
      else match Files t !! Z.to_nat (FileIndex job) with
           | Some fi =>
               if FileState_eqb (State fi) FilePending then Some (t, fi) else None
           | None => None
           end
  end.

(** The attempts of a file are within its limit: a file that is waiting
    or being fetched has attempts left (or none made), a finished file
    has made at most max(1, max_attempts). *)
Definition attempts_ok (f : FileItem) : Prop :=
  GoInt.in_range (MaxAttempts f) /\ 0 <= Attempts f /\
  match State f with
  | FilePending | FileRunning => Attempts f = 0 \/ Attempts f < MaxAttempts f
  | FileDone | FileFailed => Attempts f <= GoInt.max 1 (MaxAttempts f)
  end.

Definition bounded (m : gmap string Task) : Prop :=
  forall id t, m !! id = Some t -> Forall attempts_ok (Files t).

End AttemptTerms.

(* ------------------------------------------------------------------ *)
(** ** Decimal numerals *)

Module NumeralTerms.

(** The digits [itoa] writes for a positive [n], most significant first,
    computed with the operations of its loop. *)
Fixpoint digs (fuel : nat) (n : Z) : list ascii :=
  match fuel with
  | O => []
  | S k =>
      if n >? 0
      then digs k (Z.quot n 10) ++ [ascii_of_nat (Z.to_nat (48 + Z.rem n 10))]
      else []
  end.

End NumeralTerms.

(* ------------------------------------------------------------------ *)
(** ** The handlers *)

Module RouterTerms.
Import Core Store Queue Sys AppM AppApi HttpApi Router.

(** The task [AddTask] keeps in memory: the destination directory of a
    relative path is cleaned. *)
Definition kept (t : Task) : Task :=
  if GoPath.rooted (DestDir t) then t
  else set_DestDir t (GoPath.Clean (DestDir t)).

(** An identifier that can be looked up through /tasks/{id}. *)
Definition addressable (id : string) : Prop :=
  id <> EmptyString /\ GoStr.contains_byte id "/"%char = false.

Definition two_links : PostBody :=
  mkPostBody ["http://h/a.bin"; "http://h/b.bin"] "x" "t1".

(** The application of one file after POST /admin/drain. *)
Definition drained : App := fst (admin_drain (OneFile.app0 3) "POST").

End RouterTerms.

(* ------------------------------------------------------------------ *)
(** ** Path elements and identifiers *)

Module PlaceTerms.
Import GoStr GoPath.

(** A single path element that names something: no separator, and
    neither empty nor "." nor "..". *)
Definition plain_name (s : string) : Prop :=
  contains_byte s sep = false /\
  s <> EmptyString /\ s <> "." /\ s <> "..".

(** A task submitted with dest_dir "../x". *)
Definition wandering : Core.Task :=
  Core.mkTask "a" "1" 0 "../x" Core.TaskPending [] 0 0 0 0 0 0.

(** The lowercase hexadecimal digits. *)
Definition is_hex (c : ascii) : bool :=
  existsb (eqb_byte c) (bytes "0123456789abcdef").

(** The position of a digit in the table. *)
Definition unhex (c : ascii) : nat :=
  match List.find (fun p => eqb_byte c (snd p))
                  (combine (seq 0 16) (bytes "0123456789abcdef")) with
  | Some p => fst p
  | None => O
  end.

End PlaceTerms.

(* ------------------------------------------------------------------ *)
(** ** Workers side by side *)

Module WorkersTerms.
Import Core Queue AppM Workers AttemptTerms.

(** Every worker is waiting for a job, as when [New] returns. *)
Definition idle (p : Pool) : Prop := Forall (fun ph => ph = Waiting) (phases p).

(** The file a job is about. *)
Definition key (j : Job) : string * Z := (TaskID j, FileIndex j).

(** The job whose file a worker has in hand: from the first critical
    section until the file is finished or reset. *)
Definition owned (ph : Phase) : option Job :=
  match ph with
  | Fetching j | Recorded j _ | Resetting j => Some j
  | Waiting | Sending _ => None
  end.

(** What the memory holds for the file of a worker in a phase. *)
Definition phase_ok (m : gmap string Task) (ph : Phase) : Prop :=
  match ph with
  | Waiting | Sending _ => True
  | Fetching j =>
      exists t f, file_of m j = Some (t, f) /\ State f = FileRunning
  | Recorded j failed =>
      exists t f, file_of m j = Some (t, f) /\
                  State f = (if failed then FileFailed else FileDone)
  | Resetting j =>
      exists t f, file_of m j = Some (t, f) /\ State f = FileFailed /\
                  Attempts f < MaxAttempts f
  end.

(** No two workers have the same file in hand. *)
Definition exclusive (phs : list Phase) : Prop :=
  forall i i' ph ph' j j',
    i <> i' -> phs !! i = Some ph -> phs !! i' = Some ph' ->
    owned ph = Some j -> owned ph' = Some j' -> key j <> key j'.

Record inv (p : Pool) : Prop := {
  inv_phase : forall i ph, phases p !! i = Some ph -> phase_ok (mem p) ph;
  inv_excl : exclusive (phases p)
}.

(** No file is RUNNING, as after [recoverFromWAL]. *)
Definition none_running (m : gmap string Task) : Prop :=
  forall id t, m !! id = Some t -> Forall (fun f => State f <> FileRunning) (Files t).

(** Every RUNNING file is the file of a worker that is in [Fetch]. *)
Definition tracked (p : Pool) : Prop :=
  forall id t k f,
    mem p !! id = Some t -> Files t !! k = Some f -> State f = FileRunning ->
    exists i j, phases p !! i = Some (Fetching j) /\
                TaskID j = id /\ FileIndex j = Z.of_nat k.

(** The three critical sections write one file of one task. *)
Definition upd (m : gmap string Task) (job : Job) (g : FileItem -> FileItem)
  : gmap string Task :=
  match file_of m job with
  | Some (t, fi) =>
      <[TaskID job := RecomputeStatus (set_file t (Z.to_nat (FileIndex job)) (g fi))]> m
  | None => m
  end.

(** The file of [j] is in [m'] what it is in [m]. *)
Definition keeps (m m' : gmap string Task) (j : Job) : Prop :=
  forall t f, file_of m j = Some (t, f) -> exists t', file_of m' j = Some (t', f).

(** The four workers and the task of one file, with three attempts
    allowed, once POST /tasks has returned; the job of the file arrives
    twice. Worker 0 takes it, worker 1 drops its copy, the download
    fails, worker 0 resets the file and sends the job again, and worker
    1 takes it. *)
Definition four_workers : Pool := start (OneFile.app0 3).

Definition schedule : list Action :=
  [ Take 0 OneFile.job0 1; Take 1 OneFile.job0 2;
    Fetched 0 (Err "http 500") 3; Test 0; Reset 0; Send 0;
    Take 1 OneFile.job0 4 ].

(** The state the schedule leads to: worker 1 is in [Fetch] for the
    second attempt. *)
Definition after_schedule : Pool :=
  mkPool {[ OneFile.id0 := OneFile.task_of
                             (OneFile.file_in FileRunning EmptyString 1 3 (Some 4) None) ]}
         [Waiting; Fetching OneFile.job0; Waiting; Waiting].

End WorkersTerms.

(* ================================================================== *)
(** * Properties *)

(* ------------------------------------------------------------------ *)
(** ** Boolean comparisons on [Z] *)

Lemma gtb_false (a b : Z) : a <= b -> (a >? b) = false.
Proof. intros H. rewrite Z.gtb_ltb. now apply Z.ltb_ge. Qed.

Lemma gtb_true (a b : Z) : b < a -> (a >? b) = true.
Proof. intros H. rewrite Z.gtb_ltb. now apply Z.ltb_lt. Qed.

Lemma geb_false (a b : Z) : a < b -> (a >=? b) = false.
Proof. intros H. rewrite Z.geb_leb. now apply Z.leb_gt. Qed.

Lemma geb_true (a b : Z) : b <= a -> (a >=? b) = true.
Proof. intros H. rewrite Z.geb_leb. now apply Z.leb_le. Qed.

Lemma leb_true (a b : Z) : a <= b -> (a <=? b) = true.
Proof. apply Z.leb_le. Qed.

Lemma ltb_false (a b : Z) : b <= a -> (a <? b) = false.
Proof. apply Z.ltb_ge. Qed.

Lemma ltb_true (a b : Z) : a < b -> (a <? b) = true.
Proof. apply Z.ltb_lt. Qed.

(* ------------------------------------------------------------------ *)
(** ** Filename sanitization *)

Module SanitizeFacts.
Import GoStr Core SanitizeTerms.

Lemma bytes_append (a b : string) : bytes (String.append a b) = bytes a ++ bytes b.
Proof. induction a as [|c a IH]; simpl; [reflexivity | now rewrite <- IH]. Qed.

Lemma replace_byte_clean (c : ascii) :
  clean_string (replace_byte sanitize_table c) = true.
Proof.
  destruct c as [[] [] [] [] [] [] [] []]; vm_compute; reflexivity.
Qed.

Lemma replace_byte_fixed (c : ascii) :
  is_forbidden c = false -> replace_byte sanitize_table c = single c.
Proof.
  destruct c as [[] [] [] [] [] [] [] []]; vm_compute; intros H;
    first [reflexivity | discriminate H].
Qed.

Lemma Replace_clean (s : string) : clean_string (Replace sanitize_table s) = true.
Proof.
  induction s as [|c s IH]; simpl; [reflexivity|].
  unfold clean_string in *. rewrite bytes_append, forallb_app, IH, andb_true_r.
  apply replace_byte_clean.
Qed.

Lemma Replace_fixed (s : string) :
  clean_string s = true -> Replace sanitize_table s = s.
Proof.
  induction s as [|c s IH]; simpl; [reflexivity|].
  unfold clean_string; simpl. intros H. apply andb_prop in H as [Hc Hs].
  rewrite replace_byte_fixed by (now apply negb_true_iff).
  simpl. f_equal. now apply IH.
Qed.

Lemma sanitize_clean (s : string) : clean_string (sanitizeFilename s) = true.
Proof.
  unfold sanitizeFilename.
  destruct (_ || _); [reflexivity | apply Replace_clean].
Qed.

Lemma IndexByte_clean (s : string) :
  clean_string s = true -> IndexByte s "?"%char = None.
Proof.
  induction s as [|c s IH]; simpl; [reflexivity|].
  unfold clean_string; simpl. intros H. apply andb_prop in H as [Hc Hs].
  rewrite (IH Hs).
  destruct (eqb_byte c "?") eqn:E; [|reflexivity].
  apply Ascii.eqb_eq in E. subst c. discriminate Hc.
Qed.

(** The outputs of [sanitizeFilename] contain none of the eleven bytes. *)
Theorem sanitize_no_forbidden (s : string) (c : ascii) :
  In c forbidden -> contains_byte (sanitizeFilename s) c = false.
Proof.
  intros Hc. pose proof (sanitize_clean s) as H.
  unfold clean_string in H. rewrite forallb_forall in H.
  unfold contains_byte. apply not_true_is_false. intros E.
  apply existsb_exists in E as (x & Hx & Ex).
  apply Ascii.eqb_eq in Ex. subst x.
  specialize (H c Hx). apply negb_true_iff in H.
  unfold is_forbidden in H.
  assert (existsb (eqb_byte c) forbidden = true) as H'.
  { apply existsb_exists. exists c. split; [exact Hc | apply Ascii.eqb_refl]. }
  congruence.
Qed.

(** X1. Every output of [sanitizeFilename] is free of the eleven bytes. *)
Theorem sanitize_output_has_no_forbidden_byte (s : string) :
  Forall (fun c => contains_byte (sanitizeFilename s) c = false) forbidden.
Proof.
  apply Forall_forall. intros c Hc. apply sanitize_no_forbidden.
  now apply list_elem_of_In.
Qed.

(** X2. A second application changes a sanitized name only when that name is
    empty or a single dot. *)
Theorem sanitize_twice (s : string) :
  sanitizeFilename (sanitizeFilename s) =
    if String.eqb (sanitizeFilename s) EmptyString
       || String.eqb (sanitizeFilename s) "."
    then "file" else sanitizeFilename s.
Proof.
  pose proof (sanitize_clean s) as H.
  set (t := sanitizeFilename s) in *.
  unfold sanitizeFilename at 1. rewrite (IndexByte_clean t H).
  destruct (String.eqb t EmptyString) eqn:E1; [reflexivity|].
  destruct (String.eqb t ".") eqn:E2; [reflexivity|].
  destruct (String.eqb t "/") eqn:E3.
  - apply String.eqb_eq in E3. rewrite E3 in H. discriminate H.
  - simpl. now apply Replace_fixed.
Qed.

End SanitizeFacts.

Module SanitizeClaims.
Import GoStr Core SanitizeTerms SanitizeFacts.

(** C7. Sanitization is not idempotent on the name "*": the emptiness test
    of [sanitizeFilename] comes before the deletion of the bytes, so the
    first application returns the empty string, which the second one
    turns into "file". *)
Theorem C7_sanitize_star_not_idempotent :
  sanitizeFilename "*" = EmptyString /\
  sanitizeFilename (sanitizeFilename "*") = "file" /\
  sanitizeFilename (sanitizeFilename "*") <> sanitizeFilename "*".
Proof. vm_compute. repeat split; discriminate. Qed.

(** C10. The name ".." of the URL path "/.." passes [sanitizeFilename]
    unchanged; joined to the destination directory "downloads/t1" it
    selects "downloads", which does not lie inside "downloads/t1". The
    empty name left for "/*" selects the destination directory itself. *)
Theorem C10_sanitize_dotdot_leaves_directory :
  sanitizeFilename (GoPath.Base "/..") = ".." /\
  GoPath.Join "downloads/t1" (sanitizeFilename (GoPath.Base "/..")) = "downloads" /\
  GoPath.Dir (GoPath.Join "downloads/t1" (sanitizeFilename (GoPath.Base "/.."))) = "." /\
  GoPath.Join "downloads/t1" (sanitizeFilename (GoPath.Base "/*")) = "downloads/t1".
Proof. vm_compute. repeat split. Qed.

End SanitizeClaims.

(* ------------------------------------------------------------------ *)
(** ** Unique destination paths *)

Module UniquePathFacts.
Import GoStr AppM UniquePathTerms.

Lemma append_assoc (a b c : string) :
  String.append (String.append a b) c = String.append a (String.append b c).
Proof. induction a as [|x a IH]; simpl; [reflexivity | now rewrite IH]. Qed.

Lemma append_nil_r (a : string) : String.append a EmptyString = a.
Proof. induction a as [|x a IH]; simpl; [reflexivity | now rewrite IH]. Qed.

Lemma length_append (a b : string) :
  String.length (String.append a b) = (String.length a + String.length b)%nat.
Proof. induction a as [|x a IH]; simpl; [reflexivity | now rewrite IH]. Qed.

Lemma take_append (a b : string) : take (String.length a) (String.append a b) = a.
Proof. induction a as [|x a IH]; simpl; [now destruct b | now rewrite IH]. Qed.

(** [filepath.Ext] returns a suffix of its argument. *)
Lemma Ext_suffix (p : string) : exists pre, p = String.append pre (GoPath.Ext p).
Proof.
  induction p as [|c p [pre IH]]; simpl.
  - now exists EmptyString.
  - destruct (String.eqb (GoPath.Ext p) EmptyString) eqn:E.
    + destruct (contains_byte p GoPath.sep).
      * exists (String c p). now rewrite append_nil_r.
      * destruct (eqb_byte c GoPath.dot).
        -- now exists EmptyString.
        -- exists (String c p). now rewrite append_nil_r.
    + exists (String c pre). simpl. now rewrite <- IH.
Qed.

Lemma name_ext (base : string) :
  String.append
    (take (String.length base - String.length (GoPath.Ext base)) base)
    (GoPath.Ext base) = base.
Proof.
  destruct (Ext_suffix base) as [pre H].
  set (e := GoPath.Ext base) in *.
  rewrite H at 1 2. rewrite length_append.
  replace (String.length pre + String.length e - String.length e)%nat
    with (String.length pre) by lia.
  rewrite take_append. now rewrite <- H.
Qed.

Lemma itoa_table : forallb itoa_agrees (seq 1 (Z.to_nat 9999)) = true.
Proof. vm_compute. reflexivity. Qed.

(** On the range of the loop counter [itoa] prints the decimal numeral. *)
Lemma itoa_decimal (i : Z) : 1 <= i <= 9999 -> itoa i = fmt_d i.
Proof.
  intros Hi. pose proof itoa_table as T. rewrite forallb_forall in T.
  specialize (T (Z.to_nat i)).
  unfold itoa_agrees in T. rewrite Z2Nat.id in T by lia.
  apply String.eqb_eq, T, in_seq. lia.
Qed.

Section Loop.
Variable notExist : string -> bool.
Variables name ext : string.

Lemma loop_first (k : nat) : forall i0 j,
  i0 <= j < i0 + Z.of_nat k ->
  notExist (candidate name ext j) = true ->
  (forall l, i0 <= l < j -> notExist (candidate name ext l) = false) ->
  uniquePath_loop notExist k i0 name ext = Some (candidate name ext j).
Proof.
  induction k as [|k IH]; intros i0 j Hj Hfree Htaken; [lia|].
  simpl. destruct (Z.eq_dec i0 j) as [->|Hne].
  - now rewrite Hfree.
  - rewrite (Htaken i0) by lia. apply IH; [lia | assumption |].
    intros l Hl. apply Htaken. lia.
Qed.

Lemma loop_none (k : nat) : forall i0,
  (forall l, i0 <= l < i0 + Z.of_nat k ->
             notExist (candidate name ext l) = false) ->
  uniquePath_loop notExist k i0 name ext = None.
Proof.
  induction k as [|k IH]; intros i0 H; [reflexivity|].
  simpl. rewrite (H i0) by lia. apply IH. intros l Hl. apply H. lia.
Qed.
End Loop.

End UniquePathFacts.

Module UniquePathClaims.
Import GoStr AppM UniquePathTerms UniquePathFacts.

Lemma candidate_numbered (base : string) (i : Z) :
  1 <= i <= 9999 ->
  candidate (stem base) (GoPath.Ext base) i = numbered base i.
Proof. intros Hi. unfold candidate, numbered. now rewrite itoa_decimal. Qed.

(** C9. [uniquePath] returns the candidate path when [os.Stat] reports it
    missing; otherwise the first of name-1.ext, ..., name-9999.ext that is
    missing; and the candidate followed by "-dup" when all of them are
    taken. Name and extension are the two parts of the candidate. *)
Theorem C9_uniquePath (notExist : string -> bool) (base : string) :
  String.append (stem base) (GoPath.Ext base) = base /\
  (notExist base = true -> uniquePath notExist base = base) /\
  (notExist base = false ->
   forall i, 1 <= i <= 9999 ->
     notExist (numbered base i) = true ->
     (forall j, 1 <= j < i -> notExist (numbered base j) = false) ->
     uniquePath notExist base = numbered base i) /\
  (notExist base = false ->
   (forall j, 1 <= j <= 9999 -> notExist (numbered base j) = false) ->
   uniquePath notExist base = String.append base "-dup").
Proof.
  split; [apply name_ext|]. split; [|split].
  - intros H. unfold uniquePath. now rewrite H.
  - intros H i Hi Hfree Htaken. unfold uniquePath. rewrite H.
    fold (stem base).
    rewrite (loop_first notExist (stem base) (GoPath.Ext base) (Z.to_nat 9999) 1 i).
    + now apply candidate_numbered.
    + lia.
    + now rewrite candidate_numbered.
    + intros l Hl. rewrite candidate_numbered by lia. apply Htaken. lia.
  - intros H Htaken. unfold uniquePath. rewrite H. fold (stem base).
    rewrite loop_none; [reflexivity|].
    intros l Hl. rewrite candidate_numbered by lia. apply Htaken. lia.
Qed.

Lemma C9_uniquePath_witness : uniquePath two_taken "d/a.bin" = "d/a-2.bin".
Proof.
  apply (proj1 (proj2 (proj2 (C9_uniquePath two_taken "d/a.bin"))) eq_refl 2).
  - lia.
  - reflexivity.
  - intros j Hj. assert (j = 1) as -> by lia. reflexivity.
Defined.

End UniquePathClaims.

(* ------------------------------------------------------------------ *)
(** ** Pagination of GET /tasks *)

Module HttpApiClaims.
Import Core HttpApi.

Lemma positiveInt_bad_limit :
  positiveInt [("limit", "abc")] "limit" 100 = (0, Some "bad int for limit").
Proof. reflexivity. Qed.

Lemma positiveInt_negative_offset :
  positiveInt [("offset", "-1")] "offset" 0 = (0, Some "bad int for offset").
Proof. reflexivity. Qed.

(** C6. The handler of GET /tasks never answers 400: for limit=abc
    [positiveInt] reports an error, the handler drops it, goes on with
    limit 0 and answers 200 with an empty list; a negative offset is
    served as offset 0. *)
Theorem C6_get_tasks_never_400 :
  (forall q ts, status (get_tasks q ts) <> 400) /\
  (forall ts, get_tasks [("limit", "abc")] ts = mkReply 200 []) /\
  (forall ts, get_tasks [("offset", "-1")] ts = mkReply 200 (take 100 ts)).
Proof.
  split; [|split].
  - intros q ts. unfold get_tasks.
    destruct (_ && _); simpl; discriminate.
  - intros ts. unfold get_tasks. cbv zeta. rewrite positiveInt_bad_limit.
    change (fst (positiveInt [("limit", "abc")] "offset" 0)) with 0.
    change (fst (0, Some "bad int for limit")) with 0.
    rewrite gtb_false by lia. simpl (if false then _ else _).
    change (GoInt.add 0 0) with 0.
    rewrite gtb_false, !leb_true by lia. reflexivity.
  - intros ts. unfold get_tasks. cbv zeta. rewrite positiveInt_negative_offset.
    change (fst (positiveInt [("offset", "-1")] "limit" 100)) with 100.
    change (fst (0, Some "bad int for offset")) with 0.
    rewrite gtb_false by lia. simpl (if false then _ else _).
    change (GoInt.add 0 100) with 100.
    destruct (Z_le_gt_dec 100 (Z.of_nat (length ts))) as [Hle|Hgt].
    + rewrite gtb_false, !leb_true by lia. reflexivity.
    + rewrite gtb_true, !leb_true by lia.
      simpl. rewrite Z.sub_0_r, Nat2Z.id.
      f_equal. change (Z.to_nat 0) with O. rewrite drop_0, firstn_all.
      symmetry. apply take_ge. lia.
Qed.

End HttpApiClaims.

(* ------------------------------------------------------------------ *)
(** ** The journal *)

Module StoreFacts.
Import Core Store StoreTerms.

Lemma last_for_cons (id : string) (t : Task) (ts : list Task) :
  last_for id (t :: ts) =
    match last_for id ts with
    | Some x => Some x
    | None => if decide (ID t = id) then Some t else None
    end.
Proof.
  unfold last_for. rewrite filter_cons.
  destruct (decide (ID t = id)) as [E|E]; [|now destruct (last _)].
  destruct (filter (fun t0 => ID t0 = id) ts) as [|y l] eqn:F; [reflexivity|].
  rewrite last_cons. now destruct (last (y :: l)).
Qed.

Lemma fold_upsert_lookup (ts : list Task) : forall (m : gmap string Task) id,
  fold_left upsert ts m !! id =
    match last_for id ts with
    | Some t => Some t
    | None => m !! id
    end.
Proof.
  induction ts as [|t ts IH]; intros m id; [reflexivity|].
  simpl. rewrite IH, last_for_cons.
  destruct (last_for id ts); [reflexivity|].
  unfold upsert. destruct (decide (ID t = id)) as [<-|E].
  - apply lookup_insert_eq.
  - now apply lookup_insert_ne.
Qed.

Lemma scan_app (l1 l2 : list walLine) : forall m,
  scan (l1 ++ l2) m =
    match scan l1 m with
    | Ok m' => scan l2 m'
    | Err e => Err e
    end.
Proof.
  induction l1 as [|l l1 IH]; intros m; simpl; [reflexivity|].
  destruct (line_len l >=? maxTokenSize); [reflexivity|].
  destruct (line_json l) as [rec|]; [|apply IH].
  destruct (String.eqb (Type_ rec) "upsert_task"); [|apply IH].
  destruct (RTask rec); apply IH.
Qed.

(** Valid UTF-8 passes through the codec unchanged. *)
Lemma coerce_valid (s : string) : forall skip,
  valid_from skip s = true -> GoJson.coerce skip s = s.
Proof.
  induction s as [|c r IH]; intros skip H; [reflexivity|].
  cbn [valid_from GoJson.coerce] in *. destruct skip as [|k].
  - destruct (GoJson.rune_width (String c r)) as [w|]; [|discriminate].
    f_equal. now apply IH.
  - f_equal. now apply IH.
Qed.

Lemma json_file_valid (f : FileItem) : utf8_file f -> json_file f = f.
Proof.
  intros (H1 & H2 & H3 & H4). unfold json_file, GoJson.round_trip.
  rewrite !coerce_valid by assumption. now destruct f.
Qed.

Lemma json_task_valid (t : Task) : utf8_task t -> json_task t = t.
Proof.
  intros (H1 & H2 & H3 & H4). unfold json_task, GoJson.round_trip.
  rewrite !coerce_valid by assumption.
  replace (map json_file (Files t)) with (Files t); [now destruct t|].
  induction H4 as [|f l Hf _ IH]; [reflexivity|].
  cbn [map]. now rewrite json_file_valid, <- IH.
Qed.


Section Appended.
Variable jsonLen : Task -> Z.

Lemma lines_AppendTasks (ts : list Task) : forall w,
  lines (AppendTasks jsonLen w ts) = lines w ++ map (line_of jsonLen) ts.
Proof.
  unfold AppendTasks.
  induction ts as [|t ts IH]; intros w; simpl.
  - now rewrite app_nil_r.
  - rewrite IH. simpl. now rewrite <- app_assoc.
Qed.

Lemma scan_appended (ts : list Task) : forall m,
  Forall (fun t => jsonLen t < maxTokenSize) ts ->
  scan (map (line_of jsonLen) ts) m = Ok (fold_left upsert (map json_task ts) m).
Proof.
  induction ts as [|t ts IH]; intros m H; [reflexivity|].
  inversion H as [|? ? Ht Hts]; subst.
  cbn [map scan line_of line_len line_json].
  rewrite geb_false by exact Ht.
  cbn [json_record Type_ RTask option_map fold_left].
  change (String.eqb (GoJson.round_trip "upsert_task") "upsert_task") with true.
  cbv iota. now apply IH.
Qed.


(** Appending to a journal that recovers to [m0]: the snapshots written
    last, as they are read back, override [m0]. *)
Lemma recover_after_append (w : WAL) (m0 : gmap string Task) (ts : list Task) :
  RecoverTasks w = Ok m0 ->
  Forall (fun t => jsonLen t < maxTokenSize) ts ->
  RecoverTasks (AppendTasks jsonLen w ts)
    = Ok (fold_left upsert (map json_task ts) m0).
Proof.
  unfold RecoverTasks. intros H0 H.
  rewrite lines_AppendTasks, scan_app, H0. now apply scan_appended.
Qed.
End Appended.

Lemma scan_keyed (ls : list walLine) : forall m m',
  keyed m -> scan ls m = Ok m' -> keyed m'.
Proof.
  induction ls as [|l ls IH]; intros m m' K H; simpl in H.
  - now inversion H; subst.
  - destruct (line_len l >=? maxTokenSize); [discriminate|].
    destruct (line_json l) as [rec|]; [|eauto].
    destruct (String.eqb (Type_ rec) "upsert_task"); [|eauto].
    destruct (RTask rec) as [t|]; [|eauto].
    eapply IH; [|exact H].
    intros id x Hx. destruct (decide (ID t = id)) as [<-|E].
    + rewrite lookup_insert_eq in Hx. now inversion Hx.
    + rewrite lookup_insert_ne in Hx by exact E. now apply K.
Qed.

Lemma RecoverTasks_keyed (w : WAL) (m : gmap string Task) :
  RecoverTasks w = Ok m -> keyed m.
Proof. apply scan_keyed. intros id t H. now rewrite lookup_empty in H. Qed.

End StoreFacts.

Module StoreClaims.
Import Core Store StoreTerms StoreFacts.




End StoreClaims.

(* ------------------------------------------------------------------ *)
(** ** Aggregates and derived status *)

Module StatusFacts.
Import Core AppM StatusTerms.


Lemma count_state_cons (st : FileState) (f : FileItem) (fs : list FileItem) :
  count_state st (f :: fs) =
    (if decide (State f = st) then 1 else 0) + count_state st fs.
Proof.
  unfold count_state. rewrite filter_cons.
  destruct (decide (State f = st)); simpl length; lia.
Qed.

Lemma census_fold (fs : list FileItem) : forall c,
  let c' := fold_left census_step fs c in
  c_done c' = c_done c + count_state FileDone fs /\
  c_failed c' = c_failed c + count_state FileFailed fs /\
  c_pending c' = c_pending c + count_state FilePending fs /\
  c_running c' = c_running c + count_state FileRunning fs.
Proof.
  induction fs as [|f fs IH]; intros c; simpl.
  - unfold count_state; simpl. lia.
  - specialize (IH (census_step c f)). simpl in IH.
    destruct IH as (H1 & H2 & H3 & H4).
    rewrite H1, H2, H3, H4, !count_state_cons.
    unfold census_step. destruct (State f); simpl; repeat split; lia.
Qed.

Lemma count_total (fs : list FileItem) :
  count_state FileDone fs + count_state FileFailed fs +
  count_state FilePending fs + count_state FileRunning fs =
  Z.of_nat (length fs).
Proof.
  induction fs as [|f fs IH]; [reflexivity|].
  rewrite !count_state_cons. simpl length. destruct (State f); simpl; lia.
Qed.

Lemma count_nonneg (st : FileState) (fs : list FileItem) : 0 <= count_state st fs.
Proof. unfold count_state. lia. Qed.

Lemma count_all (st : FileState) (fs : list FileItem) :
  count_state st fs = Z.of_nat (length fs) <-> Forall (fun f => State f = st) fs.
Proof.
  induction fs as [|f fs IH]; [split; [constructor | reflexivity]|].
  rewrite count_state_cons. simpl length.
  assert (count_state st fs <= Z.of_nat (length fs)) as Hle.
  { unfold count_state. pose proof (length_filter (fun f => State f = st) fs). lia. }
  split.
  - intros H. destruct (decide (State f = st)) as [E|E]; [|lia].
    constructor; [exact E | apply IH; lia].
  - intros H. apply Forall_cons in H as [E Hfs].
    apply IH in Hfs. destruct (decide (State f = st)); [lia | congruence].
Qed.

Lemma count_some (st : FileState) (fs : list FileItem) :
  count_state st fs > 0 <-> Exists (fun f => State f = st) fs.
Proof.
  induction fs as [|f fs IH].
  - split; [unfold count_state; simpl; lia | intros H; inversion H].
  - rewrite count_state_cons. pose proof (count_nonneg st fs). split.
    + intros H1. destruct (decide (State f = st)) as [E|E].
      * now constructor.
      * apply Exists_cons_tl, IH. lia.
    + intros H1. apply Exists_cons in H1 as [E|E].
      * destruct (decide (State f = st)); [lia | congruence].
      * apply IH in E. destruct (decide (State f = st)); lia.
Qed.

(** [RecomputeStatus] establishes the census. *)
Lemma Recompute_census (t : Task) : census_ok (RecomputeStatus t).
Proof.
  unfold census_ok, RecomputeStatus; simpl.
  destruct (census_fold (Files t) census0) as (H1 & H2 & H3 & H4).
  simpl in *. rewrite H1, H2, H3, H4. pose proof (count_total (Files t)).
  repeat split; lia.
Qed.

Lemma Recompute_Files (t : Task) : Files (RecomputeStatus t) = Files t.
Proof. reflexivity. Qed.

Lemma Recompute_Status (t : Task) :
  Status (RecomputeStatus t) =
    derive_status (Z.of_nat (length (Files t)))
      (count_state FileDone (Files t)) (count_state FileFailed (Files t))
      (count_state FilePending (Files t)) (count_state FileRunning (Files t)).
Proof.
  unfold RecomputeStatus; simpl.
  destruct (census_fold (Files t) census0) as (H1 & H2 & H3 & H4).
  simpl in *. now rewrite H1, H2, H3, H4.
Qed.

End StatusFacts.

Module StatusClaims.
Import Core AppM StatusTerms StatusFacts.

(** [RecomputeStatus] derives the status by the rule, for a task with at
    least one file. *)
Lemma Recompute_status_ok (t : Task) :
  Files t <> [] -> status_ok (RecomputeStatus t).
Proof.
  intros Hne.
  pose proof (Recompute_census t) as (_ & HD & HF & HP & HR & _).
  pose proof (Recompute_Status t) as HS.
  pose proof (count_total (Files t)) as Hsum.
  pose proof (count_all FileDone (Files t)) as AD.
  pose proof (count_all FileFailed (Files t)) as AF.
  pose proof (count_some FileRunning (Files t)) as SR.
  pose proof (count_nonneg FileDone (Files t)).
  pose proof (count_nonneg FileFailed (Files t)).
  pose proof (count_nonneg FilePending (Files t)).
  pose proof (count_nonneg FileRunning (Files t)).
  assert (0 < Z.of_nat (length (Files t))) as Hpos.
  { destruct (Files t); [congruence | simpl; lia]. }
  unfold status_ok, all_in, some_in, partial_condition.
  rewrite HD, HF, HP, HR, HS, Recompute_Files.
  set (n := Z.of_nat (length (Files t))) in *.
  set (d := count_state FileDone (Files t)) in *.
  set (f := count_state FileFailed (Files t)) in *.
  set (p := count_state FilePending (Files t)) in *.
  set (r := count_state FileRunning (Files t)) in *.
  rewrite <- AD, <- AF, <- SR. clearbody n d f p r. clear AD AF SR HD HF HP HR HS.
  unfold derive_status.
  repeat split; intros;
    repeat match goal with
      | |- context [?a >? ?b] => rewrite (Z.gtb_ltb a b)
      | |- context [?a <? ?b] => destruct (Z.ltb_spec a b)
      | |- context [?a =? ?b] => destruct (Z.eqb_spec a b)
      end; simpl; try reflexivity; try lia.
Qed.

Lemma newFiles_length url_Parse (links : list string) (m : Z) : forall fs,
  newFiles url_Parse links m = Ok fs -> length fs = length links.
Proof.
  induction links as [|l links IH]; intros fs H; simpl in H.
  - now inversion H.
  - destruct (newFile url_Parse l m); [|discriminate].
    destruct (newFiles url_Parse links m) as [fs'|]; [|discriminate].
    inversion H; subst. simpl. f_equal. now apply IH.
Qed.

Lemma NewTask_shape url_Parse id now label destDir links m t :
  NewTask url_Parse id now label destDir links m = Ok t ->
  exists t0, t = RecomputeStatus t0 /\ Files t0 <> [].
Proof.
  unfold NewTask. destruct links as [|l links]; [discriminate|].
  destruct (newFiles url_Parse (l :: links) m) as [fs|] eqn:E; [|discriminate].
  intros H. inversion H; subst. eexists; split; [reflexivity|].
  simpl. apply newFiles_length in E. destruct fs; [discriminate | congruence].
Qed.

Lemma set_file_nonempty (t : Task) (i : nat) (f : FileItem) :
  Files t <> [] -> Files (set_file t i f) <> [].
Proof.
  unfold set_file; simpl. intros H E. apply H.
  apply (f_equal length) in E. rewrite length_insert in E.
  now destruct (Files t).
Qed.

Lemma reachable_shape url_Parse (t : Task) :
  reachable url_Parse t -> exists t0, t = RecomputeStatus t0 /\ Files t0 <> [].
Proof.
  induction 1 as [? ? ? ? ? ? t H | t i f now _ (t0 & -> & H)
                 | t i f res now _ (t0 & -> & H) | t i f _ (t0 & -> & H)
                 | t _ (t0 & -> & H)].
  - eapply NewTask_shape; eassumption.
  - eexists; split; [reflexivity|]. now apply set_file_nonempty.
  - eexists; split; [reflexivity|]. now apply set_file_nonempty.
  - eexists; split; [reflexivity|]. now apply set_file_nonempty.
  - eexists; split; [reflexivity|]. simpl.
    destruct (Files t0); [congruence | discriminate].
Qed.

(** C4. Every task built by task construction and changed by the start
    phase, the completion phase, the retry reset and recovery has
    aggregates equal to the census of its files (total = |files|, each
    counter the number of files in its state, and the four counters
    adding up to total) and a status derived by the rule: all DONE gives
    COMPLETE, all FAILED gives FAILED, any RUNNING gives RUNNING, DONE > 0
    and FAILED > 0 with PENDING = 0 and RUNNING = 0 gives PARTIAL, and
    PENDING otherwise. *)
Theorem C4_aggregates_and_status url_Parse (t : Task) :
  reachable url_Parse t -> census_ok t /\ status_ok t.
Proof.
  intros H. apply reachable_shape in H as (t0 & -> & Hne). split.
  - apply Recompute_census.
  - now apply Recompute_status_ok.
Qed.

Lemma C4_aggregates_and_status_witness :
  census_ok (completion_phase (start_phase task0 0 file0 5) 0
               (to_running file0 5) (Ok 7) 9) /\
  status_ok (completion_phase (start_phase task0 0 file0 5) 0
               (to_running file0 5) (Ok 7) 9).
Proof.
  apply (C4_aggregates_and_status parse_stub).
  apply reach_complete, reach_start.
  apply (reach_new parse_stub "id" 0 "x" "t1" ["http://h/a.bin"] 3).
  reflexivity.
Defined.

End StatusClaims.

(* ------------------------------------------------------------------ *)
(** ** The fetcher *)

Module LoaderClaims.
Import Core Sys Loader Scenario LoaderTerms.

(** The sibling path: after a 5xx answer the staging file is closed and
    removed before the backoff. *)
Lemma status_5xx_removes_staging :
  trace (fst run500) =
    [ EvMkdirAll "downloads/t1"; EvCreate "downloads/t1/a.bin.part";
      EvDo "http://fake/a.bin"; EvClose "downloads/t1/a.bin.part";
      EvRemove "downloads/t1/a.bin.part"; EvBackoff 500000000 ] /\
  fs (fst run500) !! "downloads/t1/a.bin.part" = None.
Proof. vm_compute. split; reflexivity. Qed.

(** C8. After an attempt that ends in a transport error the staging file
    is closed but not removed: it is on disk during the backoff and, when
    the attempts are used up, after [Fetch] has returned. With one attempt
    and with three, the trace of [Fetch] holds no removal. *)
Theorem C8_transport_error_keeps_staging :
  snd run1 = Err "connection refused" /\
  trace (fst run1) =
    [ EvMkdirAll "downloads/t1"; EvCreate "downloads/t1/a.bin.part";
      EvDo "http://fake/a.bin"; EvClose "downloads/t1/a.bin.part";
      EvBackoff 500000000 ] /\
  fs (fst run1) !! "downloads/t1/a.bin.part" = Some (File 0) /\
  snd run3 = Err "connection refused" /\
  existsb is_remove (trace (fst run3)) = false /\
  fs (fst run3) !! "downloads/t1/a.bin.part" = Some (File 0).
Proof. vm_compute. repeat split; reflexivity. Qed.

End LoaderClaims.

Module LoaderFacts.
Import Core Sys Loader.

Lemma wrap_id (z : Z) : GoInt.in_range z -> GoInt.wrap z = z.
Proof.
  unfold GoInt.in_range, GoInt.min_int, GoInt.max_int, GoInt.wrap. intros H.
  rewrite Z.mod_small; lia.
Qed.

Lemma attempts_S (r : Z) : exists k, Z.to_nat (GoInt.max 1 r) = S k.
Proof.
  unfold GoInt.max. destruct (Z_le_gt_dec 1 r) as [H|H].
  - exists (Z.to_nat r - 1)%nat.
    destruct (1 >? r) eqn:E; [rewrite gtb_false in E by lia; discriminate | lia].
  - exists O. rewrite gtb_true by lia. reflexivity.
Qed.

Section Fetch4xx.
Variable url_Parse : string -> option URLParts.
Variable world : World.
Variable opts : Options.
Variables rawURL destPath : string.

(** On an answer that is neither 2xx nor 5xx, [Fetch] returns the
    error at once: one request, the staging file closed and removed,
    no backoff and no further attempt. *)
Lemma Fetch_permanent (s : St) (u : URLParts) (fs1 : FS)
      (status written : Z) (copyErr : option string) :
  url_Parse rawURL = Some u ->
  w_attempt world rawURL (reqs s) = plain (Response status written copyErr) ->
  (status < 200 \/ 300 <= status < 500 \/ 600 <= status) ->
  MkdirAll (fs s) (GoPath.Dir destPath) = Some fs1 ->
  Fetch url_Parse world opts rawURL destPath s =
    (mkSt (delete (tmpPath destPath) (<[tmpPath destPath := File 0]> fs1))
          (S (reqs s))
          (trace s ++ [EvMkdirAll (GoPath.Dir destPath)]
                   ++ [EvCreate (tmpPath destPath)]
                   ++ [EvDo rawURL]
                   ++ [EvClose (tmpPath destPath)]
                   ++ [EvRemove (tmpPath destPath)]),
     Err (String.append "http " (GoStr.fmt_d status))).
Proof.
  intros Hu Ha Hs Hm. unfold Fetch. rewrite Hu.
  destruct (attempts_S (Retries opts)) as [k ->].
  cbn [fetch_loop]. rewrite Ha. cbn [plain at_request_err at_mkdir_err
    at_create_err at_http emit set_fs fs reqs trace].
  rewrite Hm.
  cbn [out_Close os_Remove emit set_fs fs reqs trace].
  assert (((status <? 200) || (status >=? 300)) = true) as ->.
  { destruct (Z.ltb_spec status 200); [reflexivity|].
    rewrite geb_true by lia. reflexivity. }
  assert (((status >=? 500) && (status <? 600)) = false) as ->.
  { destruct (Z.ltb_spec status 600); [|apply andb_false_r].
    rewrite geb_false by lia. reflexivity. }
  unfold os_Remove, out_Close, emit, set_fs. cbn [fs reqs trace].
  rewrite <- !app_assoc. reflexivity.
Qed.
End Fetch4xx.

End LoaderFacts.

(* ------------------------------------------------------------------ *)
(** ** The worker *)

Module WorkerFacts.
Import Core Store Queue Sys AppM WorkerTerms.

Section Worker.
Variable jsonLen : Task -> Z.
Variable url_Parse : string -> option URLParts.
Variable world : World.

(** [workerLoop] on a job whose file is PENDING, by the result of
    [Fetch]: the file is finished; after an error, whatever it is, with
    attempts left it is reset and its job sent to the intake again. *)
Lemma worker_job_eq (a : App) (job : Job) (t : Task) (fi : FileItem)
      (l : Loader.St) (res : result Z) :
  tasks a !! TaskID job = Some t ->
  0 <= FileIndex job < Z.of_nat (length (Files t)) ->
  Files t !! Z.to_nat (FileIndex job) = Some fi ->
  State fi = FilePending ->
  Loader.Fetch url_Parse world (loader_opts (Conf a)) (URL fi)
    (dest_of a (start_phase t (Z.to_nat (FileIndex job)) fi (w_now world (ticks a))) fi)
    (loader a) = (l, res) ->
  worker_job jsonLen url_Parse world a job =
    match res with
    | Ok _ => completed jsonLen world a job t fi l res
    | Err _ =>
        if GoInt.add (Attempts fi) 1 <? MaxAttempts fi
        then retried jsonLen world a job t fi l res
        else completed jsonLen world a job t fi l res
    end.
Proof.
  intros Ht Hi Hf Hs HF. unfold worker_job. rewrite Ht.
  rewrite ltb_false, geb_false by lia. cbn [orb]. rewrite Hf, Hs.
  cbn [FileState_eqb negb time_Now].
  change (Loader.Fetch _ _ _ _ _ _) with
    (Loader.Fetch url_Parse world (loader_opts (Conf a)) (URL fi)
       (dest_of a (start_phase t (Z.to_nat (FileIndex job)) fi
                               (w_now world (ticks a))) fi) (loader a)).
  rewrite HF. destruct res as [w|e]; [reflexivity|].
  cbn [to_finished Attempts MaxAttempts to_running].
  destruct (GoInt.add (Attempts fi) 1 <? MaxAttempts fi); reflexivity.
Qed.
End Worker.

End WorkerFacts.

(* ------------------------------------------------------------------ *)
(** ** The fields of the application state after each update *)

Module AppFields.
Import Core Store Queue Sys AppM.

Section Fields.
Variable jsonLen : Task -> Z.
Variables (a : App) (t : Task) (k : string) (n : nat).
Variables (l : Loader.St) (d : Dispatcher) (e : Event) (j : Job).
Lemma Conf_journal : Conf (journal jsonLen a t) = Conf a.
Proof. reflexivity. Qed.
Lemma tasks_journal : tasks (journal jsonLen a t) = tasks a.
Proof. reflexivity. Qed.
Lemma dispatcher_journal : dispatcher (journal jsonLen a t) = dispatcher a.
Proof. reflexivity. Qed.
Lemma loader_journal : loader (journal jsonLen a t) = loader a.
Proof. reflexivity. Qed.
Lemma log_journal : log (journal jsonLen a t) = log a ++ [EvJournal t].
Proof. reflexivity. Qed.
Lemma ticks_journal : ticks (journal jsonLen a t) = ticks a.
Proof. reflexivity. Qed.
Lemma Conf_put_task : Conf (put_task a k t) = Conf a.
Proof. reflexivity. Qed.
Lemma tasks_put_task : tasks (put_task a k t) = <[k := t]> (tasks a).
Proof. reflexivity. Qed.
Lemma dispatcher_put_task : dispatcher (put_task a k t) = dispatcher a.
Proof. reflexivity. Qed.
Lemma loader_put_task : loader (put_task a k t) = loader a.
Proof. reflexivity. Qed.
Lemma log_put_task : log (put_task a k t) = log a.
Proof. reflexivity. Qed.
Lemma ticks_put_task : ticks (put_task a k t) = ticks a.
Proof. reflexivity. Qed.
Lemma Conf_set_ticks : Conf (set_ticks a n) = Conf a.
Proof. reflexivity. Qed.
Lemma tasks_set_ticks : tasks (set_ticks a n) = tasks a.
Proof. reflexivity. Qed.
Lemma dispatcher_set_ticks : dispatcher (set_ticks a n) = dispatcher a.
Proof. reflexivity. Qed.
Lemma loader_set_ticks : loader (set_ticks a n) = loader a.
Proof. reflexivity. Qed.
Lemma log_set_ticks : log (set_ticks a n) = log a.
Proof. reflexivity. Qed.
Lemma ticks_set_ticks : ticks (set_ticks a n) = n.
Proof. reflexivity. Qed.
Lemma Conf_set_loader : Conf (set_loader a l) = Conf a.
Proof. reflexivity. Qed.
Lemma tasks_set_loader : tasks (set_loader a l) = tasks a.
Proof. reflexivity. Qed.
Lemma dispatcher_set_loader : dispatcher (set_loader a l) = dispatcher a.
Proof. reflexivity. Qed.
Lemma loader_set_loader : loader (set_loader a l) = l.
Proof. reflexivity. Qed.
Lemma log_set_loader : log (set_loader a l) = log a.
Proof. reflexivity. Qed.
Lemma ticks_set_loader : ticks (set_loader a l) = ticks a.
Proof. reflexivity. Qed.
Lemma Conf_set_dispatcher : Conf (set_dispatcher a d) = Conf a.
Proof. reflexivity. Qed.
Lemma tasks_set_dispatcher : tasks (set_dispatcher a d) = tasks a.
Proof. reflexivity. Qed.
Lemma dispatcher_set_dispatcher : dispatcher (set_dispatcher a d) = d.
Proof. reflexivity. Qed.
Lemma loader_set_dispatcher : loader (set_dispatcher a d) = loader a.
Proof. reflexivity. Qed.
Lemma log_set_dispatcher : log (set_dispatcher a d) = log a.
Proof. reflexivity. Qed.
Lemma ticks_set_dispatcher : ticks (set_dispatcher a d) = ticks a.
Proof. reflexivity. Qed.
Lemma Conf_note : Conf (note a e) = Conf a.
Proof. reflexivity. Qed.
Lemma tasks_note : tasks (note a e) = tasks a.
Proof. reflexivity. Qed.
Lemma dispatcher_note : dispatcher (note a e) = dispatcher a.
Proof. reflexivity. Qed.
Lemma loader_note : loader (note a e) = loader a.
Proof. reflexivity. Qed.
Lemma log_note : log (note a e) = log a ++ [e].
Proof. reflexivity. Qed.
Lemma ticks_note : ticks (note a e) = ticks a.
Proof. reflexivity. Qed.
Lemma Conf_enqueue : Conf (enqueue a j) = Conf a.
Proof. reflexivity. Qed.
Lemma tasks_enqueue : tasks (enqueue a j) = tasks a.
Proof. reflexivity. Qed.
Lemma dispatcher_enqueue : dispatcher (enqueue a j) = send_in (dispatcher a) j.
Proof. reflexivity. Qed.
Lemma loader_enqueue : loader (enqueue a j) = loader a.
Proof. reflexivity. Qed.
Lemma log_enqueue : log (enqueue a j) = log a ++ [EvEnqueue j].
Proof. reflexivity. Qed.
Lemma ticks_enqueue : ticks (enqueue a j) = ticks a.
Proof. reflexivity. Qed.
End Fields.

Create Rewrite HintDb app_fields.
#[export] Hint Rewrite Conf_journal tasks_journal dispatcher_journal loader_journal log_journal ticks_journal : app_fields.
#[export] Hint Rewrite Conf_put_task tasks_put_task dispatcher_put_task loader_put_task log_put_task ticks_put_task : app_fields.
#[export] Hint Rewrite Conf_set_ticks tasks_set_ticks dispatcher_set_ticks loader_set_ticks log_set_ticks ticks_set_ticks : app_fields.
#[export] Hint Rewrite Conf_set_loader tasks_set_loader dispatcher_set_loader loader_set_loader log_set_loader ticks_set_loader : app_fields.
#[export] Hint Rewrite Conf_set_dispatcher tasks_set_dispatcher dispatcher_set_dispatcher loader_set_dispatcher log_set_dispatcher ticks_set_dispatcher : app_fields.
#[export] Hint Rewrite Conf_note tasks_note dispatcher_note loader_note log_note ticks_note : app_fields.
#[export] Hint Rewrite Conf_enqueue tasks_enqueue dispatcher_enqueue loader_enqueue log_enqueue ticks_enqueue : app_fields.

End AppFields.

Module WorkerProjections.
Import Core Store Queue Sys AppM WorkerTerms WorkerFacts AppFields.

Section Proj.
Variable jsonLen : Task -> Z.
Variable world : World.
Variables (a : App) (job : Job) (t : Task) (fi : FileItem).
Variables (l : Loader.St) (res : result Z).

Local Abbreviation i := (Z.to_nat (FileIndex job)).
Local Abbreviation t1 := (start_phase t i fi (w_now world (ticks a))).
Local Abbreviation fi1 := (to_running fi (w_now world (ticks a))).
Local Abbreviation t2 :=
  (completion_phase t1 i fi1 res (w_now world (S (ticks a)))).
Local Abbreviation fi2 := (to_finished fi1 res (w_now world (S (ticks a)))).
Local Abbreviation t3 := (retry_phase t2 i fi2).

Lemma completed_Conf : Conf (completed jsonLen world a job t fi l res) = Conf a.
Proof. unfold completed, started. cbv zeta. autorewrite with app_fields. reflexivity. Qed.

Lemma completed_dispatcher :
  dispatcher (completed jsonLen world a job t fi l res) = dispatcher a.
Proof. unfold completed, started. cbv zeta. autorewrite with app_fields. reflexivity. Qed.

Lemma completed_loader : loader (completed jsonLen world a job t fi l res) = l.
Proof. unfold completed, started. cbv zeta. autorewrite with app_fields. reflexivity. Qed.

Lemma completed_tasks :
  tasks (completed jsonLen world a job t fi l res) =
    <[TaskID job := t2]> (<[TaskID job := t1]> (tasks a)).
Proof. unfold completed, started. cbv zeta. autorewrite with app_fields. reflexivity. Qed.

Lemma completed_log :
  log (completed jsonLen world a job t fi l res) =
    ((log a ++ [EvJournal t1]) ++ [EvFetch (URL fi) (dest_of a t1 fi)])
      ++ [EvJournal t2].
Proof. unfold completed, started. cbv zeta. autorewrite with app_fields. reflexivity. Qed.

Lemma retried_Conf : Conf (retried jsonLen world a job t fi l res) = Conf a.
Proof.
  unfold retried. cbv zeta. autorewrite with app_fields.
  unfold completed, started. cbv zeta. autorewrite with app_fields. reflexivity.
Qed.

Lemma retried_dispatcher :
  dispatcher (retried jsonLen world a job t fi l res) =
    send_in (dispatcher a) (mkJob (TaskID job) (FileIndex job) (Host fi)).
Proof.
  unfold retried. cbv zeta. autorewrite with app_fields.
  unfold completed, started. cbv zeta. autorewrite with app_fields. reflexivity.
Qed.

Lemma retried_loader : loader (retried jsonLen world a job t fi l res) = l.
Proof.
  unfold retried. cbv zeta. autorewrite with app_fields.
  unfold completed, started. cbv zeta. autorewrite with app_fields. reflexivity.
Qed.

Lemma retried_tasks :
  tasks (retried jsonLen world a job t fi l res) =
    <[TaskID job := t3]> (<[TaskID job := t2]> (<[TaskID job := t1]> (tasks a))).
Proof.
  unfold retried. cbv zeta. autorewrite with app_fields.
  unfold completed, started. cbv zeta. autorewrite with app_fields. reflexivity.
Qed.

Lemma retried_log :
  log (retried jsonLen world a job t fi l res) =
    (log (completed jsonLen world a job t fi l res) ++ [EvJournal t3])
      ++ [EvEnqueue (mkJob (TaskID job) (FileIndex job) (Host fi))].
Proof. unfold retried. cbv zeta. autorewrite with app_fields. reflexivity. Qed.
End Proj.

End WorkerProjections.

(* ------------------------------------------------------------------ *)
(** ** Runs of the system *)

Module RunFacts.
Import Core Store Queue Sys AppM.

Section Run.
Variable jsonLen : Task -> Z.
Variable url_Parse : string -> option URLParts.
Variable world : World.

Lemma run_quiescent (fuel : nat) (c : App) :
  quiescent jsonLen url_Parse world c -> run jsonLen url_Parse world fuel c = c.
Proof. intros H. destruct fuel; [reflexivity|]. simpl. now rewrite H. Qed.

End Run.

End RunFacts.

Module Scenario404.
Import Core Store Queue Sys AppM WorkerTerms WorkerFacts WorkerProjections LoaderFacts Scenario OneFile RunFacts.

Lemma submitted_app0 (m : Z) : submitted not_found (conf_with m) = Ok (app0 m).
Proof. vm_compute. reflexivity. Qed.

Lemma no_file_insert (fs : FS) (p : string) :
  no_file fs -> no_file (<[p := Dir]> fs).
Proof.
  intros H q n. destruct (decide (p = q)) as [<-|Hne].
  - rewrite lookup_insert_eq. discriminate.
  - rewrite lookup_insert_ne by exact Hne. apply H.
Qed.

Lemma no_file_empty : no_file ∅.
Proof. intros p n. rewrite lookup_empty. discriminate. Qed.

Lemma no_file_init : no_file fs_init.
Proof. unfold fs_init. repeat apply no_file_insert. apply no_file_empty. Qed.

Lemma fs_init_ready : disk_ready fs_init.
Proof.
  split; [vm_compute; reflexivity|]. split; [apply no_file_init|].
  exists fs_made.
  split; [vm_compute; reflexivity|]. split; [vm_compute; reflexivity|].
  split; [vm_compute; reflexivity|].
  unfold fs_made, fs_init. repeat apply no_file_insert. apply no_file_empty.
Qed.

Lemma waiting_app0 (m : Z) : waiting m O (disp [job0] []) (app0 m).
Proof.
  split; try reflexivity. apply fs_init_ready.
Qed.

Section Steps.
Variable m : Z.
Hypothesis m_range : GoInt.in_range m.

Local Abbreviation file_pending n :=
  (file_in FilePending EmptyString (Z.of_nat n) m None None).

Lemma step_schedule (n : nat) (a : App) :
  waiting m n (disp [job0] []) a ->
  exists b, step jsonLen0 parse_fake not_found a = Some b /\
            waiting m n (disp [] [job0]) b.
Proof.
  intros [Hc Ht Hd Hk Hr He Hf]. unfold step. rewrite Hd. cbn [taskCh jobInCh disp].
  eexists. split; [reflexivity|].
  split; try assumption. reflexivity.
Qed.

Lemma dest_ready (a : App) (now : Z) (n : nat) :
  disk_ready (Loader.fs (loader a)) ->
  dest_of a (start_phase (task_of (file_pending n)) 0 (file_pending n) now)
          (file_pending n) = dest0.
Proof.
  intros (Hd & _). unfold dest_of.
  change (GoPath.Join _ _) with dest0.
  unfold uniquePath, notExist. now rewrite Hd.
Qed.

Lemma MkdirAll_existing (fs : FS) (p : string) :
  fs !! p = Some Dir -> MkdirAll fs p = Some fs.
Proof.
  intros H. unfold MkdirAll. destruct (String.length p); simpl; now rewrite H.
Qed.

Lemma disk_ready_after (fs1 : FS) :
  fs1 !! dir0 = Some Dir -> fs1 !! dest0 = None -> no_file fs1 ->
  disk_ready (delete tmp0 (<[tmp0 := File 0]> fs1)) /\
  (delete tmp0 (<[tmp0 := File 0]> fs1)) !! tmp0 = None.
Proof.
  intros Hd He Hn.
  assert (forall p, p <> tmp0 ->
            (delete tmp0 (<[tmp0 := File 0]> fs1)) !! p = fs1 !! p) as L.
  { intros p Hp. rewrite lookup_delete_ne, lookup_insert_ne by congruence.
    reflexivity. }
  assert (no_file (delete tmp0 (<[tmp0 := File 0]> fs1))) as Hn'.
  { intros p n. destruct (decide (p = tmp0)) as [->|Hne].
    - rewrite lookup_delete_eq. discriminate.
    - rewrite L by exact Hne. apply Hn. }
  split; [|apply lookup_delete_eq].
  split; [rewrite L by discriminate; exact He|]. split; [exact Hn'|].
  eexists. split; [apply MkdirAll_existing; rewrite L by discriminate; exact Hd|].
  split; [rewrite L by discriminate; assumption|].
  split; [rewrite L by discriminate; assumption | exact Hn'].
Qed.

Lemma count_app (p : Event -> bool) (l1 l2 : list Event) :
  count p (l1 ++ l2) = (count p l1 + count p l2)%nat.
Proof. unfold count. now rewrite List.filter_app, length_app. Qed.

(** The worker on the job of a task whose server answers 404. *)
Lemma step_work (n : nat) (b : App) :
  waiting m n (disp [] [job0]) b ->
  Z.of_nat n < GoInt.max 1 m ->
  exists l : Loader.St,
    disk_ready (Loader.fs l) /\ Loader.fs l !! tmp0 = None /\
    Loader.reqs l = S n /\
    let b' := set_dispatcher b (disp [] []) in
    let res := Err "http 404" in
    step jsonLen0 parse_fake not_found b =
      Some (if Z.of_nat (S n) <? m
            then retried jsonLen0 not_found b' job0 (task_of (file_pending n))
                         (file_pending n) l res
            else completed jsonLen0 not_found b' job0 (task_of (file_pending n))
                           (file_pending n) l res).
Proof.
  intros [Hc Ht Hd Hk Hr He Hf] Hn.
  destruct Hk as (Hfree & Hnone & fs1 & Hmk & Hdir & Hdest & Hnone1).
  set (l := Loader.mkSt (delete tmp0 (<[tmp0 := File 0]> fs1)) (S n)
    (Loader.trace (loader b) ++ [Loader.EvMkdirAll dir0] ++ [Loader.EvCreate tmp0]
       ++ [Loader.EvDo url0] ++ [Loader.EvClose tmp0] ++ [Loader.EvRemove tmp0])).
  exists l.
  split; [now apply disk_ready_after|].
  split; [now apply disk_ready_after|]. split; [reflexivity|].
  cbv zeta. unfold step. rewrite Hd. cbn [taskCh disp].
  change (with_out _ _) with (disp [] []).
  set (b' := set_dispatcher b (disp [] [])). f_equal.
  rewrite (worker_job_eq jsonLen0 parse_fake not_found b' job0
             (task_of (file_pending n)) (file_pending n) l (Err "http 404")).
  - cbn [Attempts MaxAttempts file_in].
    unfold GoInt.add. rewrite wrap_id.
    + replace (Z.of_nat n + 1) with (Z.of_nat (S n)) by lia. reflexivity.
    + unfold GoInt.in_range, GoInt.min_int, GoInt.max_int in *.
      unfold GoInt.max in Hn. destruct (1 >? m); lia.
  - exact Ht.
  - simpl. lia.
  - reflexivity.
  - reflexivity.
  - rewrite dest_ready by (split; [exact Hfree | split; eauto]).
    unfold l. rewrite <- Hr.
    apply (Fetch_permanent parse_fake not_found _ url0 dest0 (loader b')
             (mkURL "http" "fake" "/a.bin") fs1 404 0 None).
    + reflexivity.
    + reflexivity.
    + lia.
    + exact Hmk.
Qed.

Lemma phases_of_one_file (f f1 f2 : FileItem) (res : result Z) (now now2 : Z) :
  retry_phase (completion_phase (start_phase (task_of f) 0 f now) 0 f1 res now2) 0 f2
  = task_of (to_pending f2).
Proof. reflexivity. Qed.

Lemma completion_of_one_file (f f1 : FileItem) (res : result Z) (now now2 : Z) :
  completion_phase (start_phase (task_of f) 0 f now) 0 f1 res now2
  = task_of (to_finished f1 res now2).
Proof. reflexivity. Qed.

Lemma after_retry (n : nat) (b : App) (l : Loader.St) :
  waiting m n (disp [] [job0]) b ->
  Z.of_nat (S n) < m ->
  disk_ready (Loader.fs l) -> Loader.reqs l = S n ->
  waiting m (S n) (disp [job0] [])
    (retried jsonLen0 not_found (set_dispatcher b (disp [] [])) job0
             (task_of (file_pending n)) (file_pending n) l (Err "http 404")).
Proof.
  intros [Hc Ht Hd Hk Hr He Hf] Hlt Hl1 Hl2. split.
  - rewrite retried_Conf. exact Hc.
  - rewrite retried_tasks. cbv zeta. change (TaskID job0) with id0.
    rewrite lookup_insert_eq. f_equal.
    change (Z.to_nat (FileIndex job0)) with O.
    rewrite phases_of_one_file.
    cbn [to_pending to_finished to_running file_in URL Filename Attempts
         MaxAttempts BytesDownloaded SizeHint Host].
    unfold GoInt.add. rewrite wrap_id.
    + replace (Z.of_nat n + 1) with (Z.of_nat (S n)) by lia. reflexivity.
    + unfold GoInt.in_range, GoInt.min_int, GoInt.max_int in *. lia.
  - rewrite retried_dispatcher. reflexivity.
  - rewrite retried_loader. exact Hl1.
  - rewrite retried_loader. exact Hl2.
  - rewrite retried_log, completed_log. cbv zeta. rewrite !count_app.
    change (log (set_dispatcher b (disp [] []))) with (log b). rewrite He.
    cbn. lia.
  - rewrite retried_log, completed_log. cbv zeta. rewrite !count_app.
    change (log (set_dispatcher b (disp [] []))) with (log b). rewrite Hf.
    cbn. lia.
Qed.

Lemma after_final (n : nat) (b : App) (l : Loader.St) :
  waiting m n (disp [] [job0]) b ->
  Z.of_nat n < GoInt.max 1 m ->
  disk_ready (Loader.fs l) -> Loader.fs l !! tmp0 = None ->
  Loader.reqs l = S n ->
  ended m (S n)
    (completed jsonLen0 not_found (set_dispatcher b (disp [] [])) job0
               (task_of (file_pending n)) (file_pending n) l (Err "http 404")).
Proof.
  intros [Hc Ht Hd Hk Hr He Hf] Hn (Hl0 & Hl1 & _) Hl3 Hl2. split.
  - unfold quiescent, step. rewrite completed_dispatcher. reflexivity.
  - rewrite completed_loader. repeat split; assumption.
  - rewrite completed_tasks. cbv zeta. change (TaskID job0) with id0.
    rewrite lookup_insert_eq.
    change (Z.to_nat (FileIndex job0)) with O.
    rewrite completion_of_one_file.
    eexists. eexists. split; [reflexivity|]. split; [reflexivity|].
    repeat split.
    cbn [to_finished to_running file_in Attempts].
    unfold GoInt.add. rewrite wrap_id.
    + lia.
    + unfold GoInt.in_range, GoInt.min_int, GoInt.max_int in *.
      unfold GoInt.max in Hn. destruct (1 >? m); lia.
  - rewrite completed_loader. exact Hl2.
  - rewrite completed_log. cbv zeta. rewrite !count_app.
    change (log (set_dispatcher b (disp [] []))) with (log b). rewrite He.
    cbn. lia.
  - rewrite completed_log. cbv zeta. rewrite !count_app.
    change (log (set_dispatcher b (disp [] []))) with (log b). rewrite Hf.
    cbn. lia.
Qed.

(** From a state with [n] attempts made and [r] to go. *)
Lemma run_waiting (r : nat) : forall (n : nat) (a : App) (extra : nat),
  waiting m n (disp [job0] []) a ->
  Z.of_nat (n + S r) = GoInt.max 1 m ->
  ended m (n + S r) (run jsonLen0 parse_fake not_found (2 * S r + extra) a).
Proof.
  induction r as [|r IH]; intros n a extra Hw Hn.
  - destruct (step_schedule n a Hw) as (b & Hb & Hwb).
    destruct (step_work n b Hwb) as (l & Hl1 & Hl3 & Hl2 & Hstep); [lia|].
    cbv zeta in Hstep.
    change (2 * 1 + extra)%nat with (S (S extra)).
    cbn [run]. rewrite Hb. cbn [run]. rewrite Hstep.
    rewrite ltb_false.
    + replace (n + 1)%nat with (S n) by lia.
      rewrite run_quiescent; [apply after_final; [assumption | lia | assumption..]|].
      apply after_final; [assumption | lia | assumption..].
    + unfold GoInt.max in Hn. destruct (1 >? m) eqn:E; [|lia].
      rewrite Z.gtb_ltb in E. apply Z.ltb_lt in E. lia.
  - destruct (step_schedule n a Hw) as (b & Hb & Hwb).
    destruct (step_work n b Hwb) as (l & Hl1 & _ & Hl2 & Hstep); [lia|].
    cbv zeta in Hstep.
    assert (Z.of_nat (S n) < m) as Hlt.
    { unfold GoInt.max in Hn. destruct (1 >? m); lia. }
    replace (2 * S (S r) + extra)%nat with (S (S (2 * S r + extra))) by lia.
    cbn [run]. rewrite Hb. cbn [run]. rewrite Hstep.
    rewrite ltb_true by exact Hlt.
    replace (n + S (S r))%nat with (S n + S r)%nat by lia.
    apply IH.
    + now apply after_retry.
    + rewrite <- Hn. f_equal. lia.
Qed.
End Steps.

(** C1, as amended. For a task with one URL whose server answers 404 to
    every request, and with [max_attempts = retries = m]: each call of
    [Fetch] fails on its first request, the completion phase records FAILED
    and one more attempt, and while [attempts < m] the worker resets the
    file to PENDING and sends its job to the intake again. The run ends
    with the file FAILED, the task FAILED, and [attempts = max(1, m)]
    after as many requests; the job was enqueued that many times; and no
    file is left on the disk: nothing is at the destination, the staging
    file is gone, and the disk holds directories only. *)
Theorem C1_permanent_failure_is_retried (m : Z) (extra : nat) :
  GoInt.in_range m ->
  exists a,
    finished not_found (conf_with m)
             (2 * Z.to_nat (GoInt.max 1 m) + extra) = Ok a /\
    ended m (Z.to_nat (GoInt.max 1 m)) a.
Proof.
  intros Hm. unfold finished. rewrite submitted_app0. eexists. split; [reflexivity|].
  assert (exists r, Z.to_nat (GoInt.max 1 m) = S r) as [r Hr] by apply attempts_S.
  rewrite Hr. apply (run_waiting m Hm r O (app0 m) extra (waiting_app0 m)).
  change (0 + S r)%nat with (S r). rewrite <- Hr. rewrite Z2Nat.id; [reflexivity|].
  unfold GoInt.max. destruct (1 >? m) eqn:E; [lia|].
  rewrite Z.gtb_ltb in E. apply Z.ltb_ge in E. lia.
Qed.

Lemma C1_permanent_failure_is_retried_witness :
  exists a,
    finished not_found (conf_with 3) (2 * Z.to_nat (GoInt.max 1 3) + 0) = Ok a /\
    ended 3 (Z.to_nat (GoInt.max 1 3)) a.
Proof.
  apply (C1_permanent_failure_is_retried 3 0).
  unfold GoInt.in_range, GoInt.min_int, GoInt.max_int. lia.
Defined.

(** With three attempts allowed the 404 is not final after the first one:
    the run ends with three attempts and three sends of the job. *)
Lemma C1_permanent_failure_counterexample :
  ~ (forall m : Z, GoInt.in_range m ->
       exists a t f,
         finished not_found (conf_with m) 100 = Ok a /\
         tasks a !! id0 = Some t /\ Files t = [f] /\
         State f = FileFailed /\ Attempts f = 1 /\
         count is_enqueue (log a) = 1%nat).
Proof.
  intros H. destruct (H 3) as (a & t & f & Ha & Ht & Hf & _ & Hk & _).
  { unfold GoInt.in_range, GoInt.min_int, GoInt.max_int. lia. }
  vm_compute in Ha. injection Ha as <-.
  vm_compute in Ht. injection Ht as <-.
  injection Hf as <-. discriminate Hk.
Qed.

End Scenario404.

Module Scenario500.
Import Core Store Queue Sys AppM Scenario OneFile RunFacts.







End Scenario500.

(* ------------------------------------------------------------------ *)
(** ** Recovery at startup *)

Module RecoveryFacts.
Import Core Store Queue Sys AppM AppFields StoreTerms StoreFacts RecoveryTerms.

(** *** The dispatcher keeps every job it is sent *)

Lemma held_sched_job (d : Dispatcher) : held (sched_job d) ≡ₚ held d.
Proof.
  destruct d as [inq ic outq oc bl dr cl ocl].
  unfold sched_job, held, IsDrain, try_send_out, with_backlog, with_in, with_out.
  cbn [jobInCh taskCh backlog drain workerBuffer inBuffer closed out_closed].
  destruct inq as [|j rest]; [reflexivity|].
  destruct dr.
  - cbn [jobInCh taskCh backlog]. rewrite <- !app_assoc. reflexivity.
  - destruct (length outq <? oc)%nat; cbn [jobInCh taskCh backlog].
    + rewrite <- !app_assoc. cbn [app].
      apply Permutation_app_head. apply Permutation_middle.
    + rewrite <- !app_assoc. reflexivity.
Qed.

Lemma held_send_in (d : Dispatcher) (j : Job) : held (send_in d j) ≡ₚ held d ++ [j].
Proof.
  unfold send_in.
  set (d' := if (length (jobInCh d) <? inBuffer d)%nat then d else sched_job d).
  assert (held d' ≡ₚ held d) as <-.
  { unfold d'. destruct (_ <? _)%nat; [reflexivity | apply held_sched_job]. }
  unfold held, with_in. cbn [jobInCh taskCh backlog]. now rewrite !app_assoc.
Qed.

(** *** [enqueue_all] *)

Lemma enqueue_all_fields (js : list Job) : forall a : App,
  Conf (enqueue_all a js) = Conf a /\
  tasks (enqueue_all a js) = tasks a /\
  loader (enqueue_all a js) = loader a /\
  log (enqueue_all a js) = log a ++ map EvEnqueue js /\
  held (dispatcher (enqueue_all a js)) ≡ₚ held (dispatcher a) ++ js.
Proof.
  unfold enqueue_all.
  induction js as [|j js IH]; intros a; cbn [fold_left map].
  - rewrite !app_nil_r. repeat split; reflexivity.
  - destruct (IH (enqueue a j)) as (H1 & H2 & H3 & H4 & H5).
    rewrite H1, H2, H3, H4, H5. autorewrite with app_fields.
    rewrite held_send_in, <- !app_assoc. repeat split; reflexivity.
Qed.

(** *** The jobs of a task *)

Lemma elem_of_pending_jobs_from (id : string) (fs : list FileItem) : forall k j,
  j ∈ pending_jobs_from id k fs <->
  exists i f, fs !! i = Some f /\ State f = FilePending /\
              j = mkJob id (k + Z.of_nat i) (Host f).
Proof.
  induction fs as [|f fs IH]; intros k j; cbn [pending_jobs_from].
  - split; [intros H; inversion H | intros (i & f & H & _); discriminate H].
  - assert (j ∈ pending_jobs_from id (k + 1) fs <->
            exists i f0, (f :: fs) !! S i = Some f0 /\ State f0 = FilePending /\
                         j = mkJob id (k + Z.of_nat (S i)) (Host f0)) as Htl.
    { rewrite IH. split; intros (i & f0 & H1 & H2 & H3); exists i, f0;
        (split; [exact H1|]; split; [exact H2|]); rewrite H3; f_equal; lia. }
    destruct (State f) eqn:E.
    + rewrite elem_of_cons, Htl. split.
      * intros [->|(i & f0 & H)].
        -- exists O, f. rewrite Z.add_0_r. auto.
        -- exists (S i), f0. exact H.
      * intros (i & f0 & H1 & H2 & H3). destruct i as [|i].
        -- left. cbn in H1. inversion H1; subst. now rewrite Z.add_0_r.
        -- right. exists i, f0. auto.
    + rewrite Htl. split.
      * intros (i & f0 & H). exists (S i), f0. exact H.
      * intros (i & f0 & H1 & H2 & H3). destruct i as [|i].
        -- cbn in H1. inversion H1; subst. congruence.
        -- exists i, f0. auto.
    + rewrite Htl. split.
      * intros (i & f0 & H). exists (S i), f0. exact H.
      * intros (i & f0 & H1 & H2 & H3). destruct i as [|i].
        -- cbn in H1. inversion H1; subst. congruence.
        -- exists i, f0. auto.
    + rewrite Htl. split.
      * intros (i & f0 & H). exists (S i), f0. exact H.
      * intros (i & f0 & H1 & H2 & H3). destruct i as [|i].
        -- cbn in H1. inversion H1; subst. congruence.
        -- exists i, f0. auto.
Qed.

Lemma elem_of_pending_jobs (t : Task) (j : Job) :
  j ∈ pending_jobs t <->
  exists i f, Files t !! i = Some f /\ State f = FilePending /\
              j = mkJob (ID t) (Z.of_nat i) (Host f).
Proof. unfold pending_jobs. now rewrite elem_of_pending_jobs_from. Qed.

(** *** One recovered task, and the loop over the recovered tasks *)

Lemma recover_one_fields (a : App) (t : Task) :
  Conf (recover_one a t) = Conf a /\
  tasks (recover_one a t) = register (tasks a) t /\
  loader (recover_one a t) = loader a /\
  log (recover_one a t) = log a ++ map EvEnqueue (pending_jobs (recover_task t)) /\
  held (dispatcher (recover_one a t)) ≡ₚ
    held (dispatcher a) ++ pending_jobs (recover_task t).
Proof.
  unfold recover_one.
  destruct (enqueue_all_fields (pending_jobs (recover_task t))
              (put_task a (ID (recover_task t)) (recover_task t)))
    as (H1 & H2 & H3 & H4 & H5).
  rewrite H1, H2, H3, H4, H5. autorewrite with app_fields.
  repeat split; reflexivity.
Qed.

Lemma recover_all_fields (l : list Task) : forall a : App,
  let a' := fold_left recover_one l a in
  Conf a' = Conf a /\
  tasks a' = fold_left register l (tasks a) /\
  loader a' = loader a /\
  log a' = log a ++ map EvEnqueue (jobs_of l) /\
  held (dispatcher a') ≡ₚ held (dispatcher a) ++ jobs_of l.
Proof.
  induction l as [|t l IH]; intros a; cbn [fold_left jobs_of flat_map map].
  - rewrite !app_nil_r. repeat split; reflexivity.
  - destruct (IH (recover_one a t)) as (H1 & H2 & H3 & H4 & H5).
    destruct (recover_one_fields a t) as (G1 & G2 & G3 & G4 & G5).
    cbv zeta. rewrite H1, H2, H3, H4, H5, G1, G2, G3, G4, G5.
    fold (jobs_of l). rewrite map_app, <- !app_assoc. repeat split; reflexivity.
Qed.

Lemma register_other (l : list Task) : forall (m0 : gmap string Task) id,
  id ∉ ID <$> l -> fold_left register l m0 !! id = m0 !! id.
Proof.
  induction l as [|t l IH]; intros m0 id H; [reflexivity|].
  cbn [fold_left]. rewrite fmap_cons, not_elem_of_cons in H. destruct H as [H1 H2].
  rewrite IH by exact H2. unfold register. now rewrite lookup_insert_ne.
Qed.

Lemma register_member (l : list Task) : forall (m0 : gmap string Task) t,
  NoDup (ID <$> l) -> t ∈ l ->
  fold_left register l m0 !! ID t = Some (recover_task t).
Proof.
  induction l as [|t' l IH]; intros m0 t Hnd Ht; [inversion Ht|].
  rewrite fmap_cons in Hnd. apply NoDup_cons in Hnd as [Hn Hnd].
  cbn [fold_left]. apply elem_of_cons in Ht as [->|Ht].
  - rewrite register_other by exact Hn. unfold register. apply lookup_insert_eq.
  - now apply IH.
Qed.

(** *** The recovered map and the order of its traversal *)

Section Order.
Variable m : gmap string Task.
Variable l : list Task.
Hypothesis m_keyed : keyed m.
Hypothesis l_perm : l ≡ₚ (map_to_list m).*2.

Lemma member_lookup (t : Task) : t ∈ l <-> m !! ID t = Some t.
Proof.
  rewrite l_perm, list_elem_of_fmap. split.
  - intros ([k t'] & -> & H). apply elem_of_map_to_list in H.
    cbn. now rewrite (m_keyed k t' H).
  - intros H. exists (ID t, t). split; [reflexivity|].
    now apply elem_of_map_to_list.
Qed.

Lemma ids_keys : ID <$> (map_to_list m).*2 = (map_to_list m).*1.
Proof.
  assert (Forall (fun p => ID p.2 = p.1) (map_to_list m)) as H.
  { apply Forall_forall. intros [k t] Hp. apply elem_of_map_to_list in Hp.
    cbn. now apply m_keyed. }
  clear l_perm. induction H as [|[k t] L Hk _ IH]; [reflexivity|].
  rewrite !fmap_cons. cbn [fst snd] in *. now rewrite Hk, IH.
Qed.

Lemma ids_NoDup : NoDup (ID <$> l).
Proof. rewrite l_perm, ids_keys. apply NoDup_fst_map_to_list. Qed.

Lemma registered (id : string) :
  fold_left register l ∅ !! id = recover_task <$> m !! id.
Proof.
  destruct (m !! id) as [t|] eqn:E; cbn.
  - pose proof (m_keyed id t E) as <-.
    apply register_member; [apply ids_NoDup | now apply member_lookup].
  - rewrite register_other; [apply lookup_empty|].
    intros H. apply list_elem_of_fmap in H as (t & -> & Ht).
    apply member_lookup in Ht. congruence.
Qed.

Lemma elem_of_jobs_of (j : Job) :
  j ∈ jobs_of l <->
  exists t i f,
    fold_left register l ∅ !! TaskID j = Some t /\ Files t !! i = Some f /\
    State f = FilePending /\ j = mkJob (ID t) (Z.of_nat i) (Host f).
Proof.
  unfold jobs_of. rewrite list_elem_of_In, in_flat_map. split.
  - intros (t0 & Ht0 & Hj). apply list_elem_of_In in Ht0, Hj.
    apply elem_of_pending_jobs in Hj as (i & f & H1 & H2 & ->).
    exists (recover_task t0), i, f. repeat split; try assumption.
    cbn [TaskID]. change (ID (recover_task t0)) with (ID t0).
    rewrite registered. apply member_lookup in Ht0. now rewrite Ht0.
  - intros (t & i & f & Ht & H1 & H2 & ->). cbn [TaskID] in Ht.
    rewrite registered in Ht.
    destruct (m !! ID t) as [t0|] eqn:E; [|discriminate].
    cbn in Ht. inversion Ht; subst t.
    change (ID (recover_task t0)) with (ID t0) in E.
    exists t0. split.
    + apply list_elem_of_In, member_lookup. exact E.
    + apply list_elem_of_In, elem_of_pending_jobs. eauto.
Qed.
End Order.

(** *** The workers *)

Lemma worker_ids_S (k : nat) (i0 : Z) :
  worker_ids (S k) i0 = i0 :: worker_ids k (i0 + 1).
Proof.
  unfold worker_ids. cbn [seq]. rewrite fmap_cons. f_equal; [lia|].
  rewrite <- seq_shift. change (map S (seq 0 k)) with (S <$> seq 0 k).
  rewrite <- list_fmap_compose. apply list_fmap_ext. intros _ n _. cbn. lia.
Qed.

Lemma start_workers_fields (k : nat) : forall (i0 : Z) (a : App),
  let a' := start_workers k i0 a in
  Conf a' = Conf a /\ tasks a' = tasks a /\ dispatcher a' = dispatcher a /\
  loader a' = loader a /\
  log a' = log a ++ map EvWorkerStart (worker_ids k i0).
Proof.
  induction k as [|k IH]; intros i0 a; cbn [start_workers].
  - cbv zeta. unfold worker_ids. cbn. rewrite app_nil_r. repeat split; reflexivity.
  - destruct (IH (i0 + 1) (note a (EvWorkerStart i0))) as (H1 & H2 & H3 & H4 & H5).
    cbv zeta. rewrite H1, H2, H3, H4, H5. autorewrite with app_fields.
    repeat split; try reflexivity.
    rewrite <- app_assoc. f_equal. now rewrite worker_ids_S.
Qed.
End RecoveryFacts.

Module RecoveryClaims.
Import Core Store Queue Sys AppM AppFields StoreTerms StoreFacts StatusTerms StatusFacts RecoveryTerms RecoveryFacts.

Lemma reset_running_spec (f0 : FileItem) : was_reset f0 (reset_running f0).
Proof.
  unfold was_reset, reset_running. destruct (State f0); try reflexivity.
  repeat split.
Qed.

Lemma recover_task_files (t0 : Task) :
  Forall2 was_reset (Files t0) (Files (recover_task t0)).
Proof.
  change (Files (recover_task t0)) with (map reset_running (Files t0)).
  induction (Files t0) as [|f fs IH]; constructor;
    [apply reset_running_spec | exact IH].
Qed.

Lemma recover_task_spec (t0 : Task) : recovered_from t0 (recover_task t0).
Proof.
  unfold recovered_from.
  do 4 (split; [reflexivity|]).
  split; [apply recover_task_files|]. split; [apply Recompute_census|].
  intros H. apply StatusClaims.Recompute_status_ok. cbn.
  destruct (Files t0); [congruence | discriminate].
Qed.

(** C3. At startup, once the journal has been read, every recovered task
    is registered under its id with its RUNNING files reset to PENDING
    (error and timestamps cleared) and its aggregates and status
    recomputed; the jobs sent to the intake are exactly the PENDING files
    of the registered tasks, and the dispatcher holds them all; and in the
    order of events every send comes before the start of the first of the
    workers, of which there is at least one. *)
Theorem C3_recovery_before_workers
        (range_order : gmap string Task -> list Task) (conf : Config)
        (fs0 fs1 fs2 : FS) (w : WAL) (m : gmap string Task) :
  (forall m', range_order m' ≡ₚ (map_to_list m').*2) ->
  MkdirAll fs0 (DataDir conf) = Some fs1 ->
  MkdirAll fs1 (DownloadDir conf) = Some fs2 ->
  RecoverTasks w = Ok m ->
  exists (a : App) (js : list Job) (k : nat),
    New range_order conf fs0 w = Ok a /\
    (forall id, tasks a !! id = recover_task <$> m !! id) /\
    (forall id t0, m !! id = Some t0 ->
       exists t, tasks a !! id = Some t /\ recovered_from t0 t) /\
    (forall j, j ∈ js <->
       exists t i f,
         tasks a !! TaskID j = Some t /\ Files t !! i = Some f /\
         State f = FilePending /\ j = mkJob (ID t) (Z.of_nat i) (Host f)) /\
    held (dispatcher a) ≡ₚ js /\
    (1 <= k)%nat /\
    log a = map EvEnqueue js ++ map EvWorkerStart (worker_ids k 0).
Proof.
  intros Hperm H1 H2 Hm.
  pose proof (RecoverTasks_keyed w m Hm) as Hkeyed.
  set (l := range_order m).
  set (a0 := mkApp conf w ∅ (NewDispatcher (Z.to_nat 10000) (Z.to_nat 1024))
                   (Loader.mkSt fs2 O []) O []).
  set (k := Z.to_nat (GoInt.max 1 (Workers conf))).
  exists (start_workers k 0 (fold_left recover_one l a0)), (jobs_of l), k.
  destruct (recover_all_fields l a0) as (_ & Rt & _ & Rl & Rh). cbv zeta in *.
  destruct (start_workers_fields k 0 (fold_left recover_one l a0))
    as (_ & St & Sd & _ & Sl). cbv zeta in *.
  change (tasks a0) with (∅ : gmap string Task) in Rt.
  assert (forall id,
            tasks (start_workers k 0 (fold_left recover_one l a0)) !! id =
              recover_task <$> m !! id) as Hreg.
  { intros id. rewrite St, Rt. apply (registered m l Hkeyed (Hperm m)). }
  split; [|split; [|split; [|split; [|split; [|split]]]]].
  - unfold New. rewrite H1, H2. unfold recoverFromWAL.
    change (wal (mkApp conf w _ _ _ _ _)) with w. rewrite Hm. reflexivity.
  - exact Hreg.
  - intros id t0 Ht0. exists (recover_task t0). split.
    + now rewrite Hreg, Ht0.
    + apply recover_task_spec.
  - intros j. rewrite St, Rt. apply (elem_of_jobs_of m l Hkeyed (Hperm m)).
  - rewrite Sd, Rh. reflexivity.
  - destruct (LoaderFacts.attempts_S (Workers conf)) as [k' Hk'].
    unfold k. rewrite Hk'. lia.
  - rewrite Sl, Rl. reflexivity.
Qed.

Lemma C3_recovery_before_workers_witness :
  exists (a : App) (js : list Job) (k : nat),
    New Scenario.in_order Scenario.conf3 ∅ journal4 = Ok a /\
    (forall id, tasks a !! id = recover_task <$> recovered4 !! id) /\
    (forall id t0, recovered4 !! id = Some t0 ->
       exists t, tasks a !! id = Some t /\ recovered_from t0 t) /\
    (forall j, j ∈ js <->
       exists t i f,
         tasks a !! TaskID j = Some t /\ Files t !! i = Some f /\
         State f = FilePending /\ j = mkJob (ID t) (Z.of_nat i) (Host f)) /\
    held (dispatcher a) ≡ₚ js /\
    (1 <= k)%nat /\
    log a = map EvEnqueue js ++ map EvWorkerStart (worker_ids k 0).
Proof.
  apply (C3_recovery_before_workers Scenario.in_order Scenario.conf3
           ∅ disk1 disk2 journal4 recovered4).
  - intros m'. reflexivity.
  - vm_compute. reflexivity.
  - vm_compute. reflexivity.
  - vm_compute. reflexivity.
Defined.

(** The run of [New] on that journal: T1 is kept, the RUNNING file of T2
    is PENDING again, and both files of T2 are on the intake before the
    four workers start. *)
Lemma recovery_of_two_tasks :
  exists a,
    New Scenario.in_order Scenario.conf3 ∅ journal4 = Ok a /\
    tasks a !! "T1" = Some T1 /\
    option_map (fun t => map State (Files t)) (tasks a !! "T2")
      = Some [FilePending; FilePending] /\
    option_map Status (tasks a !! "T2") = Some TaskPending /\
    log a = [EvEnqueue (mkJob "T2" 0 "fake"); EvEnqueue (mkJob "T2" 1 "fake");
             EvWorkerStart 0; EvWorkerStart 1; EvWorkerStart 2; EvWorkerStart 3] /\
    jobInCh (dispatcher a) = [mkJob "T2" 0 "fake"; mkJob "T2" 1 "fake"].
Proof. eexists. split; [vm_compute; reflexivity|]. vm_compute. repeat split. Qed.
End RecoveryClaims.

(* ------------------------------------------------------------------ *)
(** ** Task construction and the aggregates, in full *)

Module TaskFacts.
Import Core StatusTerms StatusFacts SanitizeTerms SanitizeFacts TaskTerms LoaderFacts.

Lemma retries_fold (fs : list FileItem) : forall c,
  Forall (fun f => 0 <= Attempts f) fs ->
  0 <= c_retries c ->
  c_retries c + attempts_total fs <= GoInt.max_int ->
  c_retries (fold_left census_step fs c) = c_retries c + attempts_total fs.
Proof.
  induction fs as [|f fs IH]; intros c Hall Hc Hsum; simpl in *; [lia|].
  apply Forall_cons in Hall as [Hf Hfs].
  assert (0 <= attempts_total fs) as Hnn.
  { clear -Hfs. induction fs as [|g fs IH]; simpl; [lia|].
    apply Forall_cons in Hfs as [Hg Hfs]. specialize (IH Hfs). lia. }
  assert (c_retries (census_step c f) = c_retries c + Attempts f) as E.
  { unfold census_step.
    assert (GoInt.add (c_retries c) (Attempts f) = c_retries c + Attempts f) as ->.
    { apply wrap_id. unfold GoInt.in_range, GoInt.min_int, GoInt.max_int in *. lia. }
    now destruct (State f). }
  rewrite IH; [rewrite E; lia | assumption | rewrite E; lia | rewrite E; lia].
Qed.

Lemma newFiles_fresh url_Parse (m : Z) (links : list string) : forall fs,
  newFiles url_Parse links m = Ok fs ->
  Forall (valid_link url_Parse) links /\ Forall2 (fresh_file url_Parse m) links fs.
Proof.
  induction links as [|l links IH]; intros fs H; simpl in H.
  - inversion H; subst. split; constructor.
  - destruct (newFile url_Parse l m) as [f|] eqn:Ef; [|discriminate].
    destruct (newFiles url_Parse links m) as [fs'|] eqn:Efs; [|discriminate].
    inversion H; subst. destruct (IH fs' eq_refl) as [Hv Hf].
    unfold newFile in Ef. destruct (url_Parse l) as [u|] eqn:Eu; [|discriminate].
    destruct (String.eqb (Scheme u) EmptyString) eqn:Es; [discriminate|].
    destruct (String.eqb (UHost u) EmptyString) eqn:Eh; [discriminate|].
    simpl in Ef. inversion Ef; subst. split.
    + constructor; [|exact Hv]. exists u. split; [exact Eu|].
      split; [now apply String.eqb_neq | now apply String.eqb_neq].
    + constructor; [|exact Hf].
      unfold fresh_file. simpl. repeat split.
      * apply sanitize_clean.
      * now exists u.
Qed.

Lemma newFiles_valid url_Parse (m : Z) (links : list string) :
  Forall (valid_link url_Parse) links ->
  exists fs, newFiles url_Parse links m = Ok fs.
Proof.
  induction 1 as [|l links (u & Eu & Es & Eh) _ [fs IH]]; simpl.
  - now exists [].
  - unfold newFile. rewrite Eu.
    apply String.eqb_neq in Es, Eh. rewrite Es, Eh. simpl.
    rewrite IH. eauto.
Qed.

Lemma fresh_all_pending url_Parse (m : Z) (links : list string) (fs : list FileItem) :
  Forall2 (fresh_file url_Parse m) links fs ->
  Forall (fun f => State f = FilePending) fs /\ Forall (fun f => Attempts f = 0) fs.
Proof.
  induction 1 as [|l f links fs Hf _ [IH1 IH2]]; [split; constructor|].
  destruct Hf as (_ & Hs & _ & Ha & _). split; now constructor.
Qed.

Lemma count_other (st st' : FileState) (fs : list FileItem) :
  st <> st' -> Forall (fun f => State f = st) fs -> count_state st' fs = 0.
Proof.
  intros Hne H. induction H as [|f fs Hf _ IH]; [reflexivity|].
  rewrite count_state_cons, IH.
  destruct (decide (State f = st')); [congruence | reflexivity].
Qed.

Lemma all_pending_status (t : Task) :
  Files t <> [] -> Forall (fun f => State f = FilePending) (Files t) ->
  Status (RecomputeStatus t) = TaskPending.
Proof.
  intros Hne Hp. rewrite Recompute_Status.
  rewrite (count_other FilePending FileDone), (count_other FilePending FileFailed),
    (count_other FilePending FileRunning) by (discriminate || exact Hp).
  apply count_all in Hp. rewrite Hp.
  unfold derive_status.
  assert (0 < Z.of_nat (length (Files t))) as Hpos.
  { destruct (Files t); [congruence | simpl; lia]. }
  rewrite gtb_true by lia.
  destruct (Z.eqb_spec 0 (Z.of_nat (length (Files t)))) as [E|E]; [lia|].
  reflexivity.
Qed.

End TaskFacts.

Module TaskProps.
Import Core StatusTerms StatusFacts SanitizeTerms SanitizeFacts TaskTerms TaskFacts.

(** X3. The status [RecomputeStatus] derives, characterised in both
    directions: COMPLETE exactly for a non-empty task whose files are all
    DONE, FAILED exactly for a non-empty task whose files are all FAILED,
    RUNNING exactly when some file is RUNNING, PARTIAL exactly when there
    are DONE and FAILED files and none PENDING or RUNNING, and PENDING
    exactly when no file is RUNNING and the task is empty or has a PENDING
    file. *)
Theorem RecomputeStatus_characterised (t : Task) :
  (Status (RecomputeStatus t) = TaskComplete <->
     Files t <> [] /\ all_in FileDone t) /\
  (Status (RecomputeStatus t) = TaskFailed <->
     Files t <> [] /\ all_in FileFailed t) /\
  (Status (RecomputeStatus t) = TaskRunning <-> some_in FileRunning t) /\
  (Status (RecomputeStatus t) = TaskPartial <->
     some_in FileDone t /\ some_in FileFailed t /\
     ~ some_in FilePending t /\ ~ some_in FileRunning t) /\
  (Status (RecomputeStatus t) = TaskPending <->
     ~ some_in FileRunning t /\ (Files t = [] \/ some_in FilePending t)).
Proof.
  pose proof (Recompute_Status t) as HS.
  pose proof (count_total (Files t)) as Hsum.
  pose proof (count_all FileDone (Files t)) as AD.
  pose proof (count_all FileFailed (Files t)) as AF.
  pose proof (count_some FileRunning (Files t)) as SR.
  pose proof (count_some FileDone (Files t)) as SD.
  pose proof (count_some FileFailed (Files t)) as SF.
  pose proof (count_some FilePending (Files t)) as SP.
  pose proof (count_nonneg FileDone (Files t)).
  pose proof (count_nonneg FileFailed (Files t)).
  pose proof (count_nonneg FilePending (Files t)).
  pose proof (count_nonneg FileRunning (Files t)).
  assert (Files t <> [] <-> 0 < Z.of_nat (length (Files t))) as Hne.
  { destruct (Files t); simpl; split; intros; try congruence; lia. }
  assert (Files t = [] <-> Z.of_nat (length (Files t)) = 0) as He.
  { destruct (Files t); simpl; split; intros; try congruence; lia. }
  unfold all_in, some_in. rewrite HS, Hne, He, <- AD, <- AF, <- SR, <- SD, <- SF, <- SP.
  set (n := Z.of_nat (length (Files t))) in *.
  set (d := count_state FileDone (Files t)) in *.
  set (f := count_state FileFailed (Files t)) in *.
  set (p := count_state FilePending (Files t)) in *.
  set (r := count_state FileRunning (Files t)) in *.
  clearbody n d f p r. clear AD AF SR SD SF SP HS Hne He.
  unfold derive_status.
  rewrite !Z.gtb_ltb.
  destruct (Z.ltb_spec 0 n), (Z.eqb_spec d n), (Z.eqb_spec f n),
    (Z.ltb_spec 0 r), (Z.ltb_spec 0 d), (Z.ltb_spec 0 f),
    (Z.eqb_spec p 0), (Z.eqb_spec r 0); simpl;
    repeat split; intros; try discriminate; try lia; try reflexivity.
Qed.

(** X4. The aggregate [retries_total] is the sum of the attempts of the
    files, as long as that sum fits into an [int]. *)
Theorem Retries_is_attempts_total (t : Task) :
  Forall (fun f => 0 <= Attempts f) (Files t) ->
  attempts_total (Files t) <= GoInt.max_int ->
  Core.Retries (RecomputeStatus t) = attempts_total (Files t).
Proof.
  intros Hall Hsum. unfold RecomputeStatus. cbn [Core.Retries].
  rewrite retries_fold; try assumption; simpl; lia.
Qed.

Lemma Retries_is_attempts_total_witness :
  Core.Retries (RecomputeStatus RecoveryTerms.T1) = attempts_total (Files RecoveryTerms.T1).
Proof.
  apply (Retries_is_attempts_total RecoveryTerms.T1).
  - repeat constructor; vm_compute; discriminate.
  - vm_compute. discriminate.
Defined.

(** X5. [NewTask] succeeds exactly on a non-empty list of links each of which
    parses with a scheme and a host. *)
Theorem NewTask_accepts_iff url_Parse (id : string) (now : Z)
        (label destDir : string) (links : list string) (m : Z) :
  (exists t, NewTask url_Parse id now label destDir links m = Ok t) <->
  links <> [] /\ Forall (valid_link url_Parse) links.
Proof.
  unfold NewTask. split.
  - intros [t H]. destruct links as [|l links]; [discriminate|].
    split; [discriminate|].
    destruct (newFiles url_Parse (l :: links) m) as [fs|] eqn:E; [|discriminate].
    now apply newFiles_fresh in E as [Hv _].
  - intros [Hne Hv]. destruct links as [|l links]; [congruence|].
    destruct (newFiles_valid url_Parse m (l :: links) Hv) as [fs ->]. eauto.
Qed.

(** X6. The task [NewTask] returns: the identifier, label, creation time and
    destination directory it was given; one file per link, in order,
    PENDING, with no attempt made, the given maximum, no error and no
    timestamps, its host that of the link and its name free of the
    forbidden bytes; status PENDING; and the aggregates total = pending =
    number of links, the others zero. *)
Theorem NewTask_result url_Parse (id : string) (now : Z)
        (label destDir : string) (links : list string) (m : Z) (t : Task) :
  NewTask url_Parse id now label destDir links m = Ok t ->
  ID t = id /\ Label t = label /\ CreatedAt t = now /\ DestDir t = destDir /\
  Forall2 (fresh_file url_Parse m) links (Files t) /\
  Status t = TaskPending /\
  Total t = Z.of_nat (length links) /\ Pending t = Z.of_nat (length links) /\
  Done t = 0 /\ Failed t = 0 /\ Running t = 0 /\ Core.Retries t = 0.
Proof.
  unfold NewTask. destruct links as [|l links]; [discriminate|].
  destruct (newFiles url_Parse (l :: links) m) as [fs|] eqn:E; [|discriminate].
  intros H. inversion H; subst. clear H.
  apply newFiles_fresh in E as [_ Hf].
  set (t0 := mkTask id label now destDir TaskPending fs 0 0 0 0 0 0).
  pose proof (Forall2_length _ _ _ Hf) as Hlen.
  destruct (fresh_all_pending _ _ _ _ Hf) as [Hp Ha].
  pose proof (Recompute_census t0) as (HT & HD & HF & HP & HR & _).
  change (Files (RecomputeStatus t0)) with fs in *.
  rewrite (count_other FilePending FileDone) in HD by (discriminate || exact Hp).
  rewrite (count_other FilePending FileFailed) in HF by (discriminate || exact Hp).
  rewrite (count_other FilePending FileRunning) in HR by (discriminate || exact Hp).
  assert (count_state FilePending fs = Z.of_nat (length fs)) as HPn.
  { apply count_all. exact Hp. }
  do 4 (split; [reflexivity|]). split; [exact Hf|].
  split.
  { apply all_pending_status; [|exact Hp].
    change (Files t0) with fs. destruct fs; [discriminate | discriminate]. }
  rewrite Hlen. split; [exact HT|]. split; [now rewrite HP|].
  do 3 (split; [assumption|]).
  assert (attempts_total fs = 0) as Hz.
  { clear -Ha. induction Ha as [|g gs Hg _ IH]; simpl; [reflexivity | lia]. }
  unfold RecomputeStatus. cbn [Core.Retries Files t0].
  rewrite retries_fold.
  - rewrite Hz. reflexivity.
  - eapply Forall_impl; [exact Ha|]. intros g Hg. simpl in Hg. lia.
  - simpl. lia.
  - rewrite Hz. simpl. unfold GoInt.max_int. lia.
Qed.

Lemma NewTask_result_witness :
  exists t,
    NewTask parse_h "id" 7 "x" "t1" ["http://h/a.bin"; "http://h/b*c"] 3 = Ok t /\
    ID t = "id" /\ Label t = "x" /\ CreatedAt t = 7 /\ DestDir t = "t1" /\
    Forall2 (fresh_file parse_h 3) ["http://h/a.bin"; "http://h/b*c"] (Files t) /\
    Status t = TaskPending /\
    Total t = 2 /\ Pending t = 2 /\
    Done t = 0 /\ Failed t = 0 /\ Running t = 0 /\ Core.Retries t = 0.
Proof.
  eexists. split; [reflexivity|].
  apply (NewTask_result parse_h "id" 7 "x" "t1" ["http://h/a.bin"; "http://h/b*c"] 3).
  reflexivity.
Defined.

End TaskProps.

(* ------------------------------------------------------------------ *)
(** ** Journals with arbitrary lines *)

Module JournalProps.
Import Core Store StoreTerms StoreFacts AppM JournalTerms.

Lemma scan_snapshots (ls : list walLine) : forall m,
  Forall (fun l => line_len l < maxTokenSize) ls ->
  scan ls m = Ok (fold_left upsert (snapshots ls) m).
Proof.
  induction ls as [|l ls IH]; intros m H; [reflexivity|].
  apply Forall_cons in H as [Hl Hls]. simpl.
  rewrite geb_false by exact Hl.
  unfold snapshots. simpl. unfold snapshot at 1.
  destruct (line_json l) as [rec|]; [|now apply IH].
  destruct (String.eqb (Type_ rec) "upsert_task"); [|now apply IH].
  destruct (RTask rec) as [t|]; [|now apply IH].
  simpl. now apply IH.
Qed.

Lemma scan_long (ls : list walLine) : forall m,
  Exists (fun l => maxTokenSize <= line_len l) ls ->
  scan ls m = Err "bufio.Scanner: token too long".
Proof.
  induction ls as [|l ls IH]; intros m H; [inversion H|].
  simpl. destruct (Z_lt_ge_dec (line_len l) maxTokenSize) as [Hlt|Hge].
  - rewrite geb_false by exact Hlt.
    assert (Exists (fun l => maxTokenSize <= line_len l) ls) as H'.
    { apply Exists_cons in H as [H|H]; [lia | exact H]. }
    destruct (line_json l) as [rec|]; [|now apply IH].
    destruct (String.eqb (Type_ rec) "upsert_task"); [|now apply IH].
    destruct (RTask rec); now apply IH.
  - rewrite geb_true by lia. reflexivity.
Qed.

(** X7. Last write wins on any journal whose lines fit the scanner: lines
    that do not parse, records of another type and records without a
    task are passed over, and the recovered map holds for each id the
    last "upsert_task" snapshot with that id, and nothing else. *)
Theorem RecoverTasks_last_write_wins (w : WAL) :
  Forall (fun l => line_len l < maxTokenSize) (lines w) ->
  exists m,
    RecoverTasks w = Ok m /\
    forall id, m !! id = last_for id (snapshots (lines w)).
Proof.
  intros H. exists (fold_left upsert (snapshots (lines w)) ∅). split.
  - now apply scan_snapshots.
  - intros id. rewrite fold_upsert_lookup, lookup_empty.
    now destruct (last_for id _).
Qed.

Lemma RecoverTasks_last_write_wins_witness :
  exists m,
    RecoverTasks mixed_journal = Ok m /\
    forall id, m !! id = last_for id (snapshots (lines mixed_journal)).
Proof.
  apply (RecoverTasks_last_write_wins mixed_journal).
  repeat constructor.
Defined.

(** X8. One line that reaches the token limit of the scanner, anywhere in the
    journal, makes [RecoverTasks] fail, whatever the other lines hold;
    and [New] then fails too, so that the service does not start on that
    journal. *)
Theorem oversized_line_blocks_startup (w : WAL) :
  Exists (fun l => maxTokenSize <= line_len l) (lines w) ->
  RecoverTasks w = Err "bufio.Scanner: token too long" /\
  forall range_order conf fs0, exists e, New range_order conf fs0 w = Err e.
Proof.
  intros H. assert (RecoverTasks w = Err "bufio.Scanner: token too long") as E.
  { now apply scan_long. }
  split; [exact E|]. intros range_order conf fs0. unfold New.
  destruct (Sys.MkdirAll fs0 (DataDir conf)) as [fs1|]; [|eauto].
  destruct (Sys.MkdirAll fs1 (DownloadDir conf)) as [fs2|]; [|eauto].
  unfold recoverFromWAL. cbn [wal]. rewrite E. eauto.
Qed.

Lemma oversized_line_blocks_startup_witness :
  RecoverTasks oversized = Err "bufio.Scanner: token too long" /\
  forall range_order conf fs0, exists e, New range_order conf fs0 oversized = Err e.
Proof.
  apply (oversized_line_blocks_startup oversized).
  apply Exists_cons_tl, Exists_cons_hd. vm_compute. discriminate.
Defined.

End JournalProps.

(* ------------------------------------------------------------------ *)
(** ** The dispatcher *)

Module QueueFacts.
Import Queue QueueTerms.

Lemma flush_loop_spec (bl : list Job) : forall d,
  let k := Nat.min (length bl) (workerBuffer d - length (taskCh d)) in
  taskCh (flush_loop bl d) = taskCh d ++ take k bl /\
  backlog (flush_loop bl d) = drop k bl /\
  jobInCh (flush_loop bl d) = jobInCh d /\
  workerBuffer (flush_loop bl d) = workerBuffer d /\
  inBuffer (flush_loop bl d) = inBuffer d /\
  drain (flush_loop bl d) = drain d.
Proof.
  induction bl as [|j rest IH]; intros d; cbn zeta.
  - simpl. rewrite app_nil_r. repeat split.
  - cbn [flush_loop]. unfold try_send_out.
    destruct (Nat.ltb_spec (length (taskCh d)) (workerBuffer d)) as [Hlt|Hge].
    + specialize (IH (with_out d (taskCh d ++ [j]))). cbn zeta in IH.
      cbn [with_out taskCh workerBuffer jobInCh inBuffer drain] in IH.
      rewrite length_app in IH. cbn [length] in IH.
      destruct IH as (H1 & H2 & H3 & H4 & H5 & H6).
      replace (Nat.min (length (j :: rest)) (workerBuffer d - length (taskCh d)))
        with (S (Nat.min (length rest)
                         (workerBuffer d - (length (taskCh d) + 1))))
        by (cbn [length]; lia).
      rewrite H1, H2, <- app_assoc. repeat split; assumption.
    + replace (Nat.min (length (j :: rest)) (workerBuffer d - length (taskCh d)))
        with O by lia.
      simpl. rewrite app_nil_r. repeat split.
Qed.

End QueueFacts.

Module QueueProps.
Import Queue QueueTerms QueueFacts RecoveryFacts.

(** X9. [tryFlushBacklog] without drain: the worker channel receives the
    longest prefix of the backlog it has room for, in order and behind
    what it already holds; the rest of the backlog stays, in order; the
    intake is not touched. *)
Theorem tryFlushBacklog_fifo (d : Dispatcher) :
  drain d = false ->
  taskCh (tryFlushBacklog d) = taskCh d ++ take (room d) (backlog d) /\
  backlog (tryFlushBacklog d) = drop (room d) (backlog d) /\
  jobInCh (tryFlushBacklog d) = jobInCh d /\
  (length (taskCh d) <= workerBuffer d ->
   length (taskCh (tryFlushBacklog d)) <= workerBuffer d)%nat.
Proof.
  intros Hd. unfold tryFlushBacklog, IsDrain. rewrite Hd.
  destruct (flush_loop_spec (backlog d) d) as (H1 & H2 & H3 & _).
  fold (room d) in H1, H2.
  split; [exact H1|]. split; [exact H2|]. split; [exact H3|].
  intros Hcap. rewrite H1, length_app, length_take. unfold room. lia.
Qed.

Lemma tryFlushBacklog_fifo_witness :
  taskCh (tryFlushBacklog crowded) = taskCh crowded ++ take (room crowded) (backlog crowded) /\
  backlog (tryFlushBacklog crowded) = drop (room crowded) (backlog crowded) /\
  jobInCh (tryFlushBacklog crowded) = jobInCh crowded /\
  (length (taskCh crowded) <= workerBuffer crowded ->
   length (taskCh (tryFlushBacklog crowded)) <= workerBuffer crowded)%nat.
Proof. apply (tryFlushBacklog_fifo crowded). reflexivity. Defined.

(** X10. The dispatcher neither loses nor duplicates a job: the scheduler's
    handling of an arrival and the flush of the backlog keep the jobs
    held, a send to the intake adds exactly the job sent, and the
    switches of drain and [Close] leave them alone. *)
Theorem dispatcher_conserves_jobs (d : Dispatcher) (j : Job) (on : bool) :
  held (sched_job d) ≡ₚ held d /\
  held (tryFlushBacklog d) ≡ₚ held d /\
  held (send_in d j) ≡ₚ held d ++ [j] /\
  held (Drain d on) = held d /\
  held (Close d) = held d.
Proof.
  split; [apply held_sched_job|]. split; [|split; [apply held_send_in|]].
  - unfold tryFlushBacklog. destruct (IsDrain d); [reflexivity|].
    destruct (flush_loop_spec (backlog d) d) as (H1 & H2 & H3 & _).
    unfold held. rewrite H1, H2, H3, <- app_assoc.
    rewrite (app_assoc (take _ _)), take_drop. reflexivity.
  - split; [reflexivity|]. unfold Close. now destruct (closed d).
Qed.

End QueueProps.

(* ------------------------------------------------------------------ *)
(** ** Lengths of cleaned paths *)

Module PathFacts.
Import GoStr GoPath UniquePathFacts PathTerms.








Lemma length_take (k : nat) : forall s,
  (String.length (take k s) <= String.length s)%nat.
Proof.
  induction k as [|k IH]; intros s; [simpl; lia|].
  destruct s as [|c s]; simpl; [lia|]. specialize (IH s). lia.
Qed.


(** The staging path is neither the destination nor its directory. *)
Lemma tmp_not_dest (p : string) : Loader.tmpPath p <> p.
Proof.
  unfold Loader.tmpPath. intros H. apply (f_equal String.length) in H.
  rewrite length_append in H. simpl in H. lia.
Qed.


End PathFacts.

(* ------------------------------------------------------------------ *)
(** ** Directories *)

Module DiskFacts.
Import Sys.




End DiskFacts.

(* ------------------------------------------------------------------ *)
(** ** The loop of the fetcher *)

Module FetchFacts.
Import Core Sys Loader FetchTerms PathFacts DiskFacts LoaderFacts.

Section Loop.
Variable world : World.
Variables rawURL destPath : string.

Local Abbreviation tmp := (tmpPath destPath).
Local Abbreviation dir := (GoPath.Dir destPath).

(** One iteration of the loop of [Fetch], by the attempt it meets. *)
Lemma fetch_loop_S (k : nat) (s : St) (lastErr : option string) (backoff : Z) :
  fetch_loop world rawURL destPath (S k) s lastErr backoff =
    let a := w_attempt world rawURL (reqs s) in
    let wait (s : St) (lastErr : option string) : St * result Z :=
      let s := emit s (EvBackoff backoff) in
      if at_ctx_done a then (s, Err ctx_err)
      else fetch_loop world rawURL destPath k s lastErr (GoInt.mul backoff 2) in
    match at_request_err a with
    | Some e => (s, Err e)
    | None =>
        let s := emit s (EvMkdirAll dir) in
        match at_mkdir_err a, MkdirAll (fs s) dir with
        | Some e, _ => (s, Err e)
        | None, None => (s, Err "mkdir: not a directory")
        | None, Some fs1 =>
            let s := set_fs s fs1 in
            match at_create_err a with
            | Some e => (s, Err e)
            | None =>
                let s := emit (set_fs s (<[tmp := File 0]> (fs s))) (EvCreate tmp) in
                let s := mkSt (fs s) (S (reqs s)) (trace s ++ [EvDo rawURL]) in
                match at_http a with
                | TransportError e => wait (out_Close s tmp) (Some e)
                | Response status written copyErr =>
                    if (status <? 200) || (status >=? 300) then
                      let s := os_Remove (out_Close s tmp) tmp in
                      let e := String.append "http " (GoStr.fmt_d status) in
                      if (status >=? 500) && (status <? 600)
                      then wait s (Some e)
                      else (s, Err e)
                    else
                      let s := set_fs s (<[tmp := File written]> (fs s)) in
                      let s := out_Close s tmp in
                      match copyErr with
                      | Some e => wait (os_Remove s tmp) (Some e)
                      | None =>
                          match at_close_err a with
                          | Some e => wait (os_Remove s tmp) (Some e)
                          | None =>
                              match at_rename_err a with
                              | Some e => wait (os_Remove s tmp) (Some e)
                              | None =>
                                  let s := set_fs s (<[destPath := File written]>
                                                       (delete tmp (fs s))) in
                                  (emit s (EvRename tmp destPath), Ok written)
                              end
                          end
                      end
                end
            end
        end
    end.
Proof. reflexivity. Qed.

Lemma loop_success (k : nat) : forall s lastErr backoff s' w,
  fetch_loop world rawURL destPath k s lastErr backoff = (s', Ok w) ->
  fs s' !! destPath = Some (File w) /\ fs s' !! tmp = None /\
  last (trace s') = Some (EvRename tmp destPath) /\ (reqs s < reqs s')%nat.
Proof.
  induction k as [|k IH]; intros s lastErr backoff s' w H; [discriminate H|].
  rewrite fetch_loop_S in H. cbv zeta in H.
  assert (forall s1 le, reqs s1 = S (reqs s) ->
            (if at_ctx_done (w_attempt world rawURL (reqs s))
             then (emit s1 (EvBackoff backoff), Err ctx_err)
             else fetch_loop world rawURL destPath k (emit s1 (EvBackoff backoff)) le
                    (GoInt.mul backoff 2)) = (s', Ok w) ->
            fs s' !! destPath = Some (File w) /\ fs s' !! tmp = None /\
            last (trace s') = Some (EvRename tmp destPath) /\ (reqs s < reqs s')%nat)
    as Wait.
  { intros s1 le Hr Hw. destruct (at_ctx_done _); [discriminate Hw|].
    apply IH in Hw as (H1 & H2 & H3 & H4). cbn [emit reqs] in H4.
    repeat split; try assumption. lia. }
  destruct (at_request_err _); [discriminate H|].
  destruct (at_mkdir_err _); [discriminate H|].
  destruct (MkdirAll _ _) as [fs1|]; [|discriminate H].
  destruct (at_create_err _); [discriminate H|].
  destruct (at_http _) as [e|status written copyErr].
  - eapply Wait; [|exact H]. reflexivity.
  - destruct ((status <? 200) || (status >=? 300)).
    + destruct ((status >=? 500) && (status <? 600)); [|discriminate H].
      eapply Wait; [|exact H]. reflexivity.
    + destruct copyErr; [eapply Wait; [|exact H]; reflexivity|].
      destruct (at_close_err _); [eapply Wait; [|exact H]; reflexivity|].
      destruct (at_rename_err _); [eapply Wait; [|exact H]; reflexivity|].
      inversion H; subst. clear H Wait. cbn [emit set_fs fs trace reqs out_Close].
      split; [apply lookup_insert_eq|]. split.
      * rewrite lookup_insert_ne by (intros E; symmetry in E; now apply tmp_not_dest in E).
        apply lookup_delete_eq.
      * split; [apply last_snoc | lia].
Qed.

Lemma loop_requests (k : nat) : forall s lastErr backoff,
  (reqs s <= reqs (fst (fetch_loop world rawURL destPath k s lastErr backoff))
          <= reqs s + k)%nat.
Proof.
  induction k as [|k IH]; intros s lastErr backoff; [simpl; lia|].
  rewrite fetch_loop_S. cbv zeta.
  assert (forall s1 le, reqs s1 = S (reqs s) ->
            (reqs s <=
             reqs (fst (if at_ctx_done (w_attempt world rawURL (reqs s))
                        then (emit s1 (EvBackoff backoff), Err ctx_err)
                        else fetch_loop world rawURL destPath k
                               (emit s1 (EvBackoff backoff)) le (GoInt.mul backoff 2)))
             <= reqs s + S k)%nat) as Wait.
  { intros s1 le Hr. destruct (at_ctx_done _).
    - cbn [fst emit reqs]. lia.
    - specialize (IH (emit s1 (EvBackoff backoff)) le (GoInt.mul backoff 2)).
      cbn [emit reqs] in IH. lia. }
  destruct (at_request_err _); [simpl; lia|].
  destruct (at_mkdir_err _); [simpl; lia|].
  destruct (MkdirAll _ _) as [fs1|]; [|simpl; lia].
  destruct (at_create_err _); [simpl; lia|].
  destruct (at_http _) as [e|status written copyErr].
  - apply Wait. reflexivity.
  - destruct ((status <? 200) || (status >=? 300)).
    + destruct ((status >=? 500) && (status <? 600)); [|simpl; lia].
      apply Wait. reflexivity.
    + destruct copyErr; [apply Wait; reflexivity|].
      destruct (at_close_err _); [apply Wait; reflexivity|].
      destruct (at_rename_err _); [apply Wait; reflexivity|].
      simpl. lia.
Qed.


End Loop.


End FetchFacts.

Module FetchProps.
Import Core Sys Loader FetchTerms PathFacts DiskFacts FetchFacts LoaderFacts Scenario.

Section Fetch.
Variable url_Parse : string -> option URLParts.
Variable world : World.
Variable opts : Options.
Variables rawURL destPath : string.

(** X12. When [Fetch] returns without an error, the destination holds a file
    of the number of bytes returned, the staging file is gone, the last
    thing done was the rename, and at least one request was made. *)
Theorem Fetch_success (s s' : St) (w : Z) :
  Fetch url_Parse world opts rawURL destPath s = (s', Ok w) ->
  fs s' !! destPath = Some (File w) /\
  fs s' !! tmpPath destPath = None /\
  last (trace s') = Some (EvRename (tmpPath destPath) destPath) /\
  (reqs s < reqs s')%nat.
Proof.
  unfold Fetch. destruct (url_Parse rawURL); [|discriminate].
  apply loop_success.
Qed.

(** X13. [Fetch] never issues more than max(1, Retries) requests, whatever the
    server and the disk do. *)
Theorem Fetch_request_bound (s : St) :
  (reqs s <= reqs (fst (Fetch url_Parse world opts rawURL destPath s))
          <= reqs s + Z.to_nat (GoInt.max 1 (Retries opts)))%nat.
Proof.
  unfold Fetch. destruct (url_Parse rawURL); [|simpl; lia].
  apply loop_requests.
Qed.


(** X15. When the context is done during the wait that follows a failed
    attempt, [Fetch] returns the error of the context after that one
    request, whatever the number of retries: the error of the attempt
    itself is not reported. *)
Theorem Fetch_cancelled_in_backoff (s : St) (u : URLParts) (fs1 : FS) (h : HttpOutcome) :
  url_Parse rawURL = Some u ->
  w_attempt world rawURL (reqs s) = mkAttempt None None None h None None true ->
  retriable h = true ->
  MkdirAll (fs s) (GoPath.Dir destPath) = Some fs1 ->
  snd (Fetch url_Parse world opts rawURL destPath s) = Err ctx_err /\
  reqs (fst (Fetch url_Parse world opts rawURL destPath s)) = S (reqs s) /\
  last (trace (fst (Fetch url_Parse world opts rawURL destPath s)))
    = Some (EvBackoff backoff0).
Proof.
  intros Hu Ha Hr Hm. unfold Fetch. rewrite Hu.
  destruct (attempts_S (Retries opts)) as [k ->].
  rewrite fetch_loop_S. cbv zeta. rewrite Ha.
  cbn [at_request_err at_mkdir_err at_create_err at_http at_ctx_done at_close_err
       at_rename_err emit set_fs fs reqs trace].
  rewrite Hm.
  destruct h as [e|status written copyErr]; simpl in Hr.
  - cbn. split; [reflexivity|]. split; [reflexivity | apply last_snoc].
  - destruct ((status <? 200) || (status >=? 300)).
    + rewrite Hr. cbn. split; [reflexivity|]. split; [reflexivity | apply last_snoc].
    + destruct copyErr; [|discriminate Hr].
      cbn. split; [reflexivity|]. split; [reflexivity | apply last_snoc].
Qed.
End Fetch.

Lemma Fetch_success_witness :
  fs (fst (Fetch parse_fake serving LoaderTerms.thrice "http://fake/a.bin"
             "downloads/t1/a.bin" LoaderTerms.st0)) !! "downloads/t1/a.bin"
    = Some (File 7) /\
  fs (fst (Fetch parse_fake serving LoaderTerms.thrice "http://fake/a.bin"
             "downloads/t1/a.bin" LoaderTerms.st0)) !! tmpPath "downloads/t1/a.bin"
    = None /\
  last (trace (fst (Fetch parse_fake serving LoaderTerms.thrice "http://fake/a.bin"
                      "downloads/t1/a.bin" LoaderTerms.st0)))
    = Some (EvRename (tmpPath "downloads/t1/a.bin") "downloads/t1/a.bin") /\
  (reqs LoaderTerms.st0
   < reqs (fst (Fetch parse_fake serving LoaderTerms.thrice "http://fake/a.bin"
                  "downloads/t1/a.bin" LoaderTerms.st0)))%nat.
Proof.
  apply (Fetch_success parse_fake serving LoaderTerms.thrice "http://fake/a.bin"
           "downloads/t1/a.bin" LoaderTerms.st0 _ 7).
  vm_compute. reflexivity.
Defined.


Lemma Fetch_cancelled_in_backoff_witness :
  snd (Fetch parse_fake cancelled LoaderTerms.thrice "http://fake/a.bin"
         "downloads/t1/a.bin" LoaderTerms.st0) = Err ctx_err /\
  reqs (fst (Fetch parse_fake cancelled LoaderTerms.thrice "http://fake/a.bin"
               "downloads/t1/a.bin" LoaderTerms.st0)) = 1%nat /\
  last (trace (fst (Fetch parse_fake cancelled LoaderTerms.thrice "http://fake/a.bin"
                      "downloads/t1/a.bin" LoaderTerms.st0)))
    = Some (EvBackoff backoff0).
Proof.
  apply (Fetch_cancelled_in_backoff parse_fake cancelled LoaderTerms.thrice
           "http://fake/a.bin" "downloads/t1/a.bin" LoaderTerms.st0
           (mkURL "http" "fake" "/a.bin")
           (<["downloads/t1" := Dir]> (<["downloads" := Dir]> (<["." := Dir]> ∅)))
           (Response 503 0 None)).
  - reflexivity.
  - reflexivity.
  - reflexivity.
  - vm_compute. reflexivity.
Defined.

End FetchProps.

(* ------------------------------------------------------------------ *)
(** ** The worker, job by job *)

Module WalFields.
Import Core Store Queue Sys AppM.

Section Fields.
Variable jsonLen : Task -> Z.
Variables (a : App) (t : Task) (k : string) (n : nat).
Variables (l : Loader.St) (d : Dispatcher) (e : Event) (j : Job).
Lemma wal_journal : wal (journal jsonLen a t) = AppendTask jsonLen (wal a) t.
Proof. reflexivity. Qed.
Lemma wal_put_task : wal (put_task a k t) = wal a.
Proof. reflexivity. Qed.
Lemma wal_set_ticks : wal (set_ticks a n) = wal a.
Proof. reflexivity. Qed.
Lemma wal_set_loader : wal (set_loader a l) = wal a.
Proof. reflexivity. Qed.
Lemma wal_set_dispatcher : wal (set_dispatcher a d) = wal a.
Proof. reflexivity. Qed.
Lemma wal_note : wal (note a e) = wal a.
Proof. reflexivity. Qed.
Lemma wal_enqueue : wal (enqueue a j) = wal a.
Proof. reflexivity. Qed.
End Fields.

#[export] Hint Rewrite wal_journal wal_put_task wal_set_ticks wal_set_loader
  wal_set_dispatcher wal_note wal_enqueue : app_fields.

End WalFields.

Module WorkerCases.
Import Core Store Queue Sys AppM WorkerTerms WorkerFacts WorkerProjections AppFields
       WalFields AttemptTerms OneFile.

Section Worker.
Variable jsonLen : Task -> Z.
Variable url_Parse : string -> option URLParts.
Variable world : World.

Lemma target_Some (a : App) (job : Job) (t : Task) (fi : FileItem) :
  target a job = Some (t, fi) ->
  tasks a !! TaskID job = Some t /\
  0 <= FileIndex job < Z.of_nat (length (Files t)) /\
  Files t !! Z.to_nat (FileIndex job) = Some fi /\
  State fi = FilePending.
Proof.
  unfold target. destruct (tasks a !! TaskID job) as [t0|]; [|discriminate].
  destruct (Z.ltb_spec (FileIndex job) 0) as [Hlo|Hlo]; [discriminate|].
  destruct (Z.geb_spec (FileIndex job) (Z.of_nat (length (Files t0)))) as [Hhi|Hhi];
    [discriminate|].
  cbn [orb]. destruct (Files t0 !! Z.to_nat (FileIndex job)) as [f|] eqn:E; [|discriminate].
  destruct (State f) eqn:Es; cbn [FileState_eqb]; try discriminate.
  intros H. inversion H; subst. repeat split; try assumption; lia.
Qed.

(** A job the worker does not act on leaves everything as it is. *)
Lemma worker_job_idle (a : App) (job : Job) :
  target a job = None -> worker_job jsonLen url_Parse world a job = a.
Proof.
  unfold target, worker_job.
  destruct (tasks a !! TaskID job) as [t|]; [|reflexivity].
  destruct ((FileIndex job <? 0) || (FileIndex job >=? Z.of_nat (length (Files t))));
    [reflexivity|].
  destruct (Files t !! Z.to_nat (FileIndex job)) as [fi|]; [|reflexivity].
  destruct (FileState_eqb (State fi) FilePending); [discriminate | reflexivity].
Qed.

(** A job the worker acts on, by the result of [Fetch]. *)
Lemma worker_job_acts (a : App) (job : Job) (t : Task) (fi : FileItem) :
  target a job = Some (t, fi) ->
  exists l res,
    worker_job jsonLen url_Parse world a job =
      match res with
      | Ok _ => completed jsonLen world a job t fi l res
      | Err _ =>
          if GoInt.add (Attempts fi) 1 <? MaxAttempts fi
          then retried jsonLen world a job t fi l res
          else completed jsonLen world a job t fi l res
      end.
Proof.
  intros H. apply target_Some in H as (Ht & Hi & Hf & Hs).
  destruct (Loader.Fetch url_Parse world (loader_opts (Conf a)) (URL fi)
              (dest_of a (start_phase t (Z.to_nat (FileIndex job)) fi
                                      (w_now world (ticks a))) fi)
              (loader a)) as [l res] eqn:E.
  exists l, res. now apply worker_job_eq.
Qed.

End Worker.

End WorkerCases.

Module WorkerProps.
Import Core Store Queue Sys AppM WorkerTerms WorkerFacts WorkerProjections AppFields
       WalFields AttemptTerms OneFile WorkerCases StoreTerms StoreFacts LoaderFacts
       Scenario.

Lemma count_snoc (p : Event -> bool) (l : list Event) (e : Event) :
  count p (l ++ [e]) = (count p l + if p e then 1 else 0)%nat.
Proof.
  unfold count. rewrite List.filter_app, length_app. simpl.
  destruct (p e); reflexivity.
Qed.




Section Worker.
Variable jsonLen : Task -> Z.
Variable url_Parse : string -> option URLParts.
Variable world : World.

(** X16. [workerLoop] acts on a job only when it designates a PENDING file of
    a known task: any other job (an unknown task, an index out of range,
    a file already RUNNING, DONE or FAILED) is dropped and changes
    nothing; a job it acts on leads to exactly one call of [Fetch]. *)
Theorem worker_acts_on_pending_only (a : App) (job : Job) :
  (target a job = None -> worker_job jsonLen url_Parse world a job = a) /\
  count is_fetch (log (worker_job jsonLen url_Parse world a job)) =
    (count is_fetch (log a) +
     match target a job with Some _ => 1 | None => 0 end)%nat.
Proof.
  split; [apply worker_job_idle|].
  destruct (target a job) as [[t fi]|] eqn:E.
  - destruct (worker_job_acts jsonLen url_Parse world a job t fi E) as (l & res & ->).
    assert (count is_fetch (log (completed jsonLen world a job t fi l res))
            = (count is_fetch (log a) + 1)%nat) as Hc.
    { rewrite completed_log, !count_snoc. simpl. lia. }
    destruct res as [w|e]; [exact Hc|].
    destruct (_ <? _); [|exact Hc].
    rewrite retried_log, !count_snoc, Hc. simpl. lia.
  - rewrite worker_job_idle by exact E. lia.
Qed.
End Worker.



End WorkerProps.

(* ------------------------------------------------------------------ *)
(** ** Decimal numerals *)

Module NumeralFacts.
Import AppM HttpApi NumeralTerms LoaderFacts.

Lemma drop_insert_here {A : Type} (x : A) (l : list A) : forall i,
  (i < length l)%nat -> drop i (<[i := x]> l) = x :: drop (S i) l.
Proof.
  induction l as [|y l IH]; intros i Hi; [simpl in Hi; lia|].
  destruct i as [|i]; [reflexivity|].
  cbn. apply IH. simpl in Hi. lia.
Qed.

Lemma length_digs (k : nat) : forall n, (length (digs k n) <= k)%nat.
Proof.
  induction k as [|k IH]; intros n; [reflexivity|].
  cbn [digs]. destruct (n >? 0); [|simpl; lia].
  rewrite length_app. specialize (IH (Z.quot n 10)). simpl. lia.
Qed.

Lemma length_digs_small (k : nat) : forall n (j : nat),
  0 <= n < 10 ^ Z.of_nat j -> (length (digs k n) <= j)%nat.
Proof.
  induction k as [|k IH]; intros n j Hn; [simpl; lia|].
  cbn [digs]. destruct (Z.gtb_spec n 0) as [Hpos|Hz]; [|simpl; lia].
  destruct j as [|j]; [simpl in Hn; lia|].
  rewrite length_app. cbn [length].
  assert (0 <= Z.quot n 10 < 10 ^ Z.of_nat j) as Hq.
  { rewrite Z.quot_div_nonneg by lia. rewrite Nat2Z.inj_succ, Z.pow_succ_r in Hn by lia.
    split; [apply Z.div_pos; lia | apply Z.div_lt_upper_bound; lia]. }
  specialize (IH _ _ Hq). lia.
Qed.

(** The loop of [itoa] on a buffer with room: the digits are written just
    before position [i]. *)
Lemma itoa_loop_digs (k : nat) : forall n (buf : list ascii) (i : nat),
  (length (digs k n) <= i <= length buf)%nat ->
  snd (itoa_loop k n buf i) = (i - length (digs k n))%nat /\
  drop (snd (itoa_loop k n buf i)) (fst (itoa_loop k n buf i))
    = digs k n ++ drop i buf /\
  length (fst (itoa_loop k n buf i)) = length buf.
Proof.
  induction k as [|k IH]; intros n buf i Hi.
  - simpl. rewrite Nat.sub_0_r. repeat split.
  - cbn [itoa_loop digs] in *. cbv zeta. destruct (n >? 0).
    + rewrite length_app in Hi. cbn [length] in Hi.
      set (c := ascii_of_nat (Z.to_nat (48 + Z.rem n 10))) in *.
      destruct (IH (Z.quot n 10) (<[(i - 1)%nat := c]> buf) (i - 1)%nat)
        as (H1 & H2 & H3).
      { rewrite length_insert. lia. }
      rewrite length_insert in H3.
      rewrite H2, H1, H3, length_app. cbn [length].
      split; [lia|]. split; [|reflexivity].
      rewrite drop_insert_here by lia.
      replace (S (i - 1)) with i by lia.
      rewrite <- app_assoc. reflexivity.
    + simpl. rewrite Nat.sub_0_r. repeat split.
Qed.

Lemma digit_of_code (r : Z) :
  0 <= r <= 9 -> digit (ascii_of_nat (Z.to_nat (48 + r))) = Some r.
Proof.
  intros Hr.
  assert (r = 0 \/ r = 1 \/ r = 2 \/ r = 3 \/ r = 4 \/ r = 5 \/ r = 6 \/ r = 7
          \/ r = 8 \/ r = 9) as H by lia.
  repeat (destruct H as [-> | H]; [reflexivity|]). subst. reflexivity.
Qed.

Lemma string_app (l1 l2 : list ascii) :
  string_of_list_ascii (l1 ++ l2)
    = String.append (string_of_list_ascii l1) (string_of_list_ascii l2).
Proof. induction l1 as [|c l1 IH]; simpl; [reflexivity | now rewrite IH]. Qed.

(** Reading the digits back. *)
Lemma digits_digs (k : nat) : forall n acc (rest : list ascii),
  0 <= n < 10 ^ Z.of_nat k ->
  digits acc (string_of_list_ascii (digs k n ++ rest))
    = digits (acc * 10 ^ Z.of_nat (length (digs k n)) + n)
             (string_of_list_ascii rest).
Proof.
  induction k as [|k IH]; intros n acc rest Hn.
  - simpl in *. f_equal. lia.
  - cbn [digs]. destruct (Z.gtb_spec n 0) as [Hpos|Hz].
    + rewrite <- app_assoc. cbn [app].
      assert (0 <= Z.quot n 10 < 10 ^ Z.of_nat k) as Hq.
      { rewrite Z.quot_div_nonneg by lia.
        rewrite Nat2Z.inj_succ, Z.pow_succ_r in Hn by lia.
        split; [apply Z.div_pos; lia | apply Z.div_lt_upper_bound; lia]. }
      rewrite (IH _ _ _ Hq). cbn [string_of_list_ascii digits].
      rewrite Z.rem_mod_nonneg by lia.
      rewrite digit_of_code by (pose proof (Z.mod_pos_bound n 10); lia).
      f_equal. rewrite length_app. cbn [length].
      rewrite Nat2Z.inj_add, Z.pow_add_r by lia.
      rewrite Z.quot_div_nonneg by lia.
      pose proof (Z.div_mod n 10). change (Z.of_nat 1) with 1. lia.
    + simpl. f_equal. lia.
Qed.

Lemma digs_digits (k : nat) : forall n,
  Forall (fun c => exists d, digit c = Some d) (digs k n).
Proof.
  induction k as [|k IH]; intros n; [constructor|].
  cbn [digs]. destruct (Z.gtb_spec n 0) as [Hpos|Hz]; [|constructor].
  apply Forall_app. split; [apply IH|]. constructor; [|constructor].
  exists (Z.rem n 10). apply digit_of_code.
  rewrite Z.rem_mod_nonneg by lia. pose proof (Z.mod_pos_bound n 10). lia.
Qed.

Lemma digs_nonempty (k : nat) (n : Z) : 0 < n -> digs (S k) n <> [].
Proof.
  intros Hn. cbn [digs]. rewrite gtb_true by lia.
  intros H. apply (f_equal (@length ascii)) in H.
  rewrite length_app in H. simpl in H. lia.
Qed.

(** [strconv.Atoi] on a string that starts with a digit. *)
Lemma Atoi_unsigned (c : ascii) (r : string) (d : Z) :
  digit c = Some d ->
  Atoi (String c r) =
    match digits 0 (String c r) with
    | None => None
    | Some v =>
        if (GoInt.min_int <=? v) && (v <=? GoInt.max_int) then Some v else None
    end.
Proof.
  destruct c as [[] [] [] [] [] [] [] []]; intros H;
    first [discriminate H | reflexivity].
Qed.

Lemma Atoi_digs (n : Z) :
  0 < n <= GoInt.max_int ->
  Atoi (string_of_list_ascii (digs 20 n)) = Some n.
Proof.
  intros Hn. pose proof (digs_digits 20 n) as Hd.
  pose proof (digs_nonempty 19 n ltac:(lia)) as Hne.
  assert (0 <= n < 10 ^ Z.of_nat 20) as Hr.
  { unfold GoInt.max_int in Hn. change (10 ^ Z.of_nat 20) with 100000000000000000000.
    change (2 ^ 63) with 9223372036854775808 in Hn. lia. }
  pose proof (digits_digs 20 n 0 [] Hr) as Hv.
  rewrite app_nil_r in Hv. cbn [string_of_list_ascii digits] in Hv.
  destruct (digs 20 n) as [|c l] eqn:E; [congruence|].
  apply Forall_cons in Hd as [[d Hc] _].
  cbn [string_of_list_ascii] in *. rewrite (Atoi_unsigned c _ d Hc), Hv.
  replace (0 * 10 ^ Z.of_nat (length (c :: l)) + n) with n by lia.
  unfold GoInt.min_int, GoInt.max_int in *.
  rewrite !leb_true by lia. reflexivity.
Qed.

Lemma Atoi_itoa (n : Z) :
  GoInt.min_int < n <= GoInt.max_int -> Atoi (itoa n) = Some n.
Proof.
  intros Hn. unfold itoa.
  destruct (Z.eqb_spec n 0) as [->|Hnz]; [reflexivity|].
  set (buf := replicate 20 (ascii_of_nat 0)).
  destruct (Z.ltb_spec n 0) as [Hneg|Hpos].
  - assert (GoInt.neg n = - n) as ->.
    { apply wrap_id. unfold GoInt.in_range, GoInt.min_int, GoInt.max_int in *. lia. }
    assert (0 <= - n < 10 ^ Z.of_nat 19) as Hr.
    { unfold GoInt.min_int in Hn. change (10 ^ Z.of_nat 19) with 10000000000000000000.
      change (2 ^ 63) with 9223372036854775808 in Hn. lia. }
    pose proof (length_digs_small 20 (- n) 19 Hr) as Hlen.
    destruct (itoa_loop_digs 20 (- n) buf 20) as (H1 & H2 & H3).
    { change (length buf) with 20%nat. lia. }
    destruct (itoa_loop 20 (- n) buf 20) as [buf' i'] eqn:E.
    cbn [fst snd] in *. change (length buf) with 20%nat in H3.
    rewrite drop_insert_here by lia.
    replace (S (i' - 1)) with i' by lia. rewrite H2.
    change (drop 20 buf) with (@nil ascii). rewrite app_nil_r.
    cbn [string_of_list_ascii].
    pose proof (Atoi_digs (- n)) as HA.
    unfold GoInt.min_int, GoInt.max_int in *.
    specialize (HA ltac:(lia)).
    pose proof (digs_nonempty 19 (- n) ltac:(lia)) as Hne.
    pose proof (digs_digits 20 (- n)) as Hd.
    destruct (digs 20 (- n)) as [|c l] eqn:Ed; [congruence|].
    apply Forall_cons in Hd as [[d Hc] _].
    cbn [string_of_list_ascii] in *.
    rewrite (Atoi_unsigned c _ d Hc) in HA.
    unfold Atoi.
    destruct (digits 0 (String c (string_of_list_ascii l))) as [v|]; [|discriminate].
    destruct ((GoInt.min_int <=? v) && (v <=? GoInt.max_int)); [|discriminate].
    injection HA as ->. rewrite Z.opp_involutive.
    unfold GoInt.min_int, GoInt.max_int. rewrite !leb_true by lia. reflexivity.
  - destruct (itoa_loop_digs 20 n buf 20) as (H1 & H2 & H3).
    { pose proof (length_digs 20 n). change (length buf) with 20%nat. lia. }
    destruct (itoa_loop 20 n buf 20) as [buf' i'] eqn:E.
    cbn [fst snd] in *. rewrite H2.
    change (drop 20 buf) with (@nil ascii). rewrite app_nil_r.
    apply Atoi_digs. lia.
Qed.

End NumeralFacts.

(* ------------------------------------------------------------------ *)
(** ** Pagination and numerals in queries *)

Module HttpFacts.
Import Core Store Queue Sys AppM AppApi HttpApi LoaderFacts NumeralFacts.

Lemma Atoi_range (s : string) (n : Z) :
  Atoi s = Some n -> GoInt.min_int <= n <= GoInt.max_int.
Proof.
  unfold Atoi.
  destruct (match s with
            | String "+" r => (false, r)
            | String "-" r => (true, r)
            | _ => (false, s)
            end) as [neg ds].
  destruct ds as [|c r]; [discriminate|].
  destruct (digits 0 (String c r)) as [v|]; [|discriminate].
  destruct (Z.leb_spec GoInt.min_int (if neg then - v else v)) as [H1|H1];
    [|discriminate].
  destruct (Z.leb_spec (if neg then - v else v) GoInt.max_int) as [H2|H2];
    [|discriminate].
  intros H. injection H as <-. lia.
Qed.

Lemma positiveInt_range (q : Query) (key : string) (def : Z) :
  0 <= def <= GoInt.max_int ->
  0 <= fst (positiveInt q key def) <= GoInt.max_int.
Proof.
  intros Hd. unfold positiveInt.
  destruct (negb (String.eqb (Get q key) EmptyString)); [|exact Hd].
  destruct (Atoi (Get q key)) as [n|] eqn:E; [|simpl; unfold GoInt.max_int; lia].
  apply Atoi_range in E.
  destruct (Z.ltb_spec n 0); simpl; unfold GoInt.max_int in *; lia.
Qed.

Lemma wrap_over (z : Z) :
  GoInt.max_int < z <= 2 * GoInt.max_int -> GoInt.wrap z = z - 2 ^ 64.
Proof.
  unfold GoInt.max_int, GoInt.wrap. intros H.
  replace (z + 2 ^ 63) with ((z + 2 ^ 63 - 2 ^ 64) + 1 * 2 ^ 64) by lia.
  rewrite Z_mod_plus_full, Z.mod_small; lia.
Qed.

Lemma take_min {A : Type} (l : list A) (k : nat) :
  take (Nat.min k (length l)) l = take k l.
Proof.
  destruct (Nat.le_gt_cases k (length l)) as [H|H].
  - now rewrite Nat.min_l.
  - rewrite Nat.min_r by lia. rewrite !take_ge by lia. reflexivity.
Qed.

End HttpFacts.

Module HttpProps.
Import Core Store Queue Sys AppM AppApi HttpApi LoaderFacts NumeralFacts HttpFacts.

(** X20. The numerals of [itoa] are read back: for every [int] [n] but the
    least, [strconv.Atoi] of [itoa n] is [n], and when [n] is not
    negative [positiveInt] reads the query key=itoa(n) as [n] with no
    error. On the least [int] the negation in [itoa] overflows, no digit
    is written, and the result is the bare sign, which [Atoi] rejects. *)
Theorem itoa_is_read_back (n : Z) :
  GoInt.min_int < n <= GoInt.max_int ->
  Atoi (itoa n) = Some n /\
  (0 <= n -> forall q key def, positiveInt ((key, itoa n) :: q) key def = (n, None)) /\
  itoa GoInt.min_int = "-" /\ Atoi (itoa GoInt.min_int) = None.
Proof.
  intros Hn. pose proof (Atoi_itoa n Hn) as HA.
  split; [exact HA|]. split; [|split; reflexivity].
  intros Hpos q key def. unfold positiveInt. cbn [Get]. rewrite String.eqb_refl.
  destruct (itoa n) as [|c r] eqn:E; [discriminate HA|].
  cbn [String.eqb negb]. rewrite HA. rewrite ltb_false by lia. reflexivity.
Qed.

Lemma itoa_is_read_back_witness :
  Atoi (itoa 9007) = Some 9007 /\
  (0 <= 9007 ->
   forall q key def, positiveInt ((key, itoa 9007) :: q) key def = (9007, None)) /\
  itoa GoInt.min_int = "-" /\ Atoi (itoa GoInt.min_int) = None.
Proof.
  apply (itoa_is_read_back 9007). unfold GoInt.min_int, GoInt.max_int. lia.
Defined.

(** X21. The page of GET /tasks. With [limit] and [offset] as [positiveInt]
    returns them (0 for a value it rejects), the handler answers 200 with
    at most [limit] tasks starting at position [offset] of the list, the
    empty page when [offset] is past the end; except that when
    min(offset, number of tasks) + limit exceeds the largest [int] the sum
    wraps around, the slice expression panics and the answer is 500. *)
Theorem get_tasks_page (q : Query) (ts : list Task) :
  get_tasks q ts =
    if Z.min (fst (positiveInt q "offset" 0)) (Z.of_nat (length ts))
       + fst (positiveInt q "limit" 100) <=? GoInt.max_int
    then mkReply 200 (take (Z.to_nat (fst (positiveInt q "limit" 100)))
                           (drop (Z.to_nat (fst (positiveInt q "offset" 0))) ts))
    else mkReply 500 [].
Proof.
  unfold get_tasks. cbv zeta.
  pose proof (positiveInt_range q "limit" 100) as Hl.
  pose proof (positiveInt_range q "offset" 0) as Ho.
  unfold GoInt.max_int in Hl, Ho.
  specialize (Hl ltac:(lia)). specialize (Ho ltac:(lia)).
  set (limit := fst (positiveInt q "limit" 100)) in *.
  set (offset := fst (positiveInt q "offset" 0)) in *.
  set (n := Z.of_nat (length ts)).
  assert (0 <= n) as Hn by (unfold n; lia).
  assert ((if offset >? n then n else offset) = Z.min offset n) as ->.
  { destruct (Z.gtb_spec offset n); lia. }
  set (o := Z.min offset n).
  unfold GoInt.add.
  destruct (Z.leb_spec (o + limit) GoInt.max_int) as [Hfit|Hover].
  - rewrite wrap_id
      by (unfold GoInt.in_range, GoInt.min_int, GoInt.max_int in *; lia).
    assert ((if o + limit >? n then n else o + limit) = Z.min (o + limit) n) as ->.
    { destruct (Z.gtb_spec (o + limit) n); lia. }
    rewrite !leb_true by lia. cbn [andb]. f_equal.
    assert (drop (Z.to_nat o) ts = drop (Z.to_nat offset) ts) as ->.
    { unfold o. destruct (Z.le_gt_cases offset n) as [H|H].
      - now rewrite Z.min_l.
      - rewrite Z.min_r by lia. unfold n. rewrite Nat2Z.id.
        rewrite !drop_ge by lia. reflexivity. }
    rewrite <- (take_min (drop (Z.to_nat offset) ts) (Z.to_nat limit)).
    f_equal. rewrite length_drop. unfold o, n in *. lia.
  - unfold GoInt.max_int in Hover.
    rewrite wrap_over by (unfold GoInt.max_int; lia).
    rewrite gtb_false by lia.
    assert ((o <=? o + limit - 2 ^ 64) = false) as ->.
    { apply Z.leb_gt. lia. }
    rewrite andb_false_r. reflexivity.
Qed.

End HttpProps.

(* ------------------------------------------------------------------ *)
(** ** Registration and the handlers *)

Module AppApiFacts.
Import Core Store Queue Sys AppM AppApi HttpApi Router RouterTerms AppFields WalFields
       RecoveryFacts TaskTerms TaskFacts.


Lemma ID_kept (t : Task) : ID (kept t) = ID t.
Proof. unfold kept. now destruct (GoPath.rooted (DestDir t)). Qed.

Lemma AddTask_eq jsonLen (a : App) (t : Task) :
  AddTask jsonLen a t =
    enqueue_all (put_task (journal jsonLen (put_task a (ID t) t) t) (ID t) (kept t))
                (pending_jobs (kept t)).
Proof.
  unfold AddTask, kept. cbv zeta.
  destruct (GoPath.rooted (DestDir t)); reflexivity.
Qed.

Lemma NewTask_valid url_Parse (id : string) (now : Z) (label destDir : string)
      (links : list string) (m : Z) :
  links <> [] -> Forall (valid_link url_Parse) links ->
  exists t, NewTask url_Parse id now label destDir links m = Ok t /\ ID t = id.
Proof.
  intros Hne Hv. unfold NewTask. destruct links as [|l links]; [congruence|].
  destruct (newFiles_valid url_Parse m (l :: links) Hv) as [fs ->].
  eexists. split; reflexivity.
Qed.

Lemma NewTask_links url_Parse (id : string) (now : Z) (label destDir : string)
      (links : list string) (m : Z) (t : Task) :
  NewTask url_Parse id now label destDir links m = Ok t ->
  links <> [] /\ Forall (valid_link url_Parse) links.
Proof.
  unfold NewTask. destruct links as [|l links]; [discriminate|].
  destruct (newFiles url_Parse (l :: links) m) as [fs|] eqn:E; [|discriminate].
  intros _. split; [discriminate|]. now apply newFiles_fresh in E as [Hv _].
Qed.

Lemma TrimPrefix_tasks (id : string) :
  TrimPrefix (String.append "/tasks/" id) "/tasks/" = id.
Proof.
  unfold TrimPrefix. cbn. now destruct id.
Qed.

Lemma tasks_AddTask jsonLen (a : App) (t : Task) :
  tasks (AddTask jsonLen a t) = <[ID t := kept t]> (<[ID t := t]> (tasks a)).
Proof.
  rewrite AddTask_eq.
  destruct (enqueue_all_fields (pending_jobs (kept t))
              (put_task (journal jsonLen (put_task a (ID t) t) t) (ID t) (kept t)))
    as (_ & H2 & _).
  rewrite H2. autorewrite with app_fields. reflexivity.
Qed.

Lemma ID_place (dl : string) (t : Task) : ID (place dl t) = ID t.
Proof. unfold place. now destruct (String.eqb (DestDir t) EmptyString). Qed.

End AppApiFacts.

Module AppApiProps.
Import Core Store Queue Sys AppM AppApi HttpApi Router RouterTerms AppFields WalFields
       RecoveryFacts TaskTerms TaskFacts AppApiFacts StoreTerms.

(** X22. [Addr] always gives an address that starts with a colon; a port
    that is already such an address is returned as it is, so that
    normalising twice changes nothing; and the empty port gives ":8080". *)
Theorem Addr_normal (c c' : Config) :
  (exists r, Addr c = String ":" r) /\
  (Port c' = Addr c -> Addr c' = Addr c) /\
  (Port c = EmptyString -> Addr c = ":8080").
Proof.
  unfold Addr. split; [|split].
  - destruct (Port c) as [|b r]; [now exists "8080"|].
    destruct (Ascii.eqb_spec b ":"%char) as [->|Hne].
    + unfold GoStr.eqb_byte. rewrite Ascii.eqb_refl. now exists r.
    + unfold GoStr.eqb_byte. apply Ascii.eqb_neq in Hne. rewrite Hne.
      now exists (String b r).
  - intros ->. destruct (Port c) as [|b r]; [reflexivity|].
    unfold GoStr.eqb_byte.
    destruct (Ascii.eqb b ":") eqn:E.
    + now rewrite E.
    + reflexivity.
  - now intros ->.
Qed.

Section Handlers.
Variable jsonLen : Task -> Z.
Variable url_Parse : string -> option URLParts.


(** X24. POST /tasks answers 400 or 200. It answers 400, and changes nothing
    (no task registered, nothing journalled, nothing enqueued), when the
    body does not decode, when there is no link, or when some link does
    not parse with a scheme and a host; it answers 200 exactly when the
    body decodes to a non-empty list of valid links. *)
Theorem post_tasks_validates (a : App) (id : string) (now : Z) (req : result PostBody) :
  (code (snd (post_tasks jsonLen url_Parse a id now req)) = 400 \/
   code (snd (post_tasks jsonLen url_Parse a id now req)) = 200) /\
  (code (snd (post_tasks jsonLen url_Parse a id now req)) = 400 ->
   fst (post_tasks jsonLen url_Parse a id now req) = a) /\
  (code (snd (post_tasks jsonLen url_Parse a id now req)) = 200 <->
   exists r, req = Ok r /\ Links r <> [] /\ Forall (valid_link url_Parse) (Links r)).
Proof.
  unfold post_tasks. destruct req as [r|e].
  - destruct (Links r) as [|l links] eqn:El.
    + cbn. split; [now left|]. split; [reflexivity|].
      split; [discriminate|]. intros (r' & Hr & Hne & _).
      injection Hr as <-. congruence.
    + cbn [length Nat.eqb].
      destruct (NewTask url_Parse id now (PLabel r) (PDestDir r) (l :: links)
                        (Retries (Conf a))) as [t|e] eqn:E.
      * cbn. split; [now right|]. split; [discriminate|].
        split; [|reflexivity]. intros _. exists r.
        apply NewTask_links in E as [Hne Hv]. rewrite El. auto.
      * cbn. split; [now left|]. split; [reflexivity|].
        split; [discriminate|]. intros (r' & Hr & Hne & Hv).
        injection Hr as <-. rewrite El in Hv.
        destruct (NewTask_valid url_Parse id now (PLabel r) (PDestDir r) (l :: links)
                    (Retries (Conf a)) ltac:(discriminate) Hv) as (t & Ht & _).
        congruence.
  - cbn. split; [now left|]. split; [reflexivity|].
    split; [discriminate|]. intros (r & Hr & _). discriminate.
Qed.

(** X25. A task accepted by POST /tasks can be read back: when the body holds
    a non-empty list of valid links and the new id is not empty and has
    no slash, the answer is 200 with that id, and GET /tasks/{id} on the
    resulting state answers 200 with the task built by [NewTask], its
    destination directory placed under the download directory. An id that
    is not registered gives 404. *)
Theorem post_then_get (a : App) (id : string) (now : Z) (r : PostBody) :
  Links r <> [] -> Forall (valid_link url_Parse) (Links r) -> addressable id ->
  exists t0,
    NewTask url_Parse id now (PLabel r) (PDestDir r) (Links r) (Retries (Conf a))
      = Ok t0 /\
    snd (post_tasks jsonLen url_Parse a id now (Ok r))
      = mkResponse 200 (NewTaskID id) /\
    task_by_id (fst (post_tasks jsonLen url_Parse a id now (Ok r))) "GET"
               (String.append "/tasks/" id)
      = mkResponse 200 (OneTask (kept (place (DownloadDir (Conf a)) t0))) /\
    forall id', addressable id' -> id' <> id -> GetTask a id' = None ->
      task_by_id (fst (post_tasks jsonLen url_Parse a id now (Ok r))) "GET"
                 (String.append "/tasks/" id')
        = mkResponse 404 (Text "not found").
Proof.
  intros Hne Hv [Hid Hslash].
  destruct (NewTask_valid url_Parse id now (PLabel r) (PDestDir r) (Links r)
              (Retries (Conf a)) Hne Hv) as (t0 & Ht0 & Hid0).
  exists t0. split; [exact Ht0|].
  unfold post_tasks. rewrite Ht0.
  destruct (Links r) as [|l links]; [congruence|]. cbn [length Nat.eqb fst snd].
  set (t := place (DownloadDir (Conf a)) t0).
  assert (ID t = id) as Ht by (unfold t; now rewrite ID_place).
  split; [now rewrite Ht|].
  pose proof (tasks_AddTask jsonLen a t) as G. rewrite Ht in G.
  split.
  - unfold task_by_id, GetTask. cbn [String.eqb negb]. rewrite TrimPrefix_tasks.
    apply String.eqb_neq in Hid. rewrite Hid, Hslash. cbn [orb].
    now rewrite G, lookup_insert_eq.
  - intros id' [Hid' Hslash'] Hne' Hnone.
    unfold task_by_id, GetTask in *. cbn [String.eqb negb]. rewrite TrimPrefix_tasks.
    apply String.eqb_neq in Hid'. rewrite Hid', Hslash'. cbn [orb].
    rewrite G, !lookup_insert_ne by congruence. now rewrite Hnone.
Qed.
End Handlers.

Lemma two_links_valid : Forall (valid_link parse_h) (Links two_links).
Proof.
  repeat constructor; eexists; (split; [reflexivity|]); split; discriminate.
Qed.

Lemma post_then_get_witness :
  exists t0,
    NewTask parse_h "20251030-120000-0a1b2c" 9 (PLabel two_links) (PDestDir two_links)
            (Links two_links) (Retries (Conf (OneFile.app0 3))) = Ok t0 /\
    snd (post_tasks Scenario.jsonLen0 parse_h (OneFile.app0 3)
           "20251030-120000-0a1b2c" 9 (Ok two_links))
      = mkResponse 200 (NewTaskID "20251030-120000-0a1b2c") /\
    task_by_id (fst (post_tasks Scenario.jsonLen0 parse_h (OneFile.app0 3)
                       "20251030-120000-0a1b2c" 9 (Ok two_links))) "GET"
               (String.append "/tasks/" "20251030-120000-0a1b2c")
      = mkResponse 200
          (OneTask (kept (place (DownloadDir (Conf (OneFile.app0 3))) t0))) /\
    forall id', addressable id' -> id' <> "20251030-120000-0a1b2c" ->
      GetTask (OneFile.app0 3) id' = None ->
      task_by_id (fst (post_tasks Scenario.jsonLen0 parse_h (OneFile.app0 3)
                         "20251030-120000-0a1b2c" 9 (Ok two_links))) "GET"
                 (String.append "/tasks/" id')
        = mkResponse 404 (Text "not found").
Proof.
  apply (post_then_get Scenario.jsonLen0 parse_h (OneFile.app0 3)
           "20251030-120000-0a1b2c" 9 two_links).
  - discriminate.
  - exact two_links_valid.
  - split; [discriminate | reflexivity].
Defined.

End AppApiProps.

(* ------------------------------------------------------------------ *)
(** ** Drain *)

Module DrainProps.
Import Core Store Queue Sys AppM AppApi Router RouterTerms.

Section Run.
Variable jsonLen : Task -> Z.
Variable url_Parse : string -> option URLParts.
Variable world : World.

Lemma drained_step (a b : App) :
  Queue.IsDrain (dispatcher a) = true -> taskCh (dispatcher a) = [] ->
  step jsonLen url_Parse world a = Some b ->
  tasks b = tasks a /\ wal b = wal a /\ loader b = loader a /\ log b = log a /\
  Queue.IsDrain (dispatcher b) = true /\ taskCh (dispatcher b) = [] /\
  backlog (dispatcher b) ++ jobInCh (dispatcher b)
    = backlog (dispatcher a) ++ jobInCh (dispatcher a).
Proof.
  intros Hd Ht. unfold step. rewrite Ht.
  destruct (jobInCh (dispatcher a)) as [|j rest] eqn:Ein.
  - destruct (backlog (dispatcher a)); [discriminate|]. rewrite Hd. discriminate.
  - intros H. inversion H; subst. clear H.
    unfold sched_job. rewrite Ein.
    unfold Queue.IsDrain in *. cbn [with_in drain]. rewrite Hd.
    cbn. rewrite Ht, <- app_assoc. repeat split; assumption.
Qed.

(** X11. While drain is on and the worker channel is empty, running the system
    starts no download: the tasks, the journal, the disk and the log stay
    as they are, the worker channel stays empty, and the jobs of the
    intake move to the end of the backlog in their order of arrival. *)
Theorem drain_holds_jobs_back (a : App) (fuel : nat) :
  IsDrain a = true -> taskCh (dispatcher a) = [] ->
  tasks (run jsonLen url_Parse world fuel a) = tasks a /\
  wal (run jsonLen url_Parse world fuel a) = wal a /\
  loader (run jsonLen url_Parse world fuel a) = loader a /\
  log (run jsonLen url_Parse world fuel a) = log a /\
  IsDrain (run jsonLen url_Parse world fuel a) = true /\
  taskCh (dispatcher (run jsonLen url_Parse world fuel a)) = [] /\
  backlog (dispatcher (run jsonLen url_Parse world fuel a))
    ++ jobInCh (dispatcher (run jsonLen url_Parse world fuel a))
    = backlog (dispatcher a) ++ jobInCh (dispatcher a).
Proof.
  unfold IsDrain. revert a. induction fuel as [|fuel IH]; intros a Hd Ht.
  - repeat split; assumption.
  - cbn [run]. destruct (step jsonLen url_Parse world a) as [b|] eqn:E.
    + destruct (drained_step a b Hd Ht E) as (H1 & H2 & H3 & H4 & H5 & H6 & H7).
      specialize (IH b H5 H6).
      rewrite <- H1, <- H2, <- H3, <- H4, <- H7. exact IH.
    + repeat split; assumption.
Qed.
End Run.

Lemma drain_holds_jobs_back_witness :
  tasks (run Scenario.jsonLen0 Scenario.parse_fake Scenario.not_found 5
           drained) = tasks drained /\
  wal (run Scenario.jsonLen0 Scenario.parse_fake Scenario.not_found 5
         drained) = wal drained /\
  loader (run Scenario.jsonLen0 Scenario.parse_fake Scenario.not_found 5
            drained) = loader drained /\
  log (run Scenario.jsonLen0 Scenario.parse_fake Scenario.not_found 5
         drained) = log drained /\
  IsDrain (run Scenario.jsonLen0 Scenario.parse_fake Scenario.not_found 5
             drained) = true /\
  taskCh (dispatcher (run Scenario.jsonLen0 Scenario.parse_fake Scenario.not_found 5
                        drained)) = [] /\
  backlog (dispatcher (run Scenario.jsonLen0 Scenario.parse_fake Scenario.not_found 5
                         drained))
    ++ jobInCh (dispatcher (run Scenario.jsonLen0 Scenario.parse_fake Scenario.not_found 5
                              drained))
    = backlog (dispatcher drained)
        ++ jobInCh (dispatcher drained).
Proof.
  apply (drain_holds_jobs_back Scenario.jsonLen0 Scenario.parse_fake Scenario.not_found
           drained 5); reflexivity.
Defined.

End DrainProps.

(* ------------------------------------------------------------------ *)
(** ** Destinations *)

Module PlaceFacts.
Import GoStr GoPath PlaceTerms UniquePathFacts.

Lemma split_go_plain (s : string) : forall cur,
  contains_byte s sep = false -> split_go cur s = [String.append cur s].
Proof.
  induction s as [|c s IH]; intros cur H.
  - simpl. now rewrite append_nil_r.
  - unfold contains_byte in H. cbn [bytes list_ascii_of_string existsb] in H.
    apply orb_false_elim in H as [Hc Hs].
    cbn [split_go]. unfold is_sep, eqb_byte in *.
    rewrite Ascii.eqb_sym in Hc. rewrite Hc.
    rewrite IH by exact Hs. unfold single.
    rewrite append_assoc. reflexivity.
Qed.

Lemma split_go_sep (s rest : string) : forall cur,
  contains_byte s sep = false ->
  split_go cur (String.append s (String sep rest))
    = String.append cur s :: split_go EmptyString rest.
Proof.
  induction s as [|c s IH]; intros cur H.
  - simpl. now rewrite append_nil_r.
  - unfold contains_byte in H. cbn [bytes list_ascii_of_string existsb] in H.
    apply orb_false_elim in H as [Hc Hs].
    cbn [String.append split_go]. unfold is_sep, eqb_byte in *.
    rewrite Ascii.eqb_sym in Hc. rewrite Hc.
    rewrite IH by exact Hs. unfold single.
    rewrite append_assoc. reflexivity.
Qed.

Lemma plain_not_rooted (s : string) : plain_name s -> rooted s = false.
Proof.
  intros (H & Hne & _). destruct s as [|c s]; [congruence|].
  unfold contains_byte in H. cbn [bytes list_ascii_of_string existsb] in H.
  apply orb_false_elim in H as [Hc _].
  cbn [rooted]. unfold is_sep, eqb_byte in *. now rewrite Ascii.eqb_sym.
Qed.

Lemma plain_tests (s : string) :
  plain_name s ->
  String.eqb s EmptyString = false /\ String.eqb s "." = false /\
  String.eqb s ".." = false.
Proof.
  intros (_ & H1 & H2 & H3). repeat split; now apply String.eqb_neq.
Qed.

(** [filepath.Clean] leaves a plain name as it is. *)
Lemma Clean_plain (s : string) : plain_name s -> Clean s = s.
Proof.
  intros H. destruct (plain_tests s H) as (E1 & E2 & E3).
  unfold Clean. rewrite E1, (plain_not_rooted s H). cbv zeta.
  unfold clean_elems, split. rewrite split_go_plain by apply H.
  cbn [String.append fold_left]. unfold clean_step. rewrite E1, E2, E3.
  cbn [rev app join_elems]. now rewrite E1.
Qed.

(** Joining "../x" to a plain directory gives "x". *)
Lemma Join_dotdot (dl x : string) :
  plain_name dl -> plain_name x ->
  Join dl (String.append "../" x) = x.
Proof.
  intros Hd Hx.
  destruct (plain_tests dl Hd) as (D1 & D2 & D3).
  destruct (plain_tests x Hx) as (X1 & X2 & X3).
  unfold Join. rewrite D1. unfold Clean.
  assert (String.eqb (String.append dl (String sep (String.append "../" x)))
                     EmptyString = false) as ->.
  { destruct dl; [discriminate D1 | reflexivity]. }
  assert (rooted (String.append dl (String sep (String.append "../" x))) = false) as ->.
  { pose proof (plain_not_rooted dl Hd) as R.
    destruct dl; [discriminate D1 | exact R]. }
  cbv zeta. unfold clean_elems, split.
  rewrite split_go_sep by apply Hd.
  change (String.append "../" x) with (String.append ".." (String sep x)).
  rewrite split_go_sep by reflexivity.
  rewrite split_go_plain by apply Hx.
  cbn [String.append fold_left]. unfold clean_step.
  rewrite D1, D2, D3. cbn [String.eqb Ascii.eqb Bool.eqb].
  rewrite D3, X1, X2, X3. cbn [rev app join_elems]. now rewrite X1.
Qed.

End PlaceFacts.

Module SafetyProps.
Import Core Store Queue Sys AppM AppApi HttpApi Router RouterTerms PlaceTerms PlaceFacts
       UniquePathTerms UniquePathFacts Ident.

Section Loop.
Variable notExist : string -> bool.
Variables name ext : string.

Lemma loop_found (k : nat) : forall i0 p,
  uniquePath_loop notExist k i0 name ext = Some p -> notExist p = true.
Proof.
  induction k as [|k IH]; intros i0 p H; [discriminate|].
  cbn [uniquePath_loop] in H. cbv zeta in H.
  destruct (notExist (candidate name ext i0)) eqn:E.
  - now injection H as <-.
  - eapply IH. exact H.
Qed.

Lemma loop_exhausted (k : nat) : forall i0,
  uniquePath_loop notExist k i0 name ext = None ->
  forall l, i0 <= l < i0 + Z.of_nat k -> notExist (candidate name ext l) = false.
Proof.
  induction k as [|k IH]; intros i0 H l Hl; [lia|].
  cbn [uniquePath_loop] in H. cbv zeta in H.
  destruct (notExist (candidate name ext i0)) eqn:E; [discriminate|].
  destruct (Z.eq_dec l i0) as [->|Hne]; [exact E|].
  apply (IH (i0 + 1) H). lia.
Qed.
End Loop.

(** X26. [uniquePath] returns a path at which nothing exists, except when the
    candidate and all of name-1.ext, ..., name-9999.ext are taken: then
    it returns the candidate followed by "-dup" without looking whether
    that path exists. *)
Theorem uniquePath_is_free (notExist : string -> bool) (base : string) :
  notExist (uniquePath notExist base) = true \/
  (uniquePath notExist base = String.append base "-dup" /\
   notExist base = false /\
   forall i, 1 <= i <= 9999 -> notExist (numbered base i) = false).
Proof.
  unfold uniquePath. destruct (notExist base) eqn:E; [now left|].
  fold (stem base).
  destruct (uniquePath_loop notExist (Z.to_nat 9999) 1 (stem base) (GoPath.Ext base))
    as [p|] eqn:L.
  - left. eapply loop_found. exact L.
  - right. split; [reflexivity|]. split; [reflexivity|]. intros i Hi.
    rewrite <- UniquePathClaims.candidate_numbered by exact Hi.
    apply (loop_exhausted notExist _ _ _ 1 L). lia.
Qed.

(** X27. The destination directory of a task is not confined to the download
    directory: for a download directory that is a plain name and a
    [dest_dir] "../x" with [x] a plain name, the handler of POST /tasks
    gives the task the directory [x], beside the download directory and
    not beneath it, and [AddTask] keeps it. *)
Theorem dest_dir_can_escape (dl x : string) (t : Task) :
  plain_name dl -> plain_name x ->
  DestDir t = String.append "../" x ->
  DestDir (place dl t) = x /\ DestDir (kept (place dl t)) = x.
Proof.
  intros Hd Hx Ht.
  assert (DestDir (place dl t) = x) as E.
  { unfold place. rewrite Ht. cbn [String.append String.eqb Ascii.eqb Bool.eqb].
    cbn [set_DestDir DestDir]. now apply Join_dotdot. }
  split; [exact E|]. unfold kept. rewrite E, (plain_not_rooted x Hx).
  cbn [set_DestDir DestDir]. now apply Clean_plain.
Qed.

Lemma dest_dir_can_escape_witness :
  DestDir (place "downloads" wandering) = "x" /\
  DestDir (kept (place "downloads" wandering)) = "x".
Proof.
  apply (dest_dir_can_escape "downloads" "x" wandering).
  - repeat split; discriminate.
  - repeat split; discriminate.
  - reflexivity.
Defined.

End SafetyProps.

(* ------------------------------------------------------------------ *)
(** ** Identifiers *)

Module IdentFacts.
Import GoStr Ident PlaceTerms RouterTerms SanitizeFacts UniquePathFacts.

Lemma hex_pair (b : ascii) :
  is_hex (lower (hi b)) = true /\
  is_hex (lower (lo b)) = true /\
  ascii_of_nat (16 * unhex (lower (hi b)) + unhex (lower (lo b))) = b.
Proof.
  destruct b as [[] [] [] [] [] [] [] []]; vm_compute; repeat split.
Qed.

Lemma hex_no_slash (c : ascii) : is_hex c = true -> eqb_byte "/"%char c = false.
Proof.
  destruct c as [[] [] [] [] [] [] [] []]; vm_compute; intros H;
    first [reflexivity | discriminate H].
Qed.

Lemma contains_append (a b : string) (c : ascii) :
  contains_byte (String.append a b) c = contains_byte a c || contains_byte b c.
Proof. unfold contains_byte. now rewrite bytes_append, existsb_app. Qed.

Lemma append_inj (a x y : string) :
  String.append a x = String.append a y -> x = y.
Proof.
  induction a as [|c a IH]; simpl; intros H; [exact H|].
  injection H as H. now apply IH.
Qed.

End IdentFacts.

Module IdentProps.
Import GoStr Ident PlaceTerms RouterTerms SanitizeFacts UniquePathFacts IdentFacts.

(** X28. The identifiers of [NewID]: the time stamp, a dash and six lowercase
    hexadecimal digits. When the stamp has no slash the identifier is not
    empty and has no slash, so that GET /tasks/{id} can address it; and
    two identifiers with the same stamp are equal only when the three
    random bytes are. *)
Theorem NewID_addressable (stamp : string) (b0 b1 b2 : ascii) :
  contains_byte stamp "/"%char = false ->
  addressable (NewID stamp b0 b1 b2) /\
  String.length (NewID stamp b0 b1 b2) = (String.length stamp + 7)%nat /\
  (exists h, NewID stamp b0 b1 b2 = String.append stamp (String "-" h) /\
             forallb is_hex (bytes h) = true) /\
  (forall c0 c1 c2, NewID stamp c0 c1 c2 = NewID stamp b0 b1 b2 ->
                    c0 = b0 /\ c1 = b1 /\ c2 = b2).
Proof.
  intros Hs. unfold NewID.
  destruct (hex_pair b0) as (A0 & B0 & E0).
  destruct (hex_pair b1) as (A1 & B1 & E1).
  destruct (hex_pair b2) as (A2 & B2 & E2).
  cbn [EncodeToString ToLower String.append].
  split; [split|split; [|split]].
  - intros H. apply (f_equal String.length) in H.
    rewrite length_append in H. simpl in H. lia.
  - rewrite contains_append, Hs. unfold contains_byte.
    cbn [bytes list_ascii_of_string existsb orb].
    rewrite (hex_no_slash _ A0), (hex_no_slash _ B0), (hex_no_slash _ A1),
      (hex_no_slash _ B1), (hex_no_slash _ A2), (hex_no_slash _ B2). reflexivity.
  - rewrite length_append. reflexivity.
  - eexists. split; [reflexivity|].
    cbn [bytes list_ascii_of_string forallb]. rewrite A0, B0, A1, B1, A2, B2. reflexivity.
  - intros c0 c1 c2 H. apply append_inj in H.
    destruct (hex_pair c0) as (_ & _ & F0).
    destruct (hex_pair c1) as (_ & _ & F1).
    destruct (hex_pair c2) as (_ & _ & F2).
    injection H as H0 H0' H1 H1' H2 H2'.
    rewrite H0, H0' in F0. rewrite H1, H1' in F1. rewrite H2, H2' in F2.
    split; [congruence|]. split; congruence.
Qed.

Lemma NewID_addressable_witness :
  addressable (NewID "20250929-101530" "010"%char "171"%char "205"%char) /\
  String.length (NewID "20250929-101530" "010"%char "171"%char "205"%char)
    = (String.length "20250929-101530" + 7)%nat /\
  (exists h, NewID "20250929-101530" "010"%char "171"%char "205"%char
               = String.append "20250929-101530" (String "-" h) /\
             forallb is_hex (bytes h) = true) /\
  (forall c0 c1 c2,
     NewID "20250929-101530" c0 c1 c2
       = NewID "20250929-101530" "010"%char "171"%char "205"%char ->
     c0 = "010"%char /\ c1 = "171"%char /\ c2 = "205"%char).
Proof.
  apply (NewID_addressable "20250929-101530"). reflexivity.
Defined.

End IdentProps.

(* ------------------------------------------------------------------ *)
(** ** The journal read twice *)

Module CodecFacts.
Import Core Store StoreTerms StoreFacts GoJson.

(** The encoding at the head of a string is copied as it is. *)
Lemma rune_width_coerce (c : ascii) (r : string) (w : nat) :
  rune_width (String c r) = Some w ->
  rune_width (String c (coerce (w - 1) r)) = Some w.
Proof.
  unfold rune_width. destruct (lead c) as [[sz [lo hi]]|]; [|discriminate].
  destruct (sz =? 1)%nat; [intros H; injection H as <-; reflexivity|].
  destruct r as [|c1 r1]; [discriminate|].
  destruct (between lo hi c1) eqn:B1; cbn [negb]; [|discriminate].
  destruct (sz =? 2)%nat.
  { intros H. injection H as <-. cbn [Nat.sub coerce]. now rewrite B1. }
  destruct r1 as [|c2 r2]; [discriminate|].
  destruct (between 128 191 c2) eqn:B2; cbn [negb]; [|discriminate].
  destruct (sz =? 3)%nat.
  { intros H. injection H as <-. cbn [Nat.sub coerce]. now rewrite B1, B2. }
  destruct r2 as [|c3 r3]; [discriminate|].
  destruct (between 128 191 c3) eqn:B3; cbn [negb]; [|discriminate].
  intros H. injection H as <-. cbn [Nat.sub coerce]. now rewrite B1, B2, B3.
Qed.

(** What the codec gives back is valid UTF-8. *)
Lemma coerce_is_valid (s : string) : forall skip,
  valid_from skip (coerce skip s) = true.
Proof.
  induction s as [|c r IH]; intros skip; [reflexivity|].
  destruct skip as [|k]; cbn [coerce].
  - destruct (rune_width (String c r)) as [w|] eqn:E.
    + cbn [valid_from]. rewrite (rune_width_coerce c r w E). apply IH.
    + change (valid_from 0 (String.append ufffd (coerce 0 r)))
        with (valid_from 0 (coerce 0 r)).
      apply IH.
  - cbn [valid_from]. apply IH.
Qed.

Lemma round_trip_valid (s : string) : ValidString (round_trip s) = true.
Proof. apply coerce_is_valid. Qed.

Lemma json_file_utf8 (f : FileItem) : utf8_file (json_file f).
Proof. repeat split; apply round_trip_valid. Qed.

Lemma json_task_utf8 (t : Task) : utf8_task (json_task t).
Proof.
  repeat split; try apply round_trip_valid.
  cbn [json_task Files]. apply Forall_forall. intros f Hf.
  apply list_elem_of_fmap in Hf as (f0 & -> & _). apply json_file_utf8.
Qed.

Lemma last_for_Some (id : string) (ts : list Task) (t : Task) :
  last_for id ts = Some t -> t ∈ ts /\ ID t = id.
Proof.
  unfold last_for. intros H. apply last_Some in H as [l E].
  assert (t ∈ filter (fun t0 => ID t0 = id) ts) as Hin.
  { rewrite E. apply elem_of_app. right. apply list_elem_of_here. }
  apply list_elem_of_filter in Hin as [H1 H2]. now split.
Qed.

End CodecFacts.

Module CodecProps.
Import Core Store StoreTerms StoreFacts GoJson CodecFacts.

(** X32. What recovery returns is a fixed point of the journal. After any
    sequence of snapshots appended to a fresh journal, each shorter than
    the token limit, every recovered task is stored under its own id,
    has only valid UTF-8 in its strings, and is read back as it is; so
    that appending a recovered task again and recovering once more gives
    the same map: the bytes that became U+FFFD on the first reading do
    not change again. *)
Theorem recovery_is_stable (jsonLen : Task -> Z) (ts : list Task)
        (m : gmap string Task) :
  Forall (fun t => jsonLen t < maxTokenSize) ts ->
  RecoverTasks (AppendTasks jsonLen OpenWAL_fresh ts) = Ok m ->
  forall id t, m !! id = Some t ->
    ID t = id /\ utf8_task t /\ json_task t = t /\
    (jsonLen t < maxTokenSize ->
     RecoverTasks (AppendTask jsonLen (AppendTasks jsonLen OpenWAL_fresh ts) t)
       = Ok m).
Proof.
  intros Hs Hm id t Ht.
  pose proof (recover_after_append jsonLen OpenWAL_fresh ∅ ts eq_refl Hs) as E.
  rewrite Hm in E. injection E as ->.
  pose proof Ht as Hlook.
  rewrite fold_upsert_lookup, lookup_empty in Ht.
  destruct (last_for id (map json_task ts)) as [x|] eqn:El; [|discriminate].
  injection Ht as ->. apply last_for_Some in El as [Hin Hid].
  apply list_elem_of_fmap in Hin as (t0 & -> & _).
  pose proof (json_task_utf8 t0) as Hv.
  pose proof (json_task_valid _ Hv) as Hfix.
  split; [exact Hid|]. split; [exact Hv|]. split; [exact Hfix|].
  intros Hlen.
  change (AppendTask jsonLen (AppendTasks jsonLen OpenWAL_fresh ts) (json_task t0))
    with (AppendTasks jsonLen (AppendTasks jsonLen OpenWAL_fresh ts) [json_task t0]).
  rewrite (recover_after_append jsonLen _ _ [json_task t0] Hm)
    by (constructor; [exact Hlen | constructor]).
  cbn [map fold_left]. unfold upsert at 1. rewrite Hfix, Hid. f_equal.
  apply insert_id. exact Hlook.
Qed.

(** The snapshot of the file named FF 2E 62 69 6E: what is recovered
    holds U+FFFD and is stable. *)
Lemma recovery_is_stable_witness :
  ID odd_name_read = "a" /\ utf8_task odd_name_read /\
  json_task odd_name_read = odd_name_read /\
  (300 < maxTokenSize ->
   RecoverTasks (AppendTask (fun _ => 300)
                   (AppendTasks (fun _ => 300) OpenWAL_fresh [odd_name]) odd_name_read)
     = Ok {[ "a" := odd_name_read ]}).
Proof.
  apply (recovery_is_stable (fun _ => 300) [odd_name] {[ "a" := odd_name_read ]}).
  - repeat constructor.
  - vm_compute. reflexivity.
  - vm_compute. reflexivity.
Defined.

End CodecProps.

(* ------------------------------------------------------------------ *)
(** ** Workers side by side *)

Module WorkersFacts.
Import Core Queue AppM HttpApi Router Workers AttemptTerms WorkersTerms TaskTerms
       TaskFacts LoaderFacts.

Lemma file_of_Some (m : gmap string Task) (j : Job) (t : Task) (f : FileItem) :
  file_of m j = Some (t, f) <->
  m !! TaskID j = Some t /\
  0 <= FileIndex j < Z.of_nat (length (Files t)) /\
  Files t !! Z.to_nat (FileIndex j) = Some f.
Proof.
  unfold file_of. destruct (m !! TaskID j) as [t0|]; [|split; [discriminate | now intros [? _]]].
  destruct (Z.ltb_spec (FileIndex j) 0) as [Hlo|Hlo].
  { cbn [orb]. split; [discriminate | intros (H & ? & _); injection H as <-; lia]. }
  destruct (Z.geb_spec (FileIndex j) (Z.of_nat (length (Files t0)))) as [Hhi|Hhi].
  { cbn [orb]. split; [discriminate | intros (H & ? & _); injection H as <-; lia]. }
  cbn [orb]. destruct (Files t0 !! Z.to_nat (FileIndex j)) as [f0|] eqn:E.
  - split.
    + intros H. injection H as <- <-. repeat split; try assumption; lia.
    + intros (H & _ & H'). injection H as <-. rewrite E in H'. now injection H' as <-.
  - split; [discriminate|]. intros (H & _ & H'). injection H as <-. congruence.
Qed.

Lemma file_of_key (m : gmap string Task) (j j' : Job) :
  key j = key j' -> file_of m j = file_of m j'.
Proof. unfold key, file_of. intros H. injection H as -> ->. reflexivity. Qed.

Lemma Files_upd (t : Task) (i : nat) (f : FileItem) :
  Files (RecomputeStatus (set_file t i f)) = <[i := f]> (Files t).
Proof. reflexivity. Qed.

Lemma file_of_upd_same (m : gmap string Task) (j : Job) (g : FileItem -> FileItem)
      (t : Task) (f : FileItem) :
  file_of m j = Some (t, f) ->
  file_of (upd m j g) j
    = Some (RecomputeStatus (set_file t (Z.to_nat (FileIndex j)) (g f)), g f).
Proof.
  intros H. unfold upd. rewrite H. apply file_of_Some in H as (Ht & Hi & Hf).
  apply file_of_Some. rewrite lookup_insert_eq, Files_upd, length_insert.
  split; [reflexivity|]. split; [exact Hi|].
  apply list_lookup_insert_eq. apply lookup_lt_Some in Hf. exact Hf.
Qed.

Lemma keeps_upd (m : gmap string Task) (j j' : Job) (g : FileItem -> FileItem) :
  key j' <> key j -> keeps m (upd m j g) j'.
Proof.
  intros Hk t' f' H'. unfold upd.
  destruct (file_of m j) as [[t f]|] eqn:H; [|eauto].
  apply file_of_Some in H as (Ht & Hi & Hf).
  apply file_of_Some in H' as (Ht' & Hi' & Hf').
  destruct (decide (TaskID j' = TaskID j)) as [E|E].
  - rewrite E, Ht in Ht'. injection Ht' as <-.
    exists (RecomputeStatus (set_file t (Z.to_nat (FileIndex j)) (g f))).
    apply file_of_Some. rewrite E, lookup_insert_eq, Files_upd, length_insert.
    split; [reflexivity|]. split; [exact Hi'|].
    rewrite list_lookup_insert_ne; [exact Hf'|].
    intros Hn. apply Hk. unfold key. rewrite E. f_equal. lia.
  - exists t'. apply file_of_Some. rewrite lookup_insert_ne by congruence.
    repeat split; assumption || lia.
Qed.

Lemma bounded_upd (m : gmap string Task) (j : Job) (g : FileItem -> FileItem) :
  bounded m ->
  (forall t f, file_of m j = Some (t, f) -> attempts_ok (g f)) ->
  bounded (upd m j g).
Proof.
  intros Hb Hg. unfold upd. destruct (file_of m j) as [[t f]|] eqn:H; [|exact Hb].
  specialize (Hg _ _ eq_refl). apply file_of_Some in H as (Ht & Hi & Hf).
  intros id t' Hl. destruct (decide (TaskID j = id)) as [<-|Hne].
  - rewrite lookup_insert_eq in Hl. injection Hl as <-.
    rewrite Files_upd. apply Forall_insert; [exact (Hb _ _ Ht) | exact Hg].
  - rewrite lookup_insert_ne in Hl by exact Hne. exact (Hb _ _ Hl).
Qed.

Lemma bounded_file (m : gmap string Task) (j : Job) (t : Task) (f : FileItem) :
  bounded m -> file_of m j = Some (t, f) -> attempts_ok f.
Proof.
  intros Hb H. apply file_of_Some in H as (Ht & _ & Hf).
  specialize (Hb _ _ Ht). rewrite Forall_lookup in Hb. exact (Hb _ _ Hf).
Qed.

Lemma lock_start_upd (m m' : gmap string Task) (j : Job) (now : Z) :
  lock_start m j now = Some m' ->
  exists t f, file_of m j = Some (t, f) /\ State f = FilePending /\
              m' = upd m j (fun f => to_running f now).
Proof.
  unfold lock_start, upd. destruct (file_of m j) as [[t f]|]; [|discriminate].
  destruct (State f) eqn:Es; cbn [FileState_eqb negb]; try discriminate.
  intros H. injection H as <-. exists t, f. split; [reflexivity|]. split; [exact Es | reflexivity].
Qed.

Lemma lock_finish_upd (m : gmap string Task) (j : Job) (res : result Z) (now : Z) :
  lock_finish m j res now = upd m j (fun f => to_finished f res now).
Proof. reflexivity. Qed.

Lemma lock_reset_upd (m : gmap string Task) (j : Job) :
  lock_reset m j = upd m j to_pending.
Proof. reflexivity. Qed.

(** One more attempt on a file that is being fetched stays within the
    limit, and the counter does not wrap. *)
Lemma attempt_counted (f : FileItem) :
  attempts_ok f -> State f = FileRunning ->
  GoInt.add (Attempts f) 1 = Attempts f + 1 /\
  Attempts f + 1 <= GoInt.max 1 (MaxAttempts f).
Proof.
  unfold attempts_ok. intros (H1 & H2 & H3) Hs. rewrite Hs in H3.
  unfold GoInt.in_range, GoInt.min_int, GoInt.max_int in H1. split.
  - apply wrap_id. unfold GoInt.in_range, GoInt.min_int, GoInt.max_int. lia.
  - unfold GoInt.max. destruct (Z.gtb_spec 1 (MaxAttempts f)); lia.
Qed.

Lemma ok_started (f : FileItem) (now : Z) :
  attempts_ok f -> State f = FilePending -> attempts_ok (to_running f now).
Proof.
  unfold attempts_ok. intros (H1 & H2 & H3) Hs. rewrite Hs in H3. cbn. auto.
Qed.

Lemma ok_recorded (f : FileItem) (res : result Z) (now : Z) :
  attempts_ok f -> State f = FileRunning -> attempts_ok (to_finished f res now).
Proof.
  intros Hok Hs. destruct (attempt_counted f Hok Hs) as [E Hle].
  destruct Hok as (H1 & H2 & _).
  unfold attempts_ok. destruct res; cbn; rewrite E;
    (split; [exact H1|]); split; lia.
Qed.

Lemma ok_reset (f : FileItem) :
  attempts_ok f -> Attempts f < MaxAttempts f -> attempts_ok (to_pending f).
Proof.
  unfold attempts_ok. intros (H1 & H2 & _) Hlt. cbn. auto.
Qed.

Lemma phase_ok_keeps (m m' : gmap string Task) (ph : Phase) :
  (forall j, owned ph = Some j -> keeps m m' j) ->
  phase_ok m ph -> phase_ok m' ph.
Proof.
  destruct ph as [|j|j fl|j|j]; cbn [phase_ok owned]; intros K; try exact id.
  - intros (t & f & H & Hs). destruct (K j eq_refl t f H) as [t' H']. eauto.
  - intros (t & f & H & Hs). destruct (K j eq_refl t f H) as [t' H']. eauto.
  - intros (t & f & H & Hs). destruct (K j eq_refl t f H) as [t' H']. eauto.
Qed.

(** The state of the file a worker has in hand is not PENDING. *)
Lemma owned_not_pending (m : gmap string Task) (ph : Phase) (j : Job)
      (t : Task) (f : FileItem) :
  phase_ok m ph -> owned ph = Some j -> file_of m j = Some (t, f) ->
  State f <> FilePending.
Proof.
  destruct ph as [|j0|j0 fl|j0|j0]; cbn [phase_ok owned]; intros Hp Ho H;
    try discriminate; injection Ho as ->.
  - destruct Hp as (t' & f' & H' & Hs). rewrite H in H'. injection H' as <- <-.
    congruence.
  - destruct Hp as (t' & f' & H' & Hs). rewrite H in H'. injection H' as <- <-.
    destruct fl; congruence.
  - destruct Hp as (t' & f' & H' & Hs & _). rewrite H in H'. injection H' as <- <-.
    congruence.
Qed.

(** Worker [i] moves to a new phase and the memory to [m']. *)
Lemma inv_update (p : Pool) (i : nat) (old new : Phase) (m' : gmap string Task) :
  inv p -> phases p !! i = Some old ->
  phase_ok m' new ->
  (forall i' ph', i' <> i -> phases p !! i' = Some ph' -> phase_ok m' ph') ->
  (forall j i' ph' j', owned new = Some j -> i' <> i ->
     phases p !! i' = Some ph' -> owned ph' = Some j' -> key j <> key j') ->
  inv (mkPool m' (<[i := new]> (phases p))).
Proof.
  intros [Hp He] Hi Hn Ho Hx. split; cbn [mem phases].
  - intros k ph Hk. apply list_lookup_insert_Some in Hk as [(<- & <- & _)|(Hne & Hk)].
    + exact Hn.
    + apply (Ho k); [congruence | exact Hk].
  - intros a b ph ph' j j' Hab Ha Hb0 Oa Ob.
    apply list_lookup_insert_Some in Ha as [(<- & <- & _)|(Hna & Ha)];
      apply list_lookup_insert_Some in Hb0 as [(<- & <- & _)|(Hnb & Hb0)].
    + congruence.
    + apply (Hx j b ph' j' Oa); [congruence | exact Hb0 | exact Ob].
    + intros E. apply (Hx j' a ph j Ob); [congruence | exact Ha | exact Oa | now symmetry].
    + exact (He a b ph ph' j j' Hab Ha Hb0 Oa Ob).
Qed.

(** The memory changes and the workers stay where they are. *)
Lemma inv_memory (p : Pool) (m' : gmap string Task) :
  inv p -> (forall j, keeps (mem p) m' j) -> inv (mkPool m' (phases p)).
Proof.
  intros [Hp He] K. split; cbn [mem phases].
  - intros i ph Hi. apply (phase_ok_keeps (mem p)); [intros j _; apply K|].
    exact (Hp i ph Hi).
  - exact He.
Qed.

Lemma keeps_fresh (m : gmap string Task) (id : string) (t : Task) (j : Job) :
  m !! id = None -> keeps m (<[id := t]> m) j.
Proof.
  intros Hfree t' f' H'. exists t'. apply file_of_Some in H' as (Ht' & Hi' & Hf').
  apply file_of_Some. rewrite lookup_insert_ne by congruence.
  repeat split; assumption || lia.
Qed.

Lemma keeps_tidy (m : gmap string Task) (id : string) (t : Task) (d : string) (j : Job) :
  m !! id = Some t -> keeps m (<[id := set_DestDir t d]> m) j.
Proof.
  intros Ht t' f' H'. apply file_of_Some in H' as (Ht' & Hi' & Hf').
  destruct (decide (id = TaskID j)) as [->|Hne].
  - rewrite Ht in Ht'. injection Ht' as <-. eexists.
    apply file_of_Some. rewrite lookup_insert_eq.
    split; [reflexivity|]. split; assumption.
  - exists t'. apply file_of_Some. rewrite lookup_insert_ne by exact Hne.
    repeat split; assumption || lia.
Qed.

(** What a task of the memory is after a critical section. *)
Lemma upd_lookup (m : gmap string Task) (j : Job) (g : FileItem -> FileItem)
      (t : Task) (f : FileItem) (id : string) (t' : Task) :
  file_of m j = Some (t, f) -> upd m j g !! id = Some t' ->
  (id = TaskID j /\ Files t' = <[Z.to_nat (FileIndex j) := g f]> (Files t)) \/
  (id <> TaskID j /\ m !! id = Some t').
Proof.
  intros H. unfold upd. rewrite H. intros Hl.
  destruct (decide (TaskID j = id)) as [<-|Hne].
  - rewrite lookup_insert_eq in Hl. injection Hl as <-. left. now split.
  - rewrite lookup_insert_ne in Hl by exact Hne. right. split; congruence.
Qed.

Section Exec.
Variable url_Parse : string -> option URLParts.
Variable conf : Config.

Lemma posted_fresh (id : string) (now : Z) (r : PostBody) (t : Task) :
  NewTask url_Parse id now (PLabel r) (PDestDir r) (Links r) (AppM.Retries conf) = Ok t ->
  Forall (fun f => State f = FilePending /\ Attempts f = 0 /\
                   MaxAttempts f = AppM.Retries conf)
         (Files (place (DownloadDir conf) t)).
Proof.
  intros H.
  assert (Files (place (DownloadDir conf) t) = Files t) as ->.
  { unfold place. now destruct (String.eqb (DestDir t) EmptyString). }
  unfold NewTask in H. destruct (Links r) as [|l links]; [discriminate|].
  destruct (newFiles url_Parse (l :: links) (AppM.Retries conf)) as [fs|] eqn:E;
    [|discriminate].
  injection H as <-. cbn [RecomputeStatus Files].
  apply newFiles_fresh in E as [_ Hf].
  clear -Hf. induction Hf as [|x f xs fs Hx _ IH]; constructor; [|exact IH].
  destruct Hx as (_ & Hs & _ & Ha & Hm & _). auto.
Qed.

Lemma inv_exec (act : Action) (p p' : Pool) :
  inv p -> exec url_Parse conf act p = Some p' -> inv p'.
Proof.
  intros Hinv. pose proof Hinv as [Hp He].
  destruct act as [i job now|i res now|i|i|i|id now r|id]; cbn [exec].
  - (* Take *)
    destruct (phases p !! i) as [[| | | |]|] eqn:Hi; try discriminate.
    destruct (lock_start (mem p) job now) as [m|] eqn:Hl.
    + intros H. injection H as <-.
      apply lock_start_upd in Hl as (t & f & Hf & Hs & ->).
      assert (forall i' ph' j', phases p !! i' = Some ph' -> owned ph' = Some j' ->
                key j' <> key job) as Hother.
      { intros i' ph' j' Hi' Ho E.
        rewrite <- (file_of_key (mem p) _ _ E) in Hf.
        exact (owned_not_pending _ _ _ _ _ (Hp _ _ Hi') Ho Hf Hs). }
      apply (inv_update p i Waiting); try assumption.
      * cbn [phase_ok]. eexists. eexists.
        split; [apply file_of_upd_same; exact Hf | reflexivity].
      * intros i' ph' _ Hi'. apply (phase_ok_keeps (mem p)); [|exact (Hp _ _ Hi')].
        intros j' Ho. apply keeps_upd. exact (Hother _ _ _ Hi' Ho).
      * intros j i' ph' j' Ho _ Hi' Ho'. cbn [owned] in Ho. injection Ho as <-.
        intros E. apply (Hother _ _ _ Hi' Ho'). now symmetry.
    + intros H. injection H as <-. exact Hinv.
  - (* Fetched *)
    destruct (phases p !! i) as [[|job| | |]|] eqn:Hi; try discriminate.
    intros H. injection H as <-. rewrite lock_finish_upd.
    destruct (Hp _ _ Hi) as (t & f & Hf & Hs).
    assert (forall i' ph' j', i' <> i -> phases p !! i' = Some ph' ->
              owned ph' = Some j' -> key j' <> key job) as Hother.
    { intros i' ph' j' Hne Hi' Ho. exact (He i' i ph' _ j' job Hne Hi' Hi Ho eq_refl). }
    apply (inv_update p i (Fetching job)); try assumption.
    + cbn [phase_ok]. eexists. eexists.
      split; [apply file_of_upd_same; exact Hf|]. now destruct res.
    + intros i' ph' Hne Hi'. apply (phase_ok_keeps (mem p)); [|exact (Hp _ _ Hi')].
      intros j' Ho. apply keeps_upd. exact (Hother _ _ _ Hne Hi' Ho).
    + intros j i' ph' j' Ho Hne Hi' Ho'. cbn [owned] in Ho. injection Ho as <-.
      intros E. apply (Hother _ _ _ Hne Hi' Ho'). now symmetry.
  - (* Test *)
    destruct (phases p !! i) as [[| |job fl| |]|] eqn:Hi; try discriminate.
    intros H. injection H as <-.
    destruct (Hp _ _ Hi) as (t & f & Hf & Hs).
    apply (inv_update p i (Recorded job fl)); try assumption.
    + unfold wants_retry. rewrite Hf.
      destruct fl; cbn [andb]; [|exact I].
      destruct (Z.ltb_spec (Attempts f) (MaxAttempts f)) as [Hlt|Hge]; [|exact I].
      cbn [phase_ok]. eauto.
    + intros i' ph' _ Hi'. exact (Hp _ _ Hi').
    + intros j i' ph' j' Ho Hne Hi' Ho'.
      assert (j = job) as ->.
      { destruct (wants_retry (mem p) job fl); cbn [owned] in Ho; congruence. }
      intros E. apply (He i' i ph' _ j' job Hne Hi' Hi Ho' eq_refl). now symmetry.
  - (* Reset *)
    destruct (phases p !! i) as [[| | |job|]|] eqn:Hi; try discriminate.
    intros H. injection H as <-. rewrite lock_reset_upd.
    apply (inv_update p i (Resetting job)); try assumption.
    + exact I.
    + intros i' ph' Hne Hi'. apply (phase_ok_keeps (mem p)); [|exact (Hp _ _ Hi')].
      intros j' Ho. apply keeps_upd.
      exact (He i' i ph' _ j' job Hne Hi' Hi Ho eq_refl).
    + intros j i' ph' j' Ho. discriminate Ho.
  - (* Send *)
    destruct (phases p !! i) as [[| | | |job]|] eqn:Hi; try discriminate.
    intros H. injection H as <-.
    apply (inv_update p i (Sending job)); try assumption.
    + exact I.
    + intros i' ph' _ Hi'. exact (Hp _ _ Hi').
    + intros j i' ph' j' Ho. discriminate Ho.
  - (* Post *)
    destruct (length (Links r) =? 0)%nat; [discriminate|].
    destruct (NewTask url_Parse id now (PLabel r) (PDestDir r) (Links r)
                      (AppM.Retries conf)) as [t|] eqn:Hn; [|discriminate].
    cbv zeta.
    destruct (mem p !! ID (place (DownloadDir conf) t)) eqn:Hfree; [discriminate|].
    intros H. injection H as <-. apply inv_memory; [exact Hinv|].
    intros j. now apply keeps_fresh.
  - (* Tidy *)
    destruct (mem p !! id) as [t|] eqn:Ht; [|discriminate].
    destruct (GoPath.rooted (DestDir t)).
    + intros H. injection H as <-. exact Hinv.
    + intros H. injection H as <-. apply inv_memory; [exact Hinv|].
      intros j. now apply keeps_tidy.
Qed.

Lemma bounded_exec (act : Action) (p p' : Pool) :
  GoInt.in_range (AppM.Retries conf) ->
  inv p -> bounded (mem p) -> exec url_Parse conf act p = Some p' -> bounded (mem p').
Proof.
  intros Hr [Hp He] Hb.
  destruct act as [i job now|i res now|i|i|i|id now r|id]; cbn [exec].
  - destruct (phases p !! i) as [[| | | |]|] eqn:Hi; try discriminate.
    destruct (lock_start (mem p) job now) as [m|] eqn:Hl.
    + intros H. injection H as <-.
      apply lock_start_upd in Hl as (t & f & Hf & Hs & ->).
      apply bounded_upd; [exact Hb|]. intros t0 f0 H0.
      rewrite Hf in H0. injection H0 as <- <-.
      apply ok_started; [exact (bounded_file _ _ _ _ Hb Hf) | exact Hs].
    + intros H. injection H as <-. exact Hb.
  - destruct (phases p !! i) as [[|job| | |]|] eqn:Hi; try discriminate.
    intros H. injection H as <-. cbn [mem]. rewrite lock_finish_upd.
    destruct (Hp _ _ Hi) as (t & f & Hf & Hs).
    apply bounded_upd; [exact Hb|]. intros t0 f0 H0.
    rewrite Hf in H0. injection H0 as <- <-.
    apply ok_recorded; [exact (bounded_file _ _ _ _ Hb Hf) | exact Hs].
  - destruct (phases p !! i) as [[| |job fl| |]|] eqn:Hi; try discriminate.
    intros H. injection H as <-. exact Hb.
  - destruct (phases p !! i) as [[| | |job|]|] eqn:Hi; try discriminate.
    intros H. injection H as <-. cbn [mem]. rewrite lock_reset_upd.
    destruct (Hp _ _ Hi) as (t & f & Hf & Hs & Hlt).
    apply bounded_upd; [exact Hb|]. intros t0 f0 H0.
    rewrite Hf in H0. injection H0 as <- <-.
    apply ok_reset; [exact (bounded_file _ _ _ _ Hb Hf) | exact Hlt].
  - destruct (phases p !! i) as [[| | | |job]|] eqn:Hi; try discriminate.
    intros H. injection H as <-. exact Hb.
  - destruct (length (Links r) =? 0)%nat; [discriminate|].
    destruct (NewTask url_Parse id now (PLabel r) (PDestDir r) (Links r)
                      (AppM.Retries conf)) as [t|] eqn:Hn; [|discriminate].
    cbv zeta.
    destruct (mem p !! ID (place (DownloadDir conf) t)) eqn:Hfree; [discriminate|].
    intros H. injection H as <-. cbn [mem]. intros id' t' Hl.
    destruct (decide (ID (place (DownloadDir conf) t) = id')) as [<-|Hne].
    + rewrite lookup_insert_eq in Hl. injection Hl as <-.
      eapply Forall_impl; [exact (posted_fresh id now r t Hn)|].
      intros f (Hs & Ha & Hm). unfold attempts_ok. rewrite Hs, Ha, Hm.
      split; [exact Hr|]. split; [lia | now left].
    + rewrite lookup_insert_ne in Hl by exact Hne. exact (Hb _ _ Hl).
  - destruct (mem p !! id) as [t|] eqn:Ht; [|discriminate].
    destruct (GoPath.rooted (DestDir t)).
    + intros H. injection H as <-. exact Hb.
    + intros H. injection H as <-. cbn [mem]. intros id' t' Hl.
      destruct (decide (id = id')) as [<-|Hne].
      * rewrite lookup_insert_eq in Hl. injection Hl as <-. exact (Hb _ _ Ht).
      * rewrite lookup_insert_ne in Hl by exact Hne. exact (Hb _ _ Hl).
Qed.

(** A RUNNING file of the memory after a critical section on the file
    of [j] that does not leave that file RUNNING was RUNNING before, and
    is another file. *)
Lemma running_after (m : gmap string Task) (j : Job) (g : FileItem -> FileItem)
      (t : Task) (f : FileItem) (id : string) (t' : Task) (k : nat) (f' : FileItem) :
  file_of m j = Some (t, f) ->
  upd m j g !! id = Some t' -> Files t' !! k = Some f' ->
  (id = TaskID j /\ k = Z.to_nat (FileIndex j) /\ f' = g f) \/
  ((id <> TaskID j \/ k <> Z.to_nat (FileIndex j)) /\
   exists t0, m !! id = Some t0 /\ Files t0 !! k = Some f').
Proof.
  intros H Hl Hk. pose proof H as H0. apply file_of_Some in H0 as (Ht & Hi & Hf).
  destruct (upd_lookup m j g t f id t' H Hl) as [[-> E]|[Hne E]].
  - rewrite E in Hk. destruct (decide (k = Z.to_nat (FileIndex j))) as [->|Hnk].
    + left. rewrite list_lookup_insert_eq in Hk by (apply lookup_lt_Some in Hf; exact Hf).
      injection Hk as <-. auto.
    + right. split; [now right|]. exists t. split; [exact Ht|].
      rewrite list_lookup_insert_ne in Hk by congruence. exact Hk.
  - right. split; [now left|]. eauto.
Qed.

Lemma tracked_exec (act : Action) (p p' : Pool) :
  inv p -> tracked p -> exec url_Parse conf act p = Some p' -> tracked p'.
Proof.
  intros [Hp He] Ht.
  assert (forall i old new,
            phases p !! i = Some old -> (forall j, old <> Fetching j) ->
            forall id t k f, mem p !! id = Some t -> Files t !! k = Some f ->
              State f = FileRunning ->
              exists i0 j0, <[i := new]> (phases p) !! i0 = Some (Fetching j0) /\
                            TaskID j0 = id /\ FileIndex j0 = Z.of_nat k) as Hkeep.
  { intros i old new Hi Hold id t k f Hm Hk Hs.
    destruct (Ht id t k f Hm Hk Hs) as (i0 & j0 & H0 & E1 & E2).
    exists i0, j0. split; [|auto].
    rewrite list_lookup_insert_ne; [exact H0|].
    intros ->. rewrite Hi in H0. injection H0 as ->. now apply (Hold j0). }
  destruct act as [i job now|i res now|i|i|i|id now r|id]; cbn [exec].
  - destruct (phases p !! i) as [[| | | |]|] eqn:Hi; try discriminate.
    destruct (lock_start (mem p) job now) as [m|] eqn:Hl.
    + intros H. injection H as <-.
      apply lock_start_upd in Hl as (t & f & Hf & Hs & ->).
      intros id t' k f' Hm Hk Hr. cbn [mem phases] in *.
      destruct (running_after _ _ _ _ _ _ _ _ _ Hf Hm Hk)
        as [(-> & -> & _)|(_ & t0 & Hm0 & Hk0)].
      * exists i, job. apply file_of_Some in Hf as (_ & Hi0 & _).
        split; [|split; [reflexivity | lia]].
        apply list_lookup_insert_eq. apply lookup_lt_Some in Hi. exact Hi.
      * apply (Hkeep i Waiting _ Hi ltac:(discriminate) id t0 k f' Hm0 Hk0 Hr).
    + intros H. injection H as <-. exact Ht.
  - destruct (phases p !! i) as [[|job| | |]|] eqn:Hi; try discriminate.
    intros H. injection H as <-. cbn [mem phases]. rewrite lock_finish_upd.
    destruct (Hp _ _ Hi) as (t & f & Hf & Hs).
    intros id t' k f' Hm Hk Hr. cbn [mem phases] in *.
    destruct (running_after _ _ _ _ _ _ _ _ _ Hf Hm Hk)
      as [(-> & -> & ->)|(Hpos & t0 & Hm0 & Hk0)].
    + now destruct res.
    + destruct (Ht id t0 k f' Hm0 Hk0 Hr) as (i0 & j0 & H0 & E1 & E2).
      exists i0, j0. split; [|auto].
      rewrite list_lookup_insert_ne; [exact H0|].
      intros ->. rewrite Hi in H0. injection H0 as <-.
      destruct Hpos as [Hpos|Hpos]; [congruence|]. apply Hpos. rewrite E2. lia.
  - destruct (phases p !! i) as [[| |job fl| |]|] eqn:Hi; try discriminate.
    intros H. injection H as <-.
    intros id t k f Hm Hk Hr. cbn [mem phases] in *.
    apply (Hkeep i (Recorded job fl) _ Hi ltac:(discriminate) id t k f Hm Hk Hr).
  - destruct (phases p !! i) as [[| | |job|]|] eqn:Hi; try discriminate.
    intros H. injection H as <-. cbn [mem phases]. rewrite lock_reset_upd.
    destruct (Hp _ _ Hi) as (t & f & Hf & Hs & _).
    intros id t' k f' Hm Hk Hr. cbn [mem phases] in *.
    destruct (running_after _ _ _ _ _ _ _ _ _ Hf Hm Hk)
      as [(-> & -> & ->)|(_ & t0 & Hm0 & Hk0)].
    + discriminate Hr.
    + apply (Hkeep i (Resetting job) _ Hi ltac:(discriminate) id t0 k f' Hm0 Hk0 Hr).
  - destruct (phases p !! i) as [[| | | |job]|] eqn:Hi; try discriminate.
    intros H. injection H as <-.
    intros id t k f Hm Hk Hr. cbn [mem phases] in *.
    apply (Hkeep i (Sending job) _ Hi ltac:(discriminate) id t k f Hm Hk Hr).
  - destruct (length (Links r) =? 0)%nat; [discriminate|].
    destruct (NewTask url_Parse id now (PLabel r) (PDestDir r) (Links r)
                      (AppM.Retries conf)) as [t|] eqn:Hn; [|discriminate].
    cbv zeta.
    destruct (mem p !! ID (place (DownloadDir conf) t)) eqn:Hfree; [discriminate|].
    intros H. injection H as <-.
    intros id' t' k f Hm Hk Hr. cbn [mem phases] in *.
    destruct (decide (ID (place (DownloadDir conf) t) = id')) as [<-|Hne].
    + rewrite lookup_insert_eq in Hm. injection Hm as <-.
      pose proof (posted_fresh id now r t Hn) as Hfr.
      rewrite Forall_lookup in Hfr. destruct (Hfr _ _ Hk) as (Hs & _). congruence.
    + rewrite lookup_insert_ne in Hm by exact Hne. exact (Ht _ _ _ _ Hm Hk Hr).
  - destruct (mem p !! id) as [t|] eqn:Hm0; [|discriminate].
    destruct (GoPath.rooted (DestDir t)).
    + intros H. injection H as <-. exact Ht.
    + intros H. injection H as <-.
      intros id' t' k f Hm Hk Hr. cbn [mem phases] in *.
      destruct (decide (id = id')) as [<-|Hne].
      * rewrite lookup_insert_eq in Hm. injection Hm as <-.
        exact (Ht _ _ _ _ Hm0 Hk Hr).
      * rewrite lookup_insert_ne in Hm by exact Hne. exact (Ht _ _ _ _ Hm Hk Hr).
Qed.

Lemma inv_execs (acts : list Action) : forall p p',
  inv p -> execs url_Parse conf acts p = Some p' -> inv p'.
Proof.
  induction acts as [|act acts IH]; intros p p' Hinv H; cbn [execs] in H.
  - now injection H as <-.
  - destruct (exec url_Parse conf act p) as [q|] eqn:E; [|discriminate].
    apply (IH q); [|exact H]. now apply inv_exec with act p.
Qed.

Lemma bounded_execs (acts : list Action) : forall p p',
  GoInt.in_range (AppM.Retries conf) ->
  inv p -> bounded (mem p) -> execs url_Parse conf acts p = Some p' ->
  bounded (mem p').
Proof.
  induction acts as [|act acts IH]; intros p p' Hr Hinv Hb H; cbn [execs] in H.
  - now injection H as <-.
  - destruct (exec url_Parse conf act p) as [q|] eqn:E; [|discriminate].
    apply (IH q); [exact Hr | now apply inv_exec with act p | | exact H].
    now apply bounded_exec with act p.
Qed.

Lemma tracked_execs (acts : list Action) : forall p p',
  inv p -> tracked p -> execs url_Parse conf acts p = Some p' -> tracked p'.
Proof.
  induction acts as [|act acts IH]; intros p p' Hinv Ht H; cbn [execs] in H.
  - now injection H as <-.
  - destruct (exec url_Parse conf act p) as [q|] eqn:E; [|discriminate].
    apply (IH q); [now apply inv_exec with act p | | exact H].
    now apply tracked_exec with act p.
Qed.
End Exec.

Lemma inv_idle (p : Pool) : idle p -> inv p.
Proof.
  intros Hi. unfold idle in Hi. rewrite Forall_lookup in Hi. split.
  - intros i ph H. rewrite (Hi _ _ H). exact I.
  - intros i i' ph ph' j j' _ H _ Ho. rewrite (Hi _ _ H) in Ho. discriminate Ho.
Qed.

Lemma tracked_start (p : Pool) : none_running (mem p) -> tracked p.
Proof.
  intros Hn id t k f Hm Hk Hr. specialize (Hn _ _ Hm).
  rewrite Forall_lookup in Hn. now destruct (Hn _ _ Hk).
Qed.

Lemma idle_start (a : App) : idle (start a).
Proof. unfold idle, start. cbn [phases]. apply Forall_replicate. reflexivity. Qed.

Lemma four_workers_bounded : bounded (mem four_workers).
Proof.
  intros id t H. cbn [mem four_workers start tasks OneFile.app0] in H.
  apply lookup_singleton_Some in H as [_ <-].
  repeat constructor; cbn; unfold GoInt.min_int, GoInt.max_int; lia.
Qed.

Lemma four_workers_rest : none_running (mem four_workers).
Proof.
  intros id t H. cbn [mem four_workers start tasks OneFile.app0] in H.
  apply lookup_singleton_Some in H as [_ <-].
  repeat constructor. discriminate.
Qed.

End WorkersFacts.

Module WorkersProps.
Import Core Queue AppM HttpApi Router Workers AttemptTerms WorkersTerms WorkersFacts
       Scenario OneFile.

Section Exec.
Variable url_Parse : string -> option URLParts.
Variable conf : Config.

(** X17. No file is attempted more often than its limit allows, however
    the goroutines interleave. From a state in which every worker is
    waiting and every file is within its limit (as the files of
    [NewTask] are), and with a number of retries that is an [int]: in
    every state reached by a schedule of critical sections,
    unsynchronised steps and POST /tasks requests, whatever jobs the
    workers receive (the same job more than once included) and whatever
    [Fetch] returns, each file has made between 0 and
    max(1, max_attempts) attempts. *)
Theorem attempts_within_limit (p0 p : Pool) (acts : list Action) :
  GoInt.in_range (AppM.Retries conf) ->
  idle p0 -> bounded (mem p0) ->
  execs url_Parse conf acts p0 = Some p ->
  forall id t f,
    mem p !! id = Some t -> f ∈ Files t ->
    0 <= Attempts f <= GoInt.max 1 (MaxAttempts f).
Proof.
  intros Hr Hi Hb He id t f Ht Hf.
  pose proof (bounded_execs url_Parse conf acts p0 p Hr (inv_idle p0 Hi) Hb He) as Hb'.
  specialize (Hb' _ _ Ht). rewrite Forall_forall in Hb'.
  destruct (Hb' f Hf) as (H1 & H2 & H3). split; [exact H2|].
  unfold GoInt.max in *.
  destruct (State f), (Z.gtb_spec 1 (MaxAttempts f)); lia.
Qed.

(** X29. A download that succeeds is recorded on its file, however the
    goroutines interleave. In every state reached by a schedule, a
    worker that is in [Fetch] for a job has a file that exists and is
    RUNNING, and no other worker has that file in hand (a second copy of
    the job was dropped). When its [Fetch] returns [w] bytes and no
    error, the second critical section makes exactly that file DONE,
    with no error, [w] bytes and one more attempt, the counter not
    wrapping; the other files of the task and the other tasks are as they
    were; and the test that follows sends the worker back to wait, with
    no retry. *)
Theorem success_is_recorded (p0 p : Pool) (acts : list Action)
        (i : nat) (job : Job) (w now : Z) :
  GoInt.in_range (AppM.Retries conf) ->
  idle p0 -> bounded (mem p0) ->
  execs url_Parse conf acts p0 = Some p ->
  phases p !! i = Some (Fetching job) ->
  exists t f t' f' p1 p2,
    file_of (mem p) job = Some (t, f) /\ State f = FileRunning /\
    (forall i' ph' j', i' <> i -> phases p !! i' = Some ph' ->
                       owned ph' = Some j' -> key j' <> key job) /\
    exec url_Parse conf (Fetched i (Ok w) now) p = Some p1 /\
    file_of (mem p1) job = Some (t', f') /\
    State f' = FileDone /\ Error f' = EmptyString /\ BytesDownloaded f' = w /\
    Attempts f' = Attempts f + 1 /\ FinishedAt f' = Some now /\
    (forall k, k <> Z.to_nat (FileIndex job) -> Files t' !! k = Files t !! k) /\
    (forall id, id <> TaskID job -> mem p1 !! id = mem p !! id) /\
    exec url_Parse conf (Test i) p1 = Some p2 /\
    phases p2 !! i = Some Waiting /\ mem p2 = mem p1.
Proof.
  intros Hr Hi Hb He Hph.
  pose proof (inv_execs url_Parse conf acts p0 p (inv_idle p0 Hi) He) as [Hp Hx].
  pose proof (bounded_execs url_Parse conf acts p0 p Hr (inv_idle p0 Hi) Hb He) as Hb'.
  destruct (Hp _ _ Hph) as (t & f & Hf & Hs).
  pose proof (bounded_file _ _ _ _ Hb' Hf) as Hok.
  destruct (attempt_counted f Hok Hs) as [Hadd _].
  pose proof (file_of_upd_same (mem p) job (fun f => to_finished f (Ok w) now) t f Hf)
    as Hnew.
  assert (i < length (phases p))%nat as Hlen by (apply lookup_lt_Some in Hph; exact Hph).
  exists t, f. eexists. eexists. eexists. eexists.
  split; [exact Hf|]. split; [exact Hs|].
  split.
  { intros i' ph' j' Hne Hi' Ho. exact (Hx i' i ph' _ j' job Hne Hi' Hph Ho eq_refl). }
  split; [cbn [exec]; rewrite Hph; reflexivity|].
  cbn [mem phases]. rewrite lock_finish_upd.
  split; [exact Hnew|].
  split; [reflexivity|]. split; [reflexivity|]. split; [reflexivity|].
  split; [exact Hadd|]. split; [reflexivity|].
  split.
  { intros k Hk. rewrite Files_upd. apply list_lookup_insert_ne. congruence. }
  split.
  { intros id Hne. unfold upd. rewrite Hf. apply lookup_insert_ne. congruence. }
  cbn [exec phases mem].
  rewrite list_lookup_insert_eq by exact Hlen. cbn [failed wants_retry andb].
  split; [reflexivity|]. cbn [phases mem].
  split; [|reflexivity].
  apply list_lookup_insert_eq. rewrite length_insert. exact Hlen.
Qed.

(** X31. The mark RUNNING is reliable, however the goroutines interleave.
    From a state in which every worker is waiting and no file is RUNNING
    (as when [New] returns: [recoverFromWAL] has reset the files that
    were RUNNING), in every state reached by a schedule each RUNNING
    file is the file of exactly one worker, which is in [Fetch] for it;
    so there are never more RUNNING files than workers. *)
Theorem running_is_fetched (p0 p : Pool) (acts : list Action) :
  idle p0 -> none_running (mem p0) ->
  execs url_Parse conf acts p0 = Some p ->
  forall id t k f,
    mem p !! id = Some t -> Files t !! k = Some f -> State f = FileRunning ->
    exists i j,
      phases p !! i = Some (Fetching j) /\ TaskID j = id /\ FileIndex j = Z.of_nat k /\
      forall i' j', phases p !! i' = Some (Fetching j') -> key j' = key j -> i' = i.
Proof.
  intros Hi Hn He id t k f Hm Hk Hr.
  pose proof (inv_execs url_Parse conf acts p0 p (inv_idle p0 Hi) He) as [Hp Hx].
  pose proof (tracked_execs url_Parse conf acts p0 p (inv_idle p0 Hi)
                (tracked_start p0 Hn) He) as Ht.
  destruct (Ht id t k f Hm Hk Hr) as (i & j & H0 & E1 & E2).
  exists i, j. repeat split; try assumption.
  intros i' j' H' Ek. destruct (decide (i' = i)) as [E|Hne]; [exact E|].
  now destruct (Hx i' i _ _ j' j Hne H' H0 eq_refl eq_refl).
Qed.
End Exec.

Lemma attempts_within_limit_witness :
  execs parse_fake (conf_with 3) schedule four_workers = Some after_schedule /\
  forall id t f,
    mem after_schedule !! id = Some t -> f ∈ Files t ->
    0 <= Attempts f <= GoInt.max 1 (MaxAttempts f).
Proof.
  split; [vm_compute; reflexivity|].
  apply (attempts_within_limit parse_fake (conf_with 3) four_workers after_schedule
           schedule).
  - unfold GoInt.in_range, GoInt.min_int, GoInt.max_int. cbn. lia.
  - apply idle_start.
  - exact four_workers_bounded.
  - vm_compute. reflexivity.
Defined.

Lemma success_is_recorded_witness :
  exists t f t' f' p1 p2,
    file_of (mem after_schedule) job0 = Some (t, f) /\ State f = FileRunning /\
    (forall i' ph' j', i' <> 1%nat -> phases after_schedule !! i' = Some ph' ->
                       owned ph' = Some j' -> key j' <> key job0) /\
    exec parse_fake (conf_with 3) (Fetched 1 (Ok 7) 5) after_schedule = Some p1 /\
    file_of (mem p1) job0 = Some (t', f') /\
    State f' = FileDone /\ Error f' = EmptyString /\ BytesDownloaded f' = 7 /\
    Attempts f' = Attempts f + 1 /\ FinishedAt f' = Some 5 /\
    (forall k, k <> Z.to_nat (FileIndex job0) -> Files t' !! k = Files t !! k) /\
    (forall id, id <> TaskID job0 -> mem p1 !! id = mem after_schedule !! id) /\
    exec parse_fake (conf_with 3) (Test 1) p1 = Some p2 /\
    phases p2 !! 1%nat = Some Waiting /\ mem p2 = mem p1.
Proof.
  apply (success_is_recorded parse_fake (conf_with 3) four_workers after_schedule
           schedule 1 job0 7 5).
  - unfold GoInt.in_range, GoInt.min_int, GoInt.max_int. cbn. lia.
  - apply idle_start.
  - exact four_workers_bounded.
  - vm_compute. reflexivity.
  - reflexivity.
Defined.

Lemma running_is_fetched_witness :
  exists t f,
    mem after_schedule !! id0 = Some t /\ Files t !! 0%nat = Some f /\
    State f = FileRunning /\
    exists i j,
      phases after_schedule !! i = Some (Fetching j) /\ TaskID j = id0 /\
      FileIndex j = Z.of_nat 0 /\
      forall i' j', phases after_schedule !! i' = Some (Fetching j') ->
                    key j' = key j -> i' = i.
Proof.
  eexists. eexists. split; [vm_compute; reflexivity|].
  split; [reflexivity|]. split; [reflexivity|].
  eapply (running_is_fetched parse_fake (conf_with 3) four_workers after_schedule
            schedule (idle_start _) four_workers_rest).
  - vm_compute. reflexivity.
  - vm_compute. reflexivity.
  - reflexivity.
  - reflexivity.
Defined.

End WorkersProps.
